(** * The intent router and the plan orchestrator of [toolachieving]

    A shallow embedding of [router/intent_router.py], [core/registry.py] and
    the [answer] view of [app.py], with the properties of the routing
    decision, of the retrieval probe cache, of template substitution and of
    plan execution proved about it.

    Conventions.
    - A Python [str] is a list of Unicode code points ([pystr]); literals are
      written as UTF-8 text and decoded by [u].
    - A Python [float] is an IEEE-754 binary64 value: Rocq's primitive
      [float], compared with [<?] and [=?] as Python compares.
    - A [dict] whose keys are fixed by the code is a record; a [dict] used as
      a map is a [gmap].
    - A call that may raise returns a [Result]. *)

From Stdlib Require Import ZArith NArith List Ascii String Floats Bool Lia.
From stdpp Require Import base option list gmap strings.
From Equations Require Import Equations.
From Equations.Prop Require Import Logic.

Import ListNotations.
Local Open Scope N_scope.
Local Open Scope list_scope.

Set Default Proof Using "Type".
Set Warnings "-inexact-float,-register-all".

(** ** Strings *)

Module PyStr.

(** A string is its sequence of code points. *)
Definition pystr : Type := list N.

(** One step of UTF-8 decoding: [acc] holds the bits read so far of a
    multi-byte character, [pending] how many continuation bytes remain. *)
Fixpoint utf8 (acc : N) (pending : nat) (bs : list N) : pystr :=
  match bs with
  | [] => []
  | b :: r =>
      match pending with
      | O =>
          if b <? 128 then b :: utf8 0 0 r
          else if b <? 224 then utf8 (b - 192) 1 r
          else if b <? 240 then utf8 (b - 224) 2 r
          else utf8 (b - 240) 3 r
      | S O => (acc * 64 + (b - 128)) :: utf8 0 0 r
      | S p => utf8 (acc * 64 + (b - 128)) p r
      end
  end.

(** The string a literal of the source denotes. *)
Definition u (s : string) : pystr :=
  utf8 0 0 (map N_of_ascii (list_ascii_of_string s)).

(** [str.isspace] of one character, which is also the class [\s] of [re]
    on [str] patterns. *)
Definition is_space (c : N) : bool :=
  ((9 <=? c) && (c <=? 13)) || ((28 <=? c) && (c <=? 32))
  || (c =? 133) || (c =? 160) || (c =? 5760)
  || ((8192 <=? c) && (c <=? 8202))
  || (c =? 8232) || (c =? 8233) || (c =? 8239) || (c =? 8287) || (c =? 12288).

(** The first code point of each run of ten decimal digits (category Nd,
    Unicode 14.0 as in CPython 3.11); the mathematical digits
    U+1D7CE..U+1D7FF form five consecutive runs. *)
Definition digit_runs : list N :=
  [ 48; 1632; 1776; 1984; 2406; 2534; 2662; 2790; 2918; 3046; 3174; 3302;
    3430; 3558; 3664; 3792; 3872; 4160; 4240; 6112; 6160; 6470; 6608; 6784;
    6800; 6992; 7088; 7232; 7248; 42528; 43216; 43264; 43472; 43504; 43600;
    44016; 65296; 66720; 68912; 69734; 69872; 69942; 70096; 70384; 70736;
    70864; 71248; 71360; 71472; 71904; 72016; 72784; 73040; 73120; 92768;
    92864; 93008; 120782; 120792; 120802; 120812; 120822; 123200; 123632;
    125264; 130032 ].

(** The class [\d] of [re] on [str] patterns. *)
Definition is_digit (c : N) : bool :=
  existsb (fun lo => (lo <=? c) && (c <? lo + 10)) digit_runs.

(** [s.strip()]: leading and trailing whitespace removed. *)
Fixpoint lstrip (s : pystr) : pystr :=
  match s with
  | [] => []
  | c :: r => if is_space c then lstrip r else s
  end.

Definition strip (s : pystr) : pystr := rev (lstrip (rev (lstrip s))).

(** [s.lower()] on the ASCII letters. Characters outside ASCII are left as
    they are: none of them lowercases to a character of a tool name. *)
Definition lower_char (c : N) : N :=
  if (65 <=? c) && (c <=? 90) then c + 32 else c.

Definition lower (s : pystr) : pystr := map lower_char s.

(** Equality of strings as a boolean. *)
Definition eqb (a b : pystr) : bool := bool_decide (a = b).

(** [x in (a, b, ...)] for strings. *)
Definition mem (x : pystr) (l : list pystr) : bool := existsb (eqb x) l.

End PyStr.
Export PyStr.

(** ** Regular expressions

    The fragment of [re] the router uses: literals, classes, [.],
    concatenation, alternation, [*], and through them [?], [{n,}] and
    [{n,m}]. Whether a pattern matches does not depend on the order in which
    a backtracking matcher tries the alternatives, so [search] and [match]
    used as booleans are decided with derivatives. *)

Module Re.

(** One item of a bracketed class. *)
Inductive citem : Type :=
| IChar (c : N)
| IRange (lo hi : N)
| IDigit
| ISpace.

Inductive regex : Type :=
| Fail
| Eps
| Chr (c : N)
| Dot
| Set_ (negated : bool) (items : list citem)
| Cat (r1 r2 : regex)
| Alt (r1 r2 : regex)
| Star (r : regex).

(** Simple case folding as [re.IGNORECASE] applies it to a literal: the
    ASCII capitals, and the four letters outside ASCII that fold to an ASCII
    letter. *)
Definition fold_case (c : N) : N :=
  if (65 <=? c) && (c <=? 90) then c + 32
  else if (c =? 304) || (c =? 305) then 105
  else if c =? 383 then 115
  else if c =? 8490 then 107
  else c.

Definition chr_match (ic : bool) (c x : N) : bool :=
  if ic then fold_case x =? fold_case c else x =? c.

Definition item_match (x : N) (i : citem) : bool :=
  match i with
  | IChar c => x =? c
  | IRange lo hi => (lo <=? x) && (x <=? hi)
  | IDigit => is_digit x
  | ISpace => is_space x
  end.

Definition set_match (negated : bool) (items : list citem) (x : N) : bool :=
  xorb negated (existsb (item_match x) items).

Fixpoint nullable (r : regex) : bool :=
  match r with
  | Fail | Chr _ | Dot | Set_ _ _ => false
  | Eps | Star _ => true
  | Cat a b => nullable a && nullable b
  | Alt a b => nullable a || nullable b
  end.

(** The derivative of [r] by the character [x]; [ic] is [re.IGNORECASE]. *)
Fixpoint deriv (ic : bool) (x : N) (r : regex) : regex :=
  match r with
  | Fail | Eps => Fail
  | Chr c => if chr_match ic c x then Eps else Fail
  | Dot => if x =? 10 then Fail else Eps
  | Set_ n items => if set_match n items x then Eps else Fail
  | Cat a b =>
      if nullable a then Alt (Cat (deriv ic x a) b) (deriv ic x b)
      else Cat (deriv ic x a) b
  | Alt a b => Alt (deriv ic x a) (deriv ic x b)
  | Star a => Cat (deriv ic x a) (Star a)
  end.

(** The whole of [s] matches [r]. *)
Fixpoint accepts (ic : bool) (r : regex) (s : pystr) : bool :=
  match s with
  | [] => nullable r
  | x :: s' => accepts ic (deriv ic x r) s'
  end.

(** Some prefix of [s] matches [r]. *)
Fixpoint prefix_match (ic : bool) (r : regex) (s : pystr) : bool :=
  nullable r ||
  match s with
  | [] => false
  | x :: s' => prefix_match ic (deriv ic x r) s'
  end.

(** [bool(re.search(r, s))]: a match starts at some position of [s]. *)
Fixpoint search (r : regex) (s : pystr) : bool :=
  prefix_match false r s ||
  match s with
  | [] => false
  | _ :: s' => search r s'
  end.

(** [bool(re.match(r + "$", s, flags))] for a pattern that ends in [$]:
    the match starts at the beginning and reaches the end of [s], or the
    newline that ends [s]. *)
Definition match_to_end (ic : bool) (r : regex) (s : pystr) : bool :=
  accepts ic r s ||
  match rev s with
  | c :: s' => (c =? 10) && accepts ic r (rev s')
  | [] => false
  end.

(** Pattern syntax. *)
Definition lit (s : pystr) : regex := foldr (fun c r => Cat (Chr c) r) Eps s.

Definition alts (rs : list regex) : regex := foldr Alt Fail rs.

(** [(w1|w2|...)] for literal words. *)
Definition words (ws : list string) : regex := alts (map (fun w => lit (u w)) ws).

Definition opt (r : regex) : regex := Alt r Eps.

Fixpoint times (n : nat) (r : regex) : regex :=
  match n with
  | O => Eps
  | S n' => Cat r (times n' r)
  end.

(** [r{n,}] *)
Definition at_least (n : nat) (r : regex) : regex := Cat (times n r) (Star r).

(** Denotation: the words of [r]. *)
Inductive matches (ic : bool) : regex -> pystr -> Prop :=
| MEps : matches ic Eps []
| MChr c x : chr_match ic c x = true -> matches ic (Chr c) [x]
| MDot x : x <> 10 -> matches ic Dot [x]
| MSet n items x : set_match n items x = true -> matches ic (Set_ n items) [x]
| MCat a b s1 s2 : matches ic a s1 -> matches ic b s2 -> matches ic (Cat a b) (s1 ++ s2)
| MAltL a b s : matches ic a s -> matches ic (Alt a b) s
| MAltR a b s : matches ic b s -> matches ic (Alt a b) s
| MStar0 a : matches ic (Star a) []
| MStarS a s1 s2 : matches ic a s1 -> matches ic (Star a) s2 -> matches ic (Star a) (s1 ++ s2).

End Re.
Export Re.

(** ** Values and results *)

Local Open Scope string_scope.
Local Open Scope N_scope.
Local Open Scope list_scope.

(** What a call may raise. *)
Inductive exn : Type :=
| KeyError (key : string)
| IndexError
| TypeError (what : string)
| ValueError (what : string)
| ToolError (what : pystr).

Inductive Result (A : Type) : Type :=
| Ok (a : A)
| Raise (e : exn).
Arguments Ok {A} a.
Arguments Raise {A} e.

(** Sequencing: the first exception raised ends the computation. *)
Global Instance Result_bind : MBind Result := fun A B k m =>
  match m with
  | Ok a => k a
  | Raise e => Raise e
  end.

(** [max(a, b)] of two floats: [b] replaces [a] only when [b > a]. *)
Definition py_max (a b : float) : float := if (a <? b)%float then b else a.

(** Decimal digits of a natural number. *)
Fixpoint uint_chars (d : Decimal.uint) : pystr :=
  match d with
  | Decimal.Nil => []
  | Decimal.D0 r => 48 :: uint_chars r
  | Decimal.D1 r => 49 :: uint_chars r
  | Decimal.D2 r => 50 :: uint_chars r
  | Decimal.D3 r => 51 :: uint_chars r
  | Decimal.D4 r => 52 :: uint_chars r
  | Decimal.D5 r => 53 :: uint_chars r
  | Decimal.D6 r => 54 :: uint_chars r
  | Decimal.D7 r => 55 :: uint_chars r
  | Decimal.D8 r => 56 :: uint_chars r
  | Decimal.D9 r => 57 :: uint_chars r
  end.

Definition dec (n : N) : pystr := uint_chars (N.to_uint n).

(** [n] thousandths printed with three decimals. *)
Definition thousandths (n : N) : pystr :=
  let f := n mod 1000 in
  dec (n / 1000) ++ u "." ++ dec (f / 100) ++ dec (f / 10 mod 10) ++ dec (f mod 10).

(** [num / den] rounded to the nearest integer, halves to the even one. *)
Definition round_half_even (num den : N) : N :=
  let q := num / den in
  let r := num mod den in
  if (den <? 2 * r) || ((2 * r =? den) && N.odd q) then q + 1 else q.

(** [format(x, ".3f")]: the exact value of [x] rounded to three decimals. *)
Definition format_3f (x : float) : pystr :=
  match Prim2SF x with
  | S754_nan => u "nan"
  | S754_infinity s => (if s then u "-" else []) ++ u "inf"
  | S754_zero s => (if s then u "-" else []) ++ u "0.000"
  | S754_finite s m e =>
      (if s then u "-" else []) ++
      thousandths
        (match e with
         | Zneg p => round_half_even (Npos m * 1000) (2 ^ Npos p)
         | _ => Npos m * 1000 * 2 ^ Z.to_N e
         end)
  end.

(** ** The router: [router/intent_router.py] *)

Module Router.

(** The first character of a literal. *)
Definition ch (s : string) : N := hd 0 (u s).

Definition TIME_WORDS : regex :=
  words ["今天"; "明天"; "后天"; "现在"; "本周"; "本月"].
Definition WEATHER_HINT : regex :=
  words ["天气"; "气温"; "温度"; "下雨"; "降雨"; "晴"; "阴"; "多云"; "台风"; "空气质量"].
Definition NEWS_PRICE : regex :=
  words ["新闻"; "价格"; "发布"; "最新"].
Definition KB_HINT : regex :=
  words ["知识库"; "文档"; "文件"; "资料"; "报告"; "手册"; "说明书"; "方案"; "总结";
         "教程"; "笔记"].
Definition GEN_HINT : regex :=
  words ["写"; "短诗"; "诗"; "故事"; "续写"; "润色"; "摘要"; "总结"; "概括"; "定义";
         "解释"; "推荐"; "建议"; "如何"; "怎么"; "一句话"; "短文"; "评论"; "点评";
         "文案"; "口播"; "对联"; "打油诗"].

(** [GREET_HINT] without its anchors: [re.match] supplies [^], and
    [match_to_end] the final [$]. *)
Definition GREET_HINT : regex :=
  Cat (words ["你好"; "您好"; "哈喽"; "嗨"; "hi"; "hello"; "hey"; "早上好"; "中午好";
              "下午好"; "晚上好"])
      (Star (Set_ false [IChar (ch "！"); IChar (ch "!"); IChar (ch "。");
                         IChar (ch "."); ISpace])).

Definition MATH_WORDS : regex :=
  words ["计算"; "求值"; "求最值"; "求和"; "方程"; "解方程"; "积分"; "微分"; "导数";
         "极限"; "排列"; "组合"; "概率"; "方差"; "标准差"; "矩阵"; "行列式"; "特征值";
         "阶乘"].
Definition MATH_OPS : regex :=
  at_least 3 (Set_ false [IDigit; IChar (ch ")"); IChar (ch "("); IChar (ch "+");
                          IChar (ch "-"); IChar (ch "*"); IChar (ch "/");
                          IChar (ch "^"); IChar (ch "=")]).

Definition EXPLICIT_F2 : regex :=
  Cat (words ["用"; "使用"; "调用"])
      (Cat (Star Dot) (words ["知识库"; "文档"; "资料"; "报告"; "手册"; "说明书"])).
Definition EXPLICIT_F1 : regex :=
  words ["联网"; "上网"; "搜索"; "搜一下"; "搜一搜"; "查一查"].
Definition EXPLICIT_LLM : regex :=
  words ["不联网"; "直接回答"; "纯对话"; "闲聊"].

(** The signals [route] and [_prefer_llm] compute from the query. *)
Definition web_signal (q : pystr) : bool :=
  search TIME_WORDS q || search WEATHER_HINT q || search NEWS_PRICE q.

Definition math_signal (q : pystr) : bool :=
  search MATH_WORDS q || search MATH_OPS q.

Definition kb_hint (q : pystr) : bool := search KB_HINT q.

Definition _prefer_llm (q : pystr) : bool :=
  let gen := search GEN_HINT q in
  let web := web_signal q in
  let math := math_signal q in
  gen && negb web && negb math.

Definition _is_greet (q : pystr) : bool := match_to_end true GREET_HINT (strip q).

Definition _is_short_query (q : pystr) : bool := (length (strip q) <=? 6)%nat.

(** *** Slots *)

(** The word matched by [re.search("(w1|w2|...)", s)]: at the leftmost
    position where one matches, the first alternative that does. *)
Definition word_at (ws : list pystr) (s : pystr) : option pystr :=
  List.find (fun w => bool_decide (take (length w) s = w)) ws.

Fixpoint search_word (ws : list pystr) (s : pystr) : option pystr :=
  match word_at ws s with
  | Some w => Some w
  | None =>
      match s with
      | [] => None
      | _ :: s' => search_word ws s'
      end
  end.

(** The class [[一-龥]]. *)
Definition HAN : regex := Set_ false [IRange (ch "一") (ch "龥")].

(** A match of [([一-龥]{2,8})tail] at the start of [s]: the length of the
    group, the longest one first as the greedy quantifier tries them. *)
Definition han_group_at (tail : regex) (s : pystr) : option nat :=
  List.find
    (fun n => bool_decide (length (take n s) = n)
              && accepts false (times n HAN) (take n s)
              && prefix_match false tail (drop n s))
    [8; 7; 6; 5; 4; 3; 2]%nat.

(** The leftmost such match in [s]: what remains of [s] from its start, and
    the length of the group. *)
Fixpoint han_group_search (tail : regex) (s : pystr) : option (pystr * nat) :=
  match han_group_at tail s with
  | Some n => Some (s, n)
  | None =>
      match s with
      | [] => None
      | _ :: s' => han_group_search tail s'
      end
  end.

Definition ADMIN_SUFFIX : regex := words ["市"; "省"; "区"; "县"].

Definition WEATHER_TAIL : regex :=
  Cat (opt ADMIN_SUFFIX) (Cat (opt (lit (u "的"))) (words ["天气"; "气温"; "温度"])).

Definition set_opt (k : string) (v : option pystr) (m : gmap string pystr)
  : gmap string pystr :=
  match v with
  | Some x => <[k := x]> m
  | None => m
  end.

Definition slot_when (q : pystr) : option pystr :=
  search_word (map u ["今天"; "明天"; "后天"; "现在"; "本周"; "本月"]) q.

Definition slot_location (q : pystr) : option pystr :=
  match han_group_search WEATHER_TAIL q with
  | Some (s, n) => Some (take n s)
  | None =>
      match han_group_search ADMIN_SUFFIX q with
      | Some (s, n) => Some (take (S n) s)
      | None => None
      end
  end.

Definition _extract_slots (q : pystr) : gmap string pystr :=
  <["provider" := u "metaso"]>
    (set_opt "location" (slot_location q) (set_opt "when" (slot_when q) ∅)).

(** *** The retrieval probe and its cache *)

(** A [KBIndex] object: [obj_id] tells the objects apart (the [n]-th one
    constructed), [kb_dir] is the knowledge base it was built for. *)
Record KBIndex : Type := { obj_id : nat; kb_dir : pystr }.

(** The dictionary [_KB_CACHE]. *)
Record Cache : Type := {
  kb_id : option pystr;
  idx : option KBIndex;
  mt_meta : float;
  mt_index : float;
}.

Definition _KB_CACHE : Cache :=
  {| kb_id := None; idx := None; mt_meta := 0.0; mt_index := 0.0 |}.

(** What the language model answered, once its JSON is parsed: the keys the
    code reads, [None] for a key that is absent (for [reasons] and
    [segments]: absent or not a list). [obj_reasons_str] is [str()] of the
    value under [reasons] of the object when that value is true and not a
    list, which the single mode keeps as the one reason. *)
Record RawSegment : Type := {
  raw_id : option pystr;
  raw_q : option pystr;
  raw_tool : option pystr;
  raw_confidence : option float;
  raw_reasons : option (list pystr);
  raw_needs_context : option bool;
  raw_q_template : option pystr;
}.

Record RawObject : Type := {
  obj_mode : option pystr;
  obj_segments : option (list RawSegment);
  obj_target : option pystr;
  obj_confidence : option float;
  obj_reasons : option (list pystr);
  obj_reasons_str : option pystr;
}.

(** The world outside the router: import flags, environment variables, the
    index files and the collaborators' answers. *)
Record Env : Type := {
  _KB_AVAILABLE : bool;
  _LLM_AVAILABLE : bool;
  (** [os.getenv("KB_ROUTE_KB_ID")] *)
  KB_ROUTE_KB_ID : option pystr;
  (** [float(os.getenv("KB_ROUTE_THRESHOLD"))] when it is set and a number *)
  KB_ROUTE_THRESHOLD : option float;
  (** [st_mtime] of [meta.jsonl] and of [index.faiss] of a knowledge base,
      [None] when the file does not exist. The file system is taken to
      answer [exists()]: an [OSError] that [exists()] or [resolve()] lets
      through before the [try] of [_kb_probe] (a name too long, a directory
      that may not be searched) has no value here, and what is proved of
      [_kb_probe] and [route] is proved of the runs without one. *)
  meta_mtime : pystr -> option float;
  index_mtime : pystr -> option float;
  (** whether [KBIndex.load] returns rather than raises *)
  load_returns : pystr -> bool;
  (** [idx.query(q, top_k=1)]: [None] when it raises, otherwise the score
      of the first hit if there is one *)
  query_top1 : KBIndex -> pystr -> option (option float);
  (** the parsed content of the model's reply, [None] when the call or the
      parsing fails *)
  llm_reply : pystr -> option RawObject;
}.

(** The state [_kb_probe] works on: the cache, and how many [KBIndex]
    objects have been constructed. *)
Record ProbeState : Type := { cache : Cache; constructed : nat }.

Definition py_str_ne (a : option pystr) (b : pystr) : bool :=
  negb (bool_decide (a = Some b)).

(** The staleness test of [_kb_probe]. *)
Definition need_reload (c : Cache) (kb : pystr) (m_meta m_index : float) : bool :=
  bool_decide (idx c = None)
  || py_str_ne (kb_id c) kb
  || negb (mt_meta c =? m_meta)%float
  || negb (mt_index c =? m_index)%float.

(** [_kb_probe(q, kb_id)] on the state it works on. The two calls of
    [exists()] before the [try] are taken to return (see [meta_mtime]);
    inside the [try] every exception gives [(False, 0.0)], after the
    [KBIndex] object has been constructed when it is the load that
    raises. *)
Definition _kb_probe (env : Env) (st : ProbeState) (q : pystr) (kb : option pystr)
  : ProbeState * (bool * float) :=
  if negb (_KB_AVAILABLE env) then (st, (false, 0.0%float))
  else
    let kb :=
      match kb with
      | Some (c :: k) => c :: k
      | _ => default (u "default") (KB_ROUTE_KB_ID env)
      end in
    match meta_mtime env kb, index_mtime env kb with
    | Some m_meta, Some m_index =>
        let reloaded :=
          if need_reload (cache st) kb m_meta m_index then
            let new := {| obj_id := constructed st; kb_dir := kb |} in
            if load_returns env kb then
              Some {| cache := {| kb_id := Some kb; idx := Some new;
                                  mt_meta := m_meta; mt_index := m_index |};
                      constructed := S (constructed st) |}
            else None
          else Some st in
        match reloaded with
        | None => ({| cache := cache st; constructed := S (constructed st) |},
                   (false, 0.0%float))
        | Some st' =>
            match idx (cache st') with
            | None => (st', (false, 0.0%float))
            | Some i =>
                match query_top1 env i q with
                | None => (st', (false, 0.0%float))
                | Some None => (st', (true, 0.0%float))
                | Some (Some score) => (st', (true, score))
                end
            end
        end
    | _, _ => (st, (false, 0.0%float))
    end.

(** *** The suggestion source: [_llm_route], from the parsed reply on *)

(** A segment as [_llm_route] returns it. *)
Record Segment : Type := {
  seg_id : pystr;
  seg_q : pystr;
  seg_tool : pystr;
  seg_confidence : float;
  seg_reasons : list pystr;
  seg_needs_context : bool;
  seg_q_template : pystr;
}.

(** The dictionary [_llm_route] returns, by its ["mode"]. *)
Inductive Suggestion : Type :=
| Single (target : pystr) (confidence : float) (reasons : list pystr)
| Multi (segments : list Segment) (confidence : float) (reasons : list pystr).

Definition TOOLS : list pystr := map u ["f1"; "f2"; "f3"; "llm"].

(** The loop over [enumerate(segs_in, 1)]: [i] is the running index. *)
Fixpoint keep_segments (i : N) (segs_in : list RawSegment) : list Segment :=
  match segs_in with
  | [] => []
  | seg :: rest =>
      let tool := lower (default [] (raw_tool seg)) in
      if negb (mem tool TOOLS) then keep_segments (i + 1) rest
      else
        {| seg_id := match raw_id seg with
                     | Some (c :: r) => c :: r
                     | _ => u "s" ++ dec i
                     end;
           seg_q := default [] (raw_q seg);
           seg_tool := tool;
           seg_confidence := default 0.0%float (raw_confidence seg);
           seg_reasons := default [] (raw_reasons seg);
           seg_needs_context := default false (raw_needs_context seg);
           seg_q_template := default [] (raw_q_template seg) |}
        :: keep_segments (i + 1) rest
  end.

Definition _llm_route_obj (obj : RawObject) : option Suggestion :=
  let mode := lower (default (u "single") (obj_mode obj)) in
  match (if eqb mode (u "multi") then obj_segments obj else None) with
  | Some segs_in =>
      Some (Multi (keep_segments 1 segs_in)
                  (default 0.0%float (obj_confidence obj))
                  (default [] (obj_reasons obj)))
  | None =>
      let tgt := lower (default [] (obj_target obj)) in
      if negb (mem tgt TOOLS) then None
      else Some (Single tgt (default 0.0%float (obj_confidence obj))
                        match obj_reasons obj with
                        | Some l => l
                        | None => match obj_reasons_str obj with
                                  | Some r => [r]
                                  | None => []
                                  end
                        end)
  end.

Definition _llm_route (env : Env) (q : pystr) : option Suggestion :=
  if negb (_LLM_AVAILABLE env) then None
  else llm_reply env q ≫= _llm_route_obj.

(** *** Decisions *)

Record PlanStep : Type := {
  step_id : option pystr;
  step_q : pystr;
  step_tool : pystr;
  step_confidence : float;
  step_reasons : list pystr;
  step_needs_context : bool;
  step_q_template : pystr;
}.

(** The dictionary [route] returns; [plan] is [None] when the key is
    absent. *)
Record Decision : Type := {
  target : pystr;
  confidence : float;
  reasons : list pystr;
  slots : gmap string pystr;
  plan : option (list PlanStep);
}.

Definition decision (t : pystr) (c : float) (rs : list pystr)
    (sl : gmap string pystr) : Decision :=
  {| target := t; confidence := c; reasons := rs; slots := sl; plan := None |}.

(** [if plan: out["plan"] = plan] *)
Definition attach (p : list PlanStep) (d : Decision) : Decision :=
  match p with
  | [] => d
  | _ :: _ =>
      {| target := target d; confidence := confidence d; reasons := reasons d;
         slots := slots d; plan := Some p |}
  end.

(** [r["reasons"].append(tag)] *)
Definition append_reason (tag : pystr) (d : Decision) : Decision :=
  {| target := target d; confidence := confidence d;
     reasons := reasons d ++ [tag]; slots := slots d; plan := plan d |}.

Definition _detect_explicit (q : pystr) : option Decision :=
  if search EXPLICIT_F2 q then
    Some (decision (u "f2") 0.98 [u "explicit:f2"] ∅)
  else if search EXPLICIT_F1 q then
    Some (decision (u "f1") 0.98 [u "explicit:f1"] (_extract_slots q))
  else if search EXPLICIT_LLM q then
    Some (decision (u "llm") 0.98 [u "explicit:llm"] ∅)
  else None.

(** The tag [f"kb:score={kb_score:.3f}"]. *)
Definition kb_score_tag (kb_score : float) : pystr :=
  u "kb:score=" ++ format_3f kb_score.

(** The closure [by_rules] of [route], with the values it captures:
    the query, the threshold and the result of the probe. *)
Definition by_rules (q : pystr) (th : float) (kb_ready : bool) (kb_score : float)
  : Decision :=
  if _is_greet q then decision (u "llm") 0.9 [u "greet"] ∅
  else if _prefer_llm q then decision (u "llm") 0.85 [u "gen"] ∅
  else if math_signal q then decision (u "f3") 0.85 [u "math"] ∅
  else if web_signal q then
    decision (u "f1") 0.85
      ((if search TIME_WORDS q then [u "time"] else [])
       ++ (if search WEATHER_HINT q then [u "weather"] else [])
       ++ (if search NEWS_PRICE q then [u "news/price"] else []))
      (_extract_slots q)
  else if kb_ready && (th <=? kb_score)%float then
    decision (u "f2") 0.85 [kb_score_tag kb_score] ∅
  else if kb_hint q then decision (u "f2") 0.75 [u "kb-hint"] ∅
  else decision (u "llm") 0.7 [u "default-llm"] ∅.

(** The second check of each segment of a multi-segment suggestion. *)
Definition revalidate (seg : Segment) : PlanStep :=
  let tool := lower (seg_tool seg) in
  let to_llm := mem tool [u "f1"; u "f2"] && _prefer_llm (seg_q seg) in
  {| step_id := match seg_id seg with [] => None | i => Some i end;
     step_q := seg_q seg;
     step_tool := if to_llm then u "llm" else tool;
     step_confidence := seg_confidence seg;
     step_reasons := if to_llm then seg_reasons seg ++ [u "rule:prefer-llm-gen"]
                     else seg_reasons seg;
     step_needs_context := seg_needs_context seg;
     step_q_template := seg_q_template seg |}.

(** [sorted(plan, key=confidence, reverse=True)]: a stable sort into
    descending order, here by insertion from the right. Stable sorts agree
    with one another whenever the keys are comparable, that is when no
    confidence is a NaN; with a NaN among the keys the order [sorted]
    leaves depends on the comparisons its merge sort happens to make, and
    this definition does not follow it. Every statement that depends on the
    order therefore assumes that the confidences are numbers. *)
Fixpoint insert_desc (x : PlanStep) (l : list PlanStep) : list PlanStep :=
  match l with
  | [] => [x]
  | y :: l' =>
      if (step_confidence x <? step_confidence y)%float then y :: insert_desc x l'
      else x :: y :: l'
  end.

Definition sorted_desc (l : list PlanStep) : list PlanStep := foldr insert_desc [] l.

(** [sorted(plan, ...)[0]] *)
Definition primary_of (l : list PlanStep) : Result PlanStep :=
  match sorted_desc l with
  | p :: _ => Ok p
  | [] => Raise IndexError
  end.

(** What [route] reads off the suggestion: the suggested target, its
    confidence and reasons, and the plan (empty for a single target). *)
Definition suggested (sug : Suggestion)
  : Result (pystr * float * list pystr * list PlanStep) :=
  match sug with
  | Multi (s :: segs) _ _ =>
      let plan := map revalidate (s :: segs) in
      primary ← primary_of plan;
      Ok (step_tool primary, step_confidence primary,
          u "llm:multi-primary" :: step_reasons primary, plan)
  | Multi [] _ _ => Raise (KeyError "target")
  | Single t c rs => Ok (t, c, rs, [])
  end.

(** The reconciliation of a suggestion of confidence at least 0.6 with the
    signals of the rules. *)
Definition reconcile (q : pystr) (th : float) (kb_ready : bool) (kb_score : float)
    (tgt : pystr) (conf : float) (rs : list pystr) (p : list PlanStep) : Decision :=
  let strong_kb := kb_ready && (th <=? kb_score)%float in
  let kb_tag := if strong_kb then [kb_score_tag kb_score] else [u "kb-hint"] in
  if eqb tgt (u "f1") then
    if web_signal q then
      attach p (decision (u "f1") (py_max conf 0.9) (rs ++ [u "rule:web"]) (_extract_slots q))
    else if math_signal q then
      attach p (decision (u "f3") 0.85 (rs ++ [u "rule:math"]) ∅)
    else if strong_kb || kb_hint q then
      attach p (decision (u "f2") 0.8 (rs ++ kb_tag) ∅)
    else attach p (decision (u "f1") conf rs (_extract_slots q))
  else if eqb tgt (u "f2") then
    if strong_kb then
      attach p (decision (u "f2") (py_max conf 0.9) (rs ++ [kb_score_tag kb_score]) ∅)
    else if web_signal q then
      attach p (decision (u "f1") 0.85 (rs ++ [u "rule:web"]) (_extract_slots q))
    else if math_signal q then
      attach p (decision (u "f3") 0.85 (rs ++ [u "rule:math"]) ∅)
    else if kb_hint q then
      attach p (decision (u "f2") (py_max conf 0.8) (rs ++ [u "kb-hint"]) ∅)
    else attach p (decision (u "f2") conf rs ∅)
  else if eqb tgt (u "f3") then
    if math_signal q then
      attach p (decision (u "f3") (py_max conf 0.9) (rs ++ [u "rule:math"]) ∅)
    else if web_signal q then
      attach p (decision (u "f1") 0.85 (rs ++ [u "rule:web"]) (_extract_slots q))
    else if strong_kb || kb_hint q then
      attach p (decision (u "f2") 0.8 (rs ++ kb_tag) ∅)
    else attach p (decision (u "f3") conf rs ∅)
  else if _is_greet q
          || (_is_short_query q && negb (web_signal q) && negb (math_signal q)
              && negb (kb_hint q)) then
    attach p (decision (u "llm") (py_max conf 0.85)
                (rs ++ (if _is_greet q then [u "greet"] else [u "short"])) ∅)
  else if web_signal q then
    attach p (decision (u "f1") 0.85 (rs ++ [u "rule:web"]) (_extract_slots q))
  else if math_signal q then
    attach p (decision (u "f3") 0.85 (rs ++ [u "rule:math"]) ∅)
  else if strong_kb || kb_hint q then
    attach p (decision (u "f2") 0.8 (rs ++ kb_tag) ∅)
  else attach p (decision (u "llm") (py_max conf 0.7) rs ∅).

(** The body of [route] once the threshold, the probe and the suggestion
    are known. *)
Definition merge (q : pystr) (th : float) (kb_ready : bool) (kb_score : float)
    (sug : option Suggestion) : Result Decision :=
  match sug with
  | None => Ok (by_rules q th kb_ready kb_score)
  | Some sug =>
      '(tgt, conf, rs, p) ← suggested sug;
      if (conf <? 0.6)%float then
        Ok (attach p (append_reason (u "rule:override-llm-lowconf")
                        (by_rules q th kb_ready kb_score)))
      else Ok (reconcile q th kb_ready kb_score tgt conf rs p)
  end.

(** [route(q)], on the state of the probe cache. *)
Definition route (env : Env) (st : ProbeState) (q : pystr)
  : ProbeState * Result Decision :=
  match _detect_explicit q with
  | Some exp => (st, Ok exp)
  | None =>
      let th := default 0.35%float (KB_ROUTE_THRESHOLD env) in
      let '(st', (kb_ready, kb_score)) := _kb_probe env st q None in
      let sug := _llm_route env q in
      (st', merge q th kb_ready kb_score sug)
  end.

End Router.
Export Router.

(** ** The tool registry: [core/registry.py] *)

Module Registry.

(** A JSON value of the request, or a value the code puts in a payload. *)
Inductive pyval : Type :=
| VNone
| VBool (b : bool)
| VInt (z : Z)
| VFloat (f : float)
| VStr (s : pystr)
| VList (l : list pyval)
| VDict (d : gmap string pyval).

(** The payload a handler receives. *)
Abbreviation Payload := (gmap string pyval).

Record Item : Type := { title : pystr; url : pystr; snippet : pystr }.

(** The dictionary a handler returns, by the keys the orchestrator reads;
    [None] is an absent key. The value under ["result"] is kept as its
    [str()], which is all the orchestrator looks at. *)
Record ToolOut : Type := {
  items : list Item;
  result : option pystr;
  text : option pystr;
  error : option pystr;
}.

Definition Handler : Type := Payload -> Result ToolOut.

(** The four [run] functions of the features. *)
Record Tools : Type := {
  f1_run : Handler;
  llm_run : Handler;
  f2_run : Handler;
  f3_run : Handler;
}.

Record Entry : Type := { handler : Handler; desc : pystr }.

Definition REGISTRY (t : Tools) : gmap pystr Entry :=
  <[u "f1" := {| handler := f1_run t; desc := u "Web Search (联网搜索)" |}]>
  (<[u "llm" := {| handler := llm_run t; desc := u "Default LLM (SiliconFlow)" |}]>
  (<[u "f2" := {| handler := f2_run t; desc := u "Knowledge Base (RAG)" |}]>
  (<[u "f3" := {| handler := f3_run t; desc := u "Python Math (代码求解)" |}]> ∅))).

Definition unknown_feature (target : pystr) : ToolOut :=
  {| items := []; result := None; text := None;
     error := Some (u "unknown feature: " ++ target) |}.

Definition dispatch (t : Tools) (target : pystr) (payload : Payload)
  : Result ToolOut :=
  match REGISTRY t !! target with
  | None => Ok (unknown_feature target)
  | Some item => handler item payload
  end.

End Registry.
Export Registry.

(** ** The orchestrator: the view [answer] of [app.py] *)

Module App.

(** [bool(v)] *)
Definition truthy (v : pyval) : bool :=
  match v with
  | VNone => false
  | VBool b => b
  | VInt z => negb (z =? 0)%Z
  | VFloat f => negb (f =? 0)%float
  | VStr s => negb (bool_decide (s = []))
  | VList l => negb (bool_decide (l = []))
  | VDict d => negb (bool_decide (d = ∅))
  end.

(** The value of a decimal digit. *)
Definition digit_value (c : N) : option N :=
  (fun lo => c - lo) <$> List.find (fun lo => (lo <=? c) && (c <? lo + 10)) digit_runs.

(** The whitespace [int()] skips around the digits of a string: the
    whitespace of [str], without the four separators U+001C to U+001F. *)
Definition is_int_space (c : N) : bool :=
  is_space c && negb ((28 <=? c) && (c <=? 31)).

Fixpoint skip_int_space (s : pystr) : pystr :=
  match s with
  | [] => []
  | c :: r => if is_int_space c then skip_int_space r else s
  end.

(** The run of digits at the start of an integer literal, single
    underscores allowed between them: its value, the number of its digits
    and what follows it; [None] when an underscore does not stand between
    two digits. [after_digit] tells whether the previous character was a
    digit. *)
Fixpoint scan_digits (acc : N) (count : nat) (after_digit : bool) (s : pystr)
  : option (N * nat * pystr) :=
  match s with
  | [] => if after_digit || (count =? 0)%nat then Some (acc, count, []) else None
  | c :: r =>
      if c =? 95 then
        if after_digit then scan_digits acc count false r else None
      else
        match digit_value c with
        | Some d => scan_digits (acc * 10 + d) (S count) true r
        | None =>
            if after_digit || (count =? 0)%nat then Some (acc, count, s) else None
        end
  end.

(** [sys.get_int_max_str_digits()], at its default. *)
Definition MAX_STR_DIGITS : nat := 4300.

(** [int(v)]. For a string: whitespace is skipped, then a sign, then the
    digits are scanned; a misplaced underscore is an invalid literal, more
    than [MAX_STR_DIGITS] digits exceed the limit of the conversion, and
    after the digits only whitespace may follow. *)
Definition py_int (v : pyval) : Result Z :=
  match v with
  | VInt z => Ok z
  | VBool b => Ok (if b then 1 else 0)%Z
  | VFloat f =>
      match Prim2SF f with
      | S754_zero _ => Ok 0%Z
      | S754_finite sg m e =>
          let a := match e with
                   | Zneg p => (Zpos m / 2 ^ Zpos p)%Z
                   | _ => (Zpos m * 2 ^ e)%Z
                   end in
          Ok (if sg then - a else a)%Z
      | S754_infinity _ => Raise (ValueError "cannot convert float infinity to integer")
      | S754_nan => Raise (ValueError "cannot convert float NaN to integer")
      end
  | VStr s =>
      let body := skip_int_space s in
      let '(neg, ds) :=
        match body with
        | c :: r => if c =? 45 then (true, r) else if c =? 43 then (false, r) else (false, body)
        | [] => (false, body)
        end in
      match scan_digits 0 0 false ds with
      | None => Raise (ValueError "invalid literal for int()")
      | Some (n, count, rest) =>
          if (MAX_STR_DIGITS <? count)%nat then
            Raise (ValueError "Exceeds the limit (4300 digits) for integer string conversion")
          else if (count =? 0)%nat then Raise (ValueError "invalid literal for int()")
          else
            match skip_int_space rest with
            | [] => Ok (if neg then - Z.of_N n else Z.of_N n)%Z
            | _ => Raise (ValueError "invalid literal for int()")
            end
      end
  | VNone | VList _ | VDict _ => Raise (TypeError "int() argument")
  end.

(** An entry of the context map [ctx]. *)
Record CtxEntry : Type := { ans : option pystr; ctx_text : option pystr }.

(** [str(v)] of a recorded value. *)
Definition py_str (v : option pystr) : pystr := default (u "None") v.

(** *** Template substitution *)

(** [key.split(".", 1)] when ["." in key]. *)
Fixpoint split_dot (key : pystr) : option (pystr * pystr) :=
  match key with
  | [] => None
  | c :: r =>
      if c =? 46 then Some ([], r)
      else '(a, b) ← split_dot r; Some (c :: a, b)
  end.

(** [entry.get(var, dflt)] on the dictionary of an entry. *)
Definition entry_get (e : CtxEntry) (var : pystr) (dflt : pystr) : pystr :=
  if eqb var (u "ans") then py_str (ans e)
  else if eqb var (u "text") then py_str (ctx_text e)
  else dflt.

(** The callback [_repl]; [key] is group 1 of the match, and the match
    itself is the key between its braces. *)
Definition _repl (ctx : gmap pystr CtxEntry) (key : pystr) : pystr :=
  let whole := u "{" ++ key ++ u "}" in
  match split_dot key with
  | Some (sid2, var) =>
      match ctx !! sid2 with
      | Some e => entry_get e var whole
      | None => whole
      end
  | None => whole
  end.

(** The characters up to the first closing brace, and the rest from it. *)
Fixpoint until_close (s : pystr) : pystr * pystr :=
  match s with
  | [] => ([], [])
  | c :: r =>
      if c =? 125 then ([], s)
      else let '(k, t) := until_close r in (c :: k, t)
  end.

(** A match of the pattern [\{([^\}]+)\}] at the start of [s]: group 1 and
    what follows the match. *)
Definition token_at (s : pystr) : option (pystr * pystr) :=
  match s with
  | c :: r =>
      if c =? 123 then
        match until_close r with
        | (k :: key, _ :: rest) => Some (k :: key, rest)
        | _ => None
        end
      else None
  | [] => None
  end.

(** [re.sub(r"\{([^\}]+)\}", repl, s)]: from left to right, a match is
    replaced by what the callback returns for its group and the scan goes on
    after the match; a character where no match starts is copied. *)
Equations? re_sub (repl : pystr -> pystr) (s : pystr) : pystr by wf (length s) lt :=
re_sub repl [] := [];
re_sub repl (c :: r) with inspect (token_at (c :: r)) => {
  | exist _ (Some (key, rest)) e := repl key ++ re_sub repl rest;
  | exist _ None _ := c :: re_sub repl r }.
Proof.
  assert (L : forall t a b, until_close t = (a, b) -> length t = (length a + length b)%nat).
  { induction t as [|x t IH]; intros a b; simpl.
    - intros [= <- <-]; reflexivity.
    - destruct (x =? 125); [intros [= <- <-]; reflexivity|].
      destruct (until_close t) as [a' b'] eqn:E.
      intros [= <- <-]. simpl. rewrite (IH a' b'); auto. }
  simpl in e. destruct (c =? 123); [|discriminate].
  destruct (until_close r) as [a b] eqn:E.
  destruct a; [discriminate|]. destruct b; [discriminate|].
  injection e as <- <-. apply L in E. simpl in *. lia.
Qed.

(** *** Plan execution *)

(** The collaborators of one request: the world of the router, the tools,
    the reply of the model asked to rewrite a sub-question from the
    context ([None]: the call raises; [Some None]: a reply without content),
    and whether [jsonify] can serialise the dictionary the tool of that name
    returns for a payload. The dictionaries carry values a [ToolOut] does
    not show: [f3] returns under ["result"] the object its code left in
    [ans], which may be a set or any other object [json] refuses. *)
Record World : Type := {
  router_env : Env;
  tools : Tools;
  rewrite_reply : gmap pystr CtxEntry -> pystr -> option (option pystr);
  json_ok : pystr -> Payload -> bool;
}.

(** A record of [steps_out]; [rec_json] tells whether [jsonify] can
    serialise its output. *)
Record StepRecord : Type := {
  rec_id : pystr;
  rec_tool : pystr;
  rec_input_q : pystr;
  rec_output : ToolOut;
  rec_json : bool;
}.

(** The variables the loop over the plan updates: [ctx], [steps_out] and
    [out]. *)
Record LoopState : Type := {
  ctx : gmap pystr CtxEntry;
  steps_out : list StepRecord;
  last_out : option ToolOut;
}.

Definition loop_start : LoopState :=
  {| ctx := ∅; steps_out := []; last_out := None |}.

(** The query of a step. *)
Definition step_query (w : World) (q : pystr) (c : gmap pystr CtxEntry)
    (step : PlanStep) : pystr :=
  let step_q := match step_q step with [] => q | s => s end in
  let needs_ctx := step_needs_context step in
  let q_tmpl := step_q_template step in
  match needs_ctx, q_tmpl with
  | true, _ :: _ => re_sub (_repl c) q_tmpl
  | true, [] =>
      match rewrite_reply w c step_q with
      | Some content => strip (default step_q content)
      | None => step_q
      end
  | false, _ => step_q
  end.

Definition copy_key (key : string) (from to : Payload) : Payload :=
  match from !! key with
  | Some v => <[key := v]> to
  | None => to
  end.

(** The payload of a step. *)
Definition step_payload (tool step_q : pystr) (k : Z) (payload data : Payload)
  : Result Payload :=
  let base : Payload := {[ "q" := VStr step_q ]} in
  if eqb tool (u "f1") then
    Ok (<["slots" := default (VDict ∅) (payload !! "slots")]> (<["k" := VInt k]> base))
  else if eqb tool (u "f2") then
    let p1 := copy_key "kb_id" data base in
    p2 ← match data !! "top_k" with
         | Some v => n ← py_int v; Ok (<["top_k" := VInt n]> p1)
         | None => Ok p1
         end;
    Ok (match data !! "gen" with
        | Some v => <["gen" := VBool (truthy v)]> p2
        | None => p2
        end)
  else if eqb tool (u "f3") then Ok (copy_key "code" data base)
  else Ok base.

(** [step.get("id") or "s"] *)
Definition step_sid (step : PlanStep) : pystr :=
  match step_id step with
  | Some (c :: r) => c :: r
  | _ => u "s"
  end.

(** The body of the loop for one step. *)
Definition run_step (w : World) (q : pystr) (k : Z) (payload data : Payload)
    (ls : LoopState) (step : PlanStep) : Result LoopState :=
  let sid := step_sid step in
  let tool := step_tool step in
  let step_q := step_query w q (ctx ls) step in
  sp ← step_payload tool step_q k payload data;
  out ← dispatch (tools w) tool sp;
  Ok {| ctx := <[sid := {| ans := result out; ctx_text := text out |}]> (ctx ls);
        steps_out := steps_out ls ++
                     [{| rec_id := sid; rec_tool := tool; rec_input_q := step_q;
                         rec_output := out; rec_json := json_ok w tool sp |}];
        last_out := Some out |}.

(** The loop [for step in plan]. *)
Fixpoint run_plan (w : World) (q : pystr) (k : Z) (payload data : Payload)
    (ls : LoopState) (p : list PlanStep) : Result LoopState :=
  match p with
  | [] => Ok ls
  | step :: rest =>
      ls' ← run_step w q k payload data ls step;
      run_plan w q k payload data ls' rest
  end.

(** ["results"] of the response: the items under the key of a tool, and the
    step trace when a plan was run. *)
Record Results : Type := {
  key : pystr;
  key_items : list Item;
  steps : option (list StepRecord);
}.

Inductive Response : Type :=
| MissingQ
| Answered (query : pystr) (d : Decision) (results : Results) (err : option pystr).

(** [out.get("error")] when it is true. *)
Definition true_error (o : ToolOut) : option pystr :=
  match error o with
  | Some (c :: r) => Some (c :: r)
  | _ => None
  end.

(** The tool of the primary step, [target] if it cannot be found. *)
Definition primary_tool_of (target : pystr) (p : list PlanStep) : pystr :=
  match primary_of p with
  | Ok primary => step_tool primary
  | Raise _ => target
  end.

(** The items of the first record of the trace whose tool is the primary
    one. *)
Definition primary_items_of (primary_tool : pystr) (trace : list StepRecord)
  : list Item :=
  match List.find (fun r => eqb (rec_tool r) primary_tool) trace with
  | Some r => items (rec_output r)
  | None => []
  end.

(** The multi-step path, inside its [try]: [Ok None] when the decision has
    no plan. The [try] ends with [return jsonify(resp)], which serialises
    the whole step trace and raises [TypeError] when an output in it cannot
    be serialised. *)
Definition orchestrate (w : World) (q : pystr) (k : Z) (payload data : Payload)
    (d : Decision) (target : pystr) : Result (option Response) :=
  match plan d with
  | Some (s :: p) =>
      let primary_tool := primary_tool_of target (s :: p) in
      ls ← run_plan w q k payload data loop_start (s :: p);
      if forallb rec_json (steps_out ls) then
        Ok (Some (Answered q d
                    {| key := primary_tool;
                       key_items := primary_items_of primary_tool (steps_out ls);
                       steps := Some (steps_out ls) |}
                    (last_out ls ≫= true_error)))
      else Raise (TypeError "Object is not JSON serializable")
  | _ => Ok None
  end.

(** The single-step path: of what the tool returns only the items, which
    the tools build from strings and scores, and the error reach
    [jsonify]. *)
Definition single_step (w : World) (q : pystr) (payload : Payload) (d : Decision)
    (target : pystr) : Result Response :=
  r ← dispatch (tools w) target payload;
  Ok (Answered q d {| key := target; key_items := items r; steps := None |}
        (true_error r)).

(** [decision["target"] if decision["target"] != "hybrid" else "f1"] *)
Definition dispatch_target (d : Decision) : pystr :=
  if eqb (target d) (u "hybrid") then u "f1" else target d.

(** [{"q": q, "k": k, "slots": decision.get("slots", {}), **data}]: the keys
    of the request come last and win. *)
Definition base_payload (q : pystr) (k : Z) (data : Payload) (d : Decision)
  : Payload :=
  data ∪ {[ "q" := VStr q; "k" := VInt k; "slots" := VDict (VStr <$> slots d) ]}.

(** The decision of a request: the router is asked only in mode ["auto"]. *)
Definition decide_request (w : World) (st : ProbeState) (q mode : pystr)
  : ProbeState * Result Decision :=
  if negb (eqb mode (u "auto")) then (st, Ok (decision mode 1.0 [] ∅))
  else route (router_env w) st q.

(** [answer], once [q], [mode] and [k] are read from the request [data]. *)
Definition answer (w : World) (st : ProbeState) (q mode : pystr) (k : Z)
    (data : Payload) : ProbeState * Result Response :=
  match q with
  | [] => (st, Ok MissingQ)
  | _ :: _ =>
      let '(st', routed) := decide_request w st q mode in
      (st',
       d ← routed;
       let target := dispatch_target d in
       let payload := base_payload q k data d in
       match orchestrate w q k payload data d target with
       | Ok (Some resp) => Ok resp
       | Ok None | Raise _ => single_step w q payload d target
       end)
  end.

(** What the client receives: the response of the view, or the reply of the
    handler that [core/errors.py] installs for every exception a view lets
    through, [{"error": "InternalError", "detail": str(e)}] with status 500. *)
Inductive HttpReply : Type :=
| Status200 (r : Response)
| Status400
| Status500 (detail : exn).

Definition _fallback (e : exn) : HttpReply := Status500 e.

Definition serve (w : World) (st : ProbeState) (q mode : pystr) (k : Z)
    (data : Payload) : ProbeState * HttpReply :=
  let '(st', r) := answer w st q mode k data in
  (st',
   match r with
   | Ok MissingQ => Status400
   | Ok resp => Status200 resp
   | Raise e => _fallback e
   end).

End App.
Export App.

(** ** The text splitter: [split_text] of [core/ingest/loader.py] *)

Module Loader.

(** [re.sub(r'\s+', ' ', text)]: every run of whitespace becomes one space;
    [in_run] tells whether the previous character was whitespace. *)
Fixpoint collapse (in_run : bool) (s : pystr) : pystr :=
  match s with
  | [] => []
  | c :: r =>
      if is_space c then
        if in_run then collapse true r else 32 :: collapse true r
      else c :: collapse false r
  end.

(** The class [[。！？!?；;]]. *)
Definition SENTENCE_END : pystr := u "。！？!?；;".

Definition is_end (c : N) : bool := existsb (N.eqb c) SENTENCE_END.

(** [re.split(r'(?<=[。！？!?；;])', text)]: the pattern matches the empty
    string after every sentence end, so the text is cut there; a text that
    ends with a sentence end gives a last, empty piece. *)
Fixpoint split_after_end (s : pystr) : list pystr :=
  match s with
  | [] => [[]]
  | c :: r =>
      if is_end c then [c] :: split_after_end r
      else
        match split_after_end r with
        | seg :: segs => (c :: seg) :: segs
        | [] => [[c]]
        end
  end.

(** The loop [for s in segs], on [out] and [buf]. *)
Fixpoint pack (max_len : Z) (out : list pystr) (buf : pystr) (segs : list pystr)
  : list pystr * pystr :=
  match segs with
  | [] => (out, buf)
  | s :: rest =>
      if (Z.of_nat (length buf + length s) <=? max_len)%Z then
        pack max_len out (buf ++ s) rest
      else
        pack max_len (match buf with [] => out | _ :: _ => out ++ [strip buf] end) s rest
  end.

Definition split_text (text : pystr) (max_len : Z) : list pystr :=
  match strip (collapse false text) with
  | [] => []
  | c :: t =>
      let '(out, buf) := pack max_len [] [] (split_after_end (c :: t)) in
      match buf with [] => out | _ :: _ => out ++ [strip buf] end
  end.

End Loader.

(** ** The tools for search and for the model: [features/f1/service.py] and
    [features/llm/service.py] *)

Module Services.

(** [d.get(key)] *)
Definition py_get (d : Payload) (key : string) : pyval := default VNone (d !! key).

(** [a or b] *)
Definition py_or (a b : pyval) : pyval := if truthy a then a else b.

(** [type(v).__name__] *)
Definition type_name (v : pyval) : string :=
  match v with
  | VNone => "NoneType"
  | VBool _ => "bool"
  | VInt _ => "int"
  | VFloat _ => "float"
  | VStr _ => "str"
  | VList _ => "list"
  | VDict _ => "dict"
  end.

(** The [AttributeError] a method call on a value without that method
    raises; the type [exn] does not list the class, so the exception is
    carried with its message. *)
Definition AttributeError (v : pyval) (attr : string) : exn :=
  ToolError (u "'" ++ u (type_name v) ++ u "' object has no attribute '"
             ++ u attr ++ u "'").

(** A call [v.attr()] of a method of [str]. *)
Definition str_method (attr : string) (f : pystr -> pystr) (v : pyval) : Result pystr :=
  match v with
  | VStr s => Ok (f s)
  | _ => Raise (AttributeError v attr)
  end.

(** A use of [v.get]. *)
Definition as_dict (v : pyval) : Result Payload :=
  match v with
  | VDict d => Ok d
  | _ => Raise (AttributeError v "get")
  end.

(** How a call of [web_search] ends: with items, with one of the two
    errors of the provider ([MetasoHTTPError], [MetasoConfigError]), or
    with any other exception; an error comes with its [str()]. *)
Inductive SearchOutcome : Type :=
| Found (found : list Item)
| MetasoError (msg : pystr)
| SearchFailed (msg : pystr).

(** How a call of [simple_answer] ends: with a text, with one of the two
    errors of the provider ([LLMConfigError], [LLMHTTPError]), or with any
    other exception. *)
Inductive AnswerOutcome : Type :=
| Reply (content : pystr)
| LLMError (msg : pystr)
| AnswerFailed (msg : pystr).

(** What the services use and the sources do not define. *)
Record Runtime : Type := {
  (** [str.lower] *)
  str_lower : pystr -> pystr;
  (** [web_search(q, k=k, provider=provider, **kwargs)] *)
  web_search : pyval -> Z -> pystr -> Payload -> SearchOutcome;
  (** [simple_answer(q, sys_prompt)] *)
  simple_answer : pystr -> pyval -> AnswerOutcome;
}.

End Services.

(** *** [features/f1/service.py] *)

Module F1Service.

Import Services.

(** [it.get("url") or it.get("title")] *)
Definition dedup_key (it : Item) : pystr :=
  match url it with
  | [] => title it
  | c :: r => c :: r
  end.

(** The loop of [_dedup], on the set [seen]. *)
Fixpoint dedup_from (seen : gset pystr) (its : list Item) : list Item :=
  match its with
  | [] => []
  | it :: rest =>
      let key := dedup_key it in
      if negb (bool_decide (key = [])) && bool_decide (key ∈ seen) then
        dedup_from seen rest
      else it :: dedup_from ({[ key ]} ∪ seen) rest
  end.

Definition _dedup (its : list Item) : list Item := dedup_from ∅ its.

Definition _PASSTHROUGH_KEYS : list string :=
  ["scope"; "page"; "includeSummary"; "includeRawContent"; "conciseSnippet"].

(** [{k: slots[k] for k in _PASSTHROUGH_KEYS if k in slots}] *)
Definition passthrough (slots : Payload) : Payload :=
  foldr (fun key acc => copy_key key slots acc) ∅ _PASSTHROUGH_KEYS.

(** The conversion of [kwargs["page"]]. *)
Definition page_to_int (kwargs : Payload) : Payload :=
  match kwargs !! "page" with
  | Some v =>
      <["page" := VInt (match py_int v with Ok n => n | Raise _ => 1%Z end)]> kwargs
  | None => kwargs
  end.

(** [{"error": error} if error else {}] *)
Definition error_key (error : pystr) : option pystr :=
  match error with
  | [] => None
  | c :: r => Some (c :: r)
  end.

(** [run] of the search tool, by the keys the orchestrator reads. *)
Definition run (rt : Runtime) (payload : Payload) : Result ToolOut :=
  let q := py_or (default (VStr []) (payload !! "q")) (VStr []) in
  if negb (truthy q) then
    Ok {| items := []; result := None; text := None; error := Some (u "missing q") |}
  else
    slots ← as_dict (py_or (py_get payload "slots") (VDict ∅));
    provider ← str_method "lower" (str_lower rt)
                 (py_or (py_get slots "provider") (VStr (u "metaso")));
    let kwargs := page_to_int (passthrough slots) in
    match web_search rt q 5 provider kwargs with
    | Found found =>
        Ok {| items := _dedup found; result := None; text := None; error := None |}
    | MetasoError msg =>
        Ok {| items := []; result := None; text := None; error := error_key msg |}
    | SearchFailed msg =>
        Ok {| items := []; result := None; text := None;
              error := error_key (u "f1 error: " ++ msg) |}
    end.

End F1Service.

(** *** [features/llm/service.py] *)

Module LLMService.

Import Services.

Definition SYSTEM_PROMPT : pystr := u "你是一个中文智能助手，请用简洁中文回答。".

(** [run] of the model tool, by the keys the orchestrator reads. *)
Definition run (rt : Runtime) (payload : Payload) : Result ToolOut :=
  q ← str_method "strip" strip (py_or (py_get payload "q") (VStr []));
  match q with
  | [] => Ok {| items := []; result := None; text := None;
                error := Some (u "missing q") |}
  | _ :: _ =>
      let sys_prompt := py_or (py_get payload "system_prompt") (VStr SYSTEM_PROMPT) in
      match simple_answer rt q sys_prompt with
      | Reply content =>
          Ok {| items := [ {| title := u "LLM Answer"; url := []; snippet := content |} ];
                result := None; text := Some content; error := None |}
      | LLMError msg =>
          Ok {| items := []; result := None; text := None; error := Some msg |}
      | AnswerFailed msg =>
          Ok {| items := []; result := None; text := None;
                error := Some (u "llm error: " ++ msg) |}
      end
  end.

End LLMService.

(** The registry with these two tools in it. *)
Definition with_services (rt : Services.Runtime) (t : Tools) : Tools :=
  {| f1_run := F1Service.run rt; llm_run := LLMService.run rt; f2_run := f2_run t;
     f3_run := f3_run t |}.

(** ** The views: [/v1/answer] of [app.py] and [/v1/f1/run] of
    [features/f1/bp.py], from the parsed body of the request on *)

Module Views.

Import Services.

(** The three values the view reads from
    [data = request.get_json(force=True) or {}], in the order of the code. *)
Definition read_q (data : Payload) : Result pystr :=
  str_method "strip" strip
    (py_or (py_get data "q") (py_or (py_get data "question") (VStr []))).

Definition read_k (data : Payload) : Result Z :=
  match data !! "k" with
  | Some v => py_int v
  | None => Ok 5%Z
  end.

Definition read_mode (rt : Runtime) (data : Payload) : Result pystr :=
  str_method "lower" (str_lower rt) (py_or (py_get data "mode") (VStr (u "auto"))).

(** The view [answer] of [app.py]. *)
Definition answer_view (rt : Runtime) (w : World) (st : ProbeState) (body : pyval)
  : ProbeState * HttpReply :=
  let read :=
    data ← as_dict (py_or body (VDict ∅));
    q ← read_q data;
    mode ← read_mode rt data;
    k ← read_k data;
    Ok (data, q, mode, k) in
  match read with
  | Ok (data, q, mode, k) => serve w st q mode k data
  | Raise e => (st, _fallback e)
  end.

(** What the client of a tool route receives. *)
Inductive ToolReply : Type :=
| Tool200 (out : ToolOut)
| Tool400
| Tool500 (detail : exn).

(** The view [run] of [features/f1/bp.py]. *)
Definition f1_view (rt : Runtime) (body : pyval) : ToolReply :=
  let reply :=
    data ← as_dict (py_or body (VDict ∅));
    q ← read_q data;
    match q with
    | [] => Ok Tool400
    | _ :: _ =>
        k ← read_k data;
        out ← F1Service.run rt {[ "q" := VStr q; "k" := VInt k;
                           "slots" := default (VDict ∅) (data !! "slots") ]};
        Ok (Tool200 out)
    end in
  match reply with
  | Ok r => r
  | Raise e => Tool500 e
  end.

End Views.

(** ** The sanitizer of the Python tool: [_sanitize_code] of
    [features/f3/service.py] *)

Module F3Service.

(** The characters at which [str.splitlines] ends a line. *)
Definition is_linebreak (c : N) : bool :=
  ((10 <=? c) && (c <=? 13)) || ((28 <=? c) && (c <=? 30))
  || (c =? 133) || (c =? 8232) || (c =? 8233).

(** [s.splitlines()]; [after_cr] tells whether the previous character was
    a carriage return, which a line feed that follows belongs to. *)
Fixpoint splitlines_from (after_cr : bool) (s : pystr) : list pystr :=
  match s with
  | [] => []
  | c :: r =>
      if after_cr && (c =? 10) then splitlines_from false r
      else if is_linebreak c then [] :: splitlines_from (c =? 13) r
      else
        match splitlines_from false r with
        | line :: lines => (c :: line) :: lines
        | [] => [[c]]
        end
  end.

Definition splitlines (s : pystr) : list pystr := splitlines_from false s.

(** [s.startswith(p)] *)
Definition startswith (p s : pystr) : bool := bool_decide (take (length p) s = p).

(** ["\n".join(lines)] *)
Fixpoint join_lines (lines : list pystr) : pystr :=
  match lines with
  | [] => []
  | [l] => l
  | l :: rest => l ++ 10 :: join_lines rest
  end.

(** The test of the loop: the stripped line begins an import. *)
Definition is_import (line : pystr) : bool :=
  let s := strip line in
  startswith (u "import ") s || startswith (u "from ") s.

Definition _sanitize_code (code : pystr) : pystr :=
  join_lines (List.filter (fun line => negb (is_import line)) (splitlines code)).

End F3Service.

(** ** Notions the statements use *)

(** A float that is a number: it equals itself, which a NaN does not. *)
Definition is_number (x : float) : Prop := (x =? x)%float = true.

(** The place of a number in the order of the floats: the sign class, then
    exponent and mantissa, reversed for the negative numbers. *)
Definition rank (f : spec_float) : Z * Z * Z :=
  match f with
  | S754_nan => (0, 0, 0)
  | S754_zero _ => (0, 0, 0)
  | S754_infinity s => (if s then -2 else 2, 0, 0)
  | S754_finite s m e => if s then (-1, - e, - Zpos m) else (1, e, Zpos m)
  end%Z.

Definition lex_lt (a b : Z * Z * Z) : Prop :=
  let '(a1, a2, a3) := a in
  let '(b1, b2, b3) := b in
  (a1 < b1 \/ (a1 = b1 /\ (a2 < b2 \/ (a2 = b2 /\ a3 < b3))))%Z.

(** The whitespace characters, one by one. *)
Definition SPACES : list N :=
  [9; 10; 11; 12; 13; 28; 29; 30; 31; 32; 133; 160; 5760; 8192; 8193; 8194; 8195;
   8196; 8197; 8198; 8199; 8200; 8201; 8202; 8232; 8233; 8239; 8287; 12288].

(** The characters a literal [c] matches under [re.IGNORECASE]. *)
Definition variants (c : N) : list N :=
  let y := fold_case c in
  y :: (if (97 <=? y) && (y <=? 122) then [y - 32] else [])
    ++ (if y =? 105 then [304; 305] else [])
    ++ (if y =? 115 then [383] else [])
    ++ (if y =? 107 then [8490] else []).

(** The characters of a class item, for the items that have finitely many. *)
Definition item_points (i : citem) : option (list N) :=
  match i with
  | IChar c => Some [c]
  | ISpace => Some SPACES
  | _ => None
  end.

Definition memb (x : N) (l : list N) : bool := existsb (N.eqb x) l.

(** Every character of a match of [r] under [re.IGNORECASE] is in [L]. *)
Fixpoint insideb (L : list N) (r : regex) : bool :=
  match r with
  | Fail | Eps => true
  | Chr c => forallb (fun x => memb x L) (variants c)
  | Dot => false
  | Set_ n its =>
      negb n && forallb (fun i => match item_points i with
                                  | Some ps => forallb (fun x => memb x L) ps
                                  | None => false
                                  end) its
  | Cat a b | Alt a b => insideb L a && insideb L b
  | Star a => insideb L a
  end.

(** No word over the characters of [L] matches [r]. *)
Fixpoint escapesb (L : list N) (r : regex) : bool :=
  match r with
  | Fail => true
  | Eps | Star _ => false
  | Chr c => negb (memb c L)
  | Dot => forallb (N.eqb 10) L
  | Set_ n its => forallb (fun x => negb (set_match n its x)) L
  | Cat a b => escapesb L a || escapesb L b
  | Alt a b => escapesb L a && escapesb L b
  end.

(** The characters a greeting may contain, whitespace included. *)
Definition GREET_ALPHABET : list N :=
  SPACES ++ flat_map variants
    (u "你好您好哈喽嗨hihellohey早上好中午好下午好晚上好！!。.").

(** No value recorded in the context shows an opening brace. *)
Definition brace_free (c : gmap pystr CtxEntry) : Prop :=
  forall (sid : pystr) e, c !! sid = Some e ->
    ~ In 123 (py_str (ans e)) /\ ~ In 123 (py_str (ctx_text e)).

(** Text in which no token starts, whatever follows it: every opening brace
    is followed at once by a closing one. *)
Fixpoint no_token_start (s : pystr) : bool :=
  match s with
  | [] => true
  | c :: r =>
      if c =? 123 then
        match r with
        | d :: _ => (d =? 125) && no_token_start r
        | [] => false
        end
      else no_token_start r
  end.

(** ** Further notions *)

(** The slots a decision for the tool [t] carries. *)
Definition slots_for (q t : pystr) : gmap string pystr :=
  if eqb t (u "f1") then _extract_slots q else ∅.

(** The shape of every decision: a known target, a confidence that does not
    compare below 0.6, the slots of its target. *)
Definition shaped (q : pystr) (d : Decision) : Prop :=
  In (target d) TOOLS /\ (confidence d <? 0.6)%float = false
  /\ slots d = slots_for q (target d).

(** A plan as the router builds it: every step has an identifier and a
    known tool. *)
Definition known_plan (p : list PlanStep) : Prop :=
  Forall (fun s => In (step_tool s) TOOLS /\ exists c r, step_id s = Some (c :: r)) p.

(** Whether the probe [route] makes finds the knowledge base ready with a
    score at or above the threshold. *)
Definition strong_kb (env : Env) (st : ProbeState) (q : pystr) : bool :=
  let '(kb_ready, kb_score) := snd (_kb_probe env st q None) in
  kb_ready && (default 0.35%float (KB_ROUTE_THRESHOLD env) <=? kb_score)%float.

(** The target of the suggestion [route] reconciles with the rules: that of
    a suggestion whose confidence does not compare below 0.6. *)
Definition confident_target (env : Env) (q : pystr) : option pystr :=
  match _llm_route env q with
  | Some sug =>
      match suggested sug with
      | Ok (tgt, conf, _, _) => if (conf <? 0.6)%float then None else Some tgt
      | Raise _ => None
      end
  | None => None
  end.

(** The confidences of the segments of a suggestion are numbers. *)
Definition numeric (sug : Suggestion) : Prop :=
  match sug with
  | Multi segs _ _ => Forall (fun s => is_number (seg_confidence s)) segs
  | Single _ _ _ => True
  end.

(** The same of the suggestion made for a query, if there is one. *)
Definition numeric_reply (env : Env) (q : pystr) : Prop :=
  match _llm_route env q with
  | Some sug => numeric sug
  | None => True
  end.

(** The cache and the counter of constructed indexes agree: an index is
    cached together with the knowledge base it was built for, and it is
    one of the indexes constructed so far. *)
Definition cache_consistent (st : ProbeState) : Prop :=
  match idx (cache st) with
  | None => True
  | Some i => kb_id (cache st) = Some (kb_dir i) /\ (obj_id i < constructed st)%nat
  end.

(** The words of [TIME_WORDS]. *)
Definition TIME_WORD_LIST : list pystr :=
  map u ["今天"; "明天"; "后天"; "现在"; "本周"; "本月"].

(** A character of the class [[一-龥]]. *)
Definition is_han (c : N) : Prop := ch "一" <= c <= ch "龥".

(** The knowledge base [_kb_probe] looks at: the one asked for, else the
    one of the environment, else ["default"]. *)
Definition probed_kb (env : Env) (kb : option pystr) : pystr :=
  match kb with
  | Some (c :: k) => c :: k
  | _ => default (u "default") (KB_ROUTE_KB_ID env)
  end.

(** The tool a raw segment names, in lower case. *)
Definition raw_tool_name (s : RawSegment) : pystr := lower (default [] (raw_tool s)).

(** The context entry a step record gives rise to. *)
Definition entry_of (r : StepRecord) : CtxEntry :=
  {| ans := result (rec_output r); ctx_text := text (rec_output r) |}.

(** The last record of a trace that carries the identifier [sid]. *)
Definition last_record (sid : pystr) (trace : list StepRecord) : option StepRecord :=
  List.find (fun r => eqb (rec_id r) sid) (rev trace).

(** The context maps each identifier to the entry of its last record. *)
Definition ctx_of_trace (ls : LoopState) : Prop :=
  forall sid, ctx ls !! sid = entry_of <$> last_record sid (steps_out ls).

(** ** Notions for the splitter and the tools *)

(** The characters of a string that are not whitespace. *)
Definition visible (s : pystr) : pystr :=
  List.filter (fun c => negb (is_space c)) s.

(** A piece of text with at most one sentence end, at its end. *)
Definition one_sentence (s : pystr) : Prop :=
  Forall (fun c => Loader.is_end c = false) (removelast s).

(** The keys [_dedup] compares: those that are not empty. *)
Definition true_keys (its : list Item) : list pystr :=
  List.filter (fun k => negb (bool_decide (k = []))) (map F1Service.dedup_key its).

(** A piece of text that is empty or ends with a character that is not
    whitespace. *)
Definition closed (s : pystr) : Prop :=
  s = [] \/ exists c, last s = Some c /\ is_space c = false.

(** A chunk as [split_text] returns it: it begins and ends with characters
    that are not whitespace, and it is within the limit or one sentence. *)
Definition chunk_ok (m : Z) (c : pystr) : Prop :=
  (exists a b, head c = Some a /\ last c = Some b
               /\ is_space a = false /\ is_space b = false)
  /\ ((Z.of_nat (length c) <= m)%Z \/ one_sentence c).

(** What the loop of [split_text] keeps true of [buf]. *)
Definition buf_ok (m : Z) (b : pystr) : Prop :=
  closed b /\ ((Z.of_nat (length b) <= m)%Z \/ one_sentence b).

(** ** Sample worlds *)

Module Sample.

(** A world without knowledge base, where the model replies [r]. *)
Definition reply_env (r : option RawObject) : Env :=
  {| _KB_AVAILABLE := false; _LLM_AVAILABLE := true;
     KB_ROUTE_KB_ID := None; KB_ROUTE_THRESHOLD := None;
     meta_mtime := fun _ => None; index_mtime := fun _ => None;
     load_returns := fun _ => true; query_top1 := fun _ _ => None;
     llm_reply := fun _ => r |}.

(** A world with the index of the knowledge base ["default"] on disk. *)
Definition kb_env (loads : bool) (t_meta t_index : float) : Env :=
  {| _KB_AVAILABLE := true; _LLM_AVAILABLE := false;
     KB_ROUTE_KB_ID := None; KB_ROUTE_THRESHOLD := None;
     meta_mtime := fun kb => if eqb kb (u "default") then Some t_meta else None;
     index_mtime := fun kb => if eqb kb (u "default") then Some t_index else None;
     load_returns := fun _ => loads;
     query_top1 := fun _ _ => Some (Some 0.5%float);
     llm_reply := fun _ => None |}.

(** The state of a process that has not probed yet. *)
Definition cold : ProbeState := {| cache := _KB_CACHE; constructed := 0 |}.

Definition seg (i q tool : string) (c : float) (needs : bool) (tmpl : string)
  : RawSegment :=
  {| raw_id := Some (u i); raw_q := Some (u q); raw_tool := Some (u tool);
     raw_confidence := Some c; raw_reasons := None;
     raw_needs_context := Some needs; raw_q_template := Some (u tmpl) |}.

Definition multi_reply (segs : list RawSegment) : RawObject :=
  {| obj_mode := Some (u "multi"); obj_segments := Some segs;
     obj_target := None; obj_confidence := None; obj_reasons := None;
     obj_reasons_str := None |}.

Definition single_reply (tool : string) (c : float) : RawObject :=
  {| obj_mode := Some (u "single"); obj_segments := None;
     obj_target := Some (u tool); obj_confidence := Some c; obj_reasons := None;
     obj_reasons_str := None |}.

(** A reply whose only segment names a tool that does not exist. *)
Definition no_segment_kept : RawObject :=
  multi_reply [ seg "s1" "讲个笑话" "browser" 0.9 false "" ].

Definition weather_then_line : RawObject :=
  multi_reply [ seg "s1" "上海天气" "f1" 0.9 false "";
                seg "s2" "写一句话" "llm" 0.95 true "根据{s1.text}写一句话" ].

Definition two_searches : RawObject :=
  multi_reply [ seg "s1" "北京天气" "f1" 0.9 false "";
                seg "s2" "上海天气" "f1" 0.8 false "" ].

Definition kb_only : RawObject :=
  multi_reply [ seg "s1" "报销制度" "f2" 0.9 false "" ].

Definition joke_then_quotes : RawObject :=
  multi_reply [ seg "s1" "讲个笑话" "llm" 0.9 false "";
                seg "s2" "行情" "f1" 0.7 false "" ].

Definition segment (i q tool : string) (c : float) : Segment :=
  {| seg_id := u i; seg_q := u q; seg_tool := u tool; seg_confidence := c;
     seg_reasons := []; seg_needs_context := false; seg_q_template := [] |}.

(** Three segments, the last two of the same, highest confidence. *)
Definition tied_segments : list Segment :=
  [ segment "s1" "上海天气" "f1" 0.9; segment "s2" "写一句话" "llm" 0.95;
    segment "s3" "讲个笑话" "llm" 0.95 ].

(** A handler that raises. *)
Definition failing : Handler :=
  fun _ => Raise (ToolError (u "embedding service unreachable")).

(** A handler that answers with one item quoting the query it received. *)
Definition quoting (name : string) : Handler := fun p =>
  let q := match p !! "q" with Some (VStr s) => s | _ => [] end in
  Ok {| items := [ {| title := u name; url := []; snippet := q |} ];
        result := None; text := Some (u name ++ u ":" ++ q); error := None |}.

Definition world (r : RawObject) (f1 llm f2 f3 : Handler) : World :=
  {| router_env := reply_env (Some r);
     tools := {| f1_run := f1; llm_run := llm; f2_run := f2; f3_run := f3 |};
     rewrite_reply := fun _ _ => None;
     json_ok := fun _ _ => true |}.

(** A context in which the answer of one step quotes a placeholder. *)
Definition chained_ctx : gmap pystr CtxEntry :=
  <[u "s1" := {| ans := Some (u "{s2.ans}"); ctx_text := None |}]>
  (<[u "s2" := {| ans := Some (u "42"); ctx_text := Some (u "forty-two") |}]> ∅).

Definition plain_ctx : gmap pystr CtxEntry :=
  <[u "s1" := {| ans := Some (u "42"); ctx_text := Some (u "forty-two") |}]> ∅.

(** A decomposition the model is not sure of. *)
Definition hesitant : RawObject :=
  multi_reply [ seg "s1" "讲个笑话" "llm" 0.3 false "";
                seg "s2" "上海天气" "f1" 0.5 false "" ].

Definition search_then_set : RawObject :=
  multi_reply [ seg "s1" "北京天气" "f1" 0.9 false "";
                seg "s2" "set([1, 2, 3])" "f3" 0.8 false "" ].

(** The Python tool when the code leaves a set in [ans]: the result reads
    [{1, 2, 3}], and the set itself is what the dictionary holds. *)
Definition set_valued : Handler := fun _ =>
  Ok {| items := [ {| title := u "Python 计算结果"; url := [];
                      snippet := u "{1, 2, 3}" |} ];
        result := Some (u "{1, 2, 3}"); text := None; error := None |}.

(** A world in which the Python tool returns a set, which [jsonify]
    refuses. *)
Definition set_world (r : RawObject) : World :=
  {| router_env := reply_env (Some r);
     tools := {| f1_run := quoting "f1"; llm_run := quoting "llm";
                 f2_run := failing; f3_run := set_valued |};
     rewrite_reply := fun _ _ => None;
     json_ok := fun tool _ => negb (eqb tool (u "f3")) |}.

End Sample.

(** ** Further sample worlds *)

Module Sample2.

Import Sample.

Definition step (i q tool : string) (needs : bool) (tmpl : string) : PlanStep :=
  {| step_id := Some (u i); step_q := u q; step_tool := u tool;
     step_confidence := 0.9; step_reasons := []; step_needs_context := needs;
     step_q_template := u tmpl |}.

(** A step whose template names a step that has not run. *)
Definition templated : PlanStep :=
  step "s1" "写一句话" "llm" true "根据{s0.text}写一句话".

(** A world whose tools quote their query. *)
Definition quoting_world : World :=
  world weather_then_line (quoting "f1") (quoting "llm") (quoting "f2") (quoting "f3").

(** A runtime in which the search finds two pages and the model answers
    with one sentence. *)
Definition plain_runtime : Services.Runtime :=
  {| Services.str_lower := lower;
     Services.web_search := fun _ _ _ _ =>
       Services.Found [ {| title := u "上海天气"; url := u "https://example.org/sh";
                           snippet := u "多云" |};
                        {| title := u "上海天气预报"; url := u "https://example.org/sh";
                           snippet := u "转晴" |} ];
     Services.simple_answer := fun _ _ => Services.Reply (u "今天多云。") |}.

(** The world of [plain_runtime], in which the model suggests nothing. *)
Definition plain_world : World :=
  {| router_env := reply_env None;
     tools := with_services plain_runtime
                {| f1_run := failing; llm_run := failing; f2_run := failing;
                   f3_run := failing |};
     rewrite_reply := fun _ _ => None;
     json_ok := fun _ _ => true |}.

(** The world of [kb_env] when the index loads and the query on it
    raises. *)
Definition silent_env : Env :=
  {| _KB_AVAILABLE := true; _LLM_AVAILABLE := false;
     KB_ROUTE_KB_ID := None; KB_ROUTE_THRESHOLD := None;
     meta_mtime := meta_mtime (kb_env true 10.0 20.0);
     index_mtime := index_mtime (kb_env true 10.0 20.0);
     load_returns := fun _ => true;
     query_top1 := fun _ _ => None;
     llm_reply := fun _ => None |}.

(** A piece of code, line by line. *)
Definition code_of (lines : list string) : pystr :=
  F3Service.join_lines (map u lines).

End Sample2.

(** * Properties *)

(** ** The matcher decides the words of a pattern *)

Module ReFacts.

Section Semantics.
Variable ic : bool.

Lemma nullable_matches r : nullable r = true <-> matches ic r [].
Proof.
  split.
  - induction r; simpl; try discriminate; intros H.
    + constructor.
    + apply andb_true_iff in H as [H1 H2].
      change (@nil N) with (@nil N ++ []). constructor; auto.
    + apply orb_true_iff in H as [H|H]; [apply MAltL|apply MAltR]; auto.
    + constructor.
  - intros H. remember [] as s eqn:Es. 
    induction H; simpl; try discriminate; auto.
    + apply app_eq_nil in Es as [-> ->]. rewrite IHmatches1, IHmatches2; auto.
    + rewrite IHmatches; auto.
    + rewrite IHmatches, orb_true_r; auto.
Qed.

Lemma matches_cat_inv a b s :
  matches ic (Cat a b) s ->
  exists s1 s2, s = s1 ++ s2 /\ matches ic a s1 /\ matches ic b s2.
Proof. inversion 1; subst; eauto. Qed.

Lemma matches_alt_inv a b s :
  matches ic (Alt a b) s -> matches ic a s \/ matches ic b s.
Proof. inversion 1; subst; auto. Qed.

Lemma matches_eps_inv s : matches ic Eps s -> s = [].
Proof. inversion 1; auto. Qed.

Lemma matches_fail_inv s : ~ matches ic Fail s.
Proof. inversion 1. Qed.

Lemma matches_chr_inv c s :
  matches ic (Chr c) s -> exists x, s = [x] /\ chr_match ic c x = true.
Proof. inversion 1; subst; eauto. Qed.

Lemma matches_dot_inv s : matches ic Dot s -> exists x, s = [x] /\ x <> 10.
Proof. inversion 1; subst; eauto. Qed.

Lemma matches_set_inv neg its s :
  matches ic (Set_ neg its) s -> exists x, s = [x] /\ set_match neg its x = true.
Proof. inversion 1; subst; eauto. Qed.

Lemma matches_cat_cons a b x s1 s2 :
  matches ic a (x :: s1) -> matches ic b s2 -> matches ic (Cat a b) (x :: s1 ++ s2).
Proof. intros Ha Hb. apply (MCat ic a b (x :: s1) s2 Ha Hb). Qed.

Lemma star_cons a x s :
  matches ic (Star a) (x :: s) ->
  exists s1 s2, s = s1 ++ s2 /\ matches ic a (x :: s1) /\ matches ic (Star a) s2.
Proof.
  intros H. remember (Star a) as r eqn:Er. remember (x :: s) as t eqn:Et.
  revert s Et.
  induction H as [| | | | | | | |a' s1 s2 H1 _ H2 IH2]; try discriminate; intros s' Et.
  injection Er as ->.
  destruct s1 as [|y s1]; simpl in Et.
  - apply IH2; auto.
  - injection Et as -> <-. exists s1, s2. auto.
Qed.

Lemma deriv_matches r x s : matches ic (deriv ic x r) s <-> matches ic r (x :: s).
Proof.
  revert s.
  induction r as [| |c| |neg its|r1 IHr1 r2 IHr2|r1 IHr1 r2 IHr2|r IHr];
    intros s; simpl.
  - split; intros H; destruct (matches_fail_inv _ H).
  - split; intros H; [destruct (matches_fail_inv _ H)|].
    apply matches_eps_inv in H; discriminate.
  - destruct (chr_match ic c x) eqn:E; split; intros H.
    + apply matches_eps_inv in H as ->. constructor; auto.
    + apply matches_chr_inv in H as (y & [= <- ->] & _). constructor.
    + destruct (matches_fail_inv _ H).
    + apply matches_chr_inv in H as (y & [= <- ->] & H). congruence.
  - destruct (x =? 10) eqn:E; split; intros H.
    + destruct (matches_fail_inv _ H).
    + apply matches_dot_inv in H as (y & [= <- ->] & H). apply N.eqb_eq in E. congruence.
    + apply matches_eps_inv in H as ->. constructor. apply N.eqb_neq in E; auto.
    + apply matches_dot_inv in H as (y & [= <- ->] & _). constructor.
  - destruct (set_match neg its x) eqn:E; split; intros H.
    + apply matches_eps_inv in H as ->. constructor; auto.
    + apply matches_set_inv in H as (y & [= <- ->] & _). constructor.
    + destruct (matches_fail_inv _ H).
    + apply matches_set_inv in H as (y & [= <- ->] & H). congruence.
  - assert (Hcat : matches ic (Cat (deriv ic x r1) r2) s ->
                   matches ic (Cat r1 r2) (x :: s)).
    { intros H. apply matches_cat_inv in H as (s1 & s2 & -> & H1 & H2).
      apply IHr1 in H1. apply matches_cat_cons; auto. }
    assert (Hinv : matches ic (Cat r1 r2) (x :: s) ->
                   matches ic (Cat (deriv ic x r1) r2) s
                   \/ (matches ic r1 [] /\ matches ic r2 (x :: s))).
    { intros H. apply matches_cat_inv in H as (s1 & s2 & E & H1 & H2).
      destruct s1 as [|y s1]; simpl in E.
      - right; subst; auto.
      - injection E as <- ->. left. constructor; auto. apply IHr1; auto. }
    destruct (nullable r1) eqn:En; split; intros H.
    + apply matches_alt_inv in H as [H|H]; auto.
      apply IHr2 in H. apply nullable_matches in En.
      apply (MCat ic r1 r2 [] (x :: s) En H).
    + destruct (Hinv H) as [H'|[_ H']]; [apply MAltL|apply MAltR]; auto.
      apply IHr2; auto.
    + auto.
    + destruct (Hinv H) as [H'|[H' _]]; auto.
      apply nullable_matches in H'. congruence.
  - split; intros H; apply matches_alt_inv in H as [H|H].
    + apply MAltL, IHr1; auto.
    + apply MAltR, IHr2; auto.
    + apply MAltL, IHr1; auto.
    + apply MAltR, IHr2; auto.
  - split; intros H.
    + apply matches_cat_inv in H as (s1 & s2 & -> & H1 & H2).
      apply IHr in H1. apply (MStarS ic r (x :: s1) s2 H1 H2).
    + apply star_cons in H as (s1 & s2 & -> & H1 & H2).
      constructor; auto. apply IHr; auto.
Qed.

Lemma accepts_matches r s : accepts ic r s = true <-> matches ic r s.
Proof.
  revert r. induction s as [|x s IH]; intros r; simpl.
  - apply nullable_matches.
  - rewrite IH. apply deriv_matches.
Qed.

Lemma prefix_match_spec r s :
  prefix_match ic r s = true <-> exists s1 s2, s = s1 ++ s2 /\ matches ic r s1.
Proof.
  revert r. induction s as [|x s IH]; intros r; simpl.
  - rewrite orb_false_r, nullable_matches. split.
    + intros H; exists [], []; auto.
    + intros (s1 & s2 & E & H). symmetry in E. apply app_eq_nil in E as [-> _]; auto.
  - rewrite orb_true_iff, IH, nullable_matches. split.
    + intros [H|(s1 & s2 & -> & H)].
      * exists [], (x :: s); auto.
      * exists (x :: s1), s2. split; auto. apply deriv_matches; auto.
    + intros (s1 & s2 & E & H). destruct s1 as [|y s1]; auto.
      simpl in E. injection E as <- ->. right. exists s1, s2. split; auto.
      apply deriv_matches; auto.
Qed.

End Semantics.

Lemma search_spec r s :
  search r s = true <-> exists pre m post, s = pre ++ m ++ post /\ matches false r m.
Proof.
  induction s as [|x s IH].
  - change (search r []) with (prefix_match false r [] || false).
    rewrite orb_false_r, prefix_match_spec. split.
    + intros (s1 & s2 & E & H). exists [], s1, s2; auto.
    + intros (pre & m & post & E & H). symmetry in E.
      apply app_eq_nil in E as [-> E]. apply app_eq_nil in E as [-> ->].
      exists [], []; auto.
  - change (search r (x :: s)) with (prefix_match false r (x :: s) || search r s).
    rewrite orb_true_iff, IH, prefix_match_spec. split.
    + intros [(s1 & s2 & E & H)|(pre & m & post & -> & H)].
      * exists [], s1, s2; auto.
      * exists (x :: pre), m, post; auto.
    + intros (pre & m & post & E & H). destruct pre as [|y pre].
      * left. exists m, post; auto.
      * simpl in E. injection E as <- ->. right. exists pre, m, post; auto.
Qed.

Lemma matches_lit w s : matches false (lit w) s <-> s = w.
Proof.
  revert s. induction w as [|c w IH]; intros s; simpl.
  - split; [apply matches_eps_inv | intros ->; constructor].
  - split.
    + intros H. apply matches_cat_inv in H as (s1 & s2 & -> & H1 & H2).
      apply matches_chr_inv in H1 as (x & -> & H1).
      apply IH in H2 as ->. simpl in H1. apply N.eqb_eq in H1 as ->. reflexivity.
    + intros ->. apply (MCat false (Chr c) (lit w) [c] w).
      * constructor. simpl. apply N.eqb_refl.
      * apply IH; auto.
Qed.

Lemma matches_alts ic rs s :
  matches ic (alts rs) s <-> exists r, In r rs /\ matches ic r s.
Proof.
  induction rs as [|r rs IH]; simpl.
  - split; [intros H; destruct (matches_fail_inv _ _ H) | intros (r & [] & _)].
  - split.
    + intros H; apply matches_alt_inv in H as [H|H].
      * exists r; auto.
      * apply IH in H as (r' & Hin & Hm). exists r'; auto.
    + intros (r' & [<-|Hin] & Hm); [apply MAltL|apply MAltR]; auto.
      apply IH. exists r'; auto.
Qed.

Lemma matches_words ws s :
  matches false (words ws) s <-> exists w, In w ws /\ s = u w.
Proof.
  unfold words. rewrite matches_alts. split.
  - intros (r & Hin & Hm). apply in_map_iff in Hin as (w & <- & Hin).
    apply matches_lit in Hm. exists w; auto.
  - intros (w & Hin & ->). exists (lit (u w)). split.
    + apply in_map_iff. exists w; auto.
    + apply matches_lit; auto.
Qed.

(** A query that contains one of the words matches their alternation. *)
Lemma search_words ws w pre post :
  In w ws -> search (words ws) (pre ++ u w ++ post) = true.
Proof.
  intros Hin. apply search_spec. exists pre, (u w), post. split; auto.
  apply matches_words. exists w; auto.
Qed.

End ReFacts.
Import ReFacts.

(** ** The order of the floats *)

Module FloatOrder.

Lemma SFltb_rank a b :
  a <> S754_nan -> b <> S754_nan -> (SFltb a b = true <-> lex_lt (rank a) (rank b)).
Proof.
  intros Ha Hb. unfold SFltb.
  destruct a as [sa|sa| |sa ma ea], b as [sb|sb| |sb mb eb]; try congruence;
    simpl; try destruct sa; try destruct sb; simpl;
    try change (Pos.compare_cont Eq ma mb) with (Pos.compare ma mb);
    try destruct (Z.compare_spec ea eb); try destruct (Pos.compare_spec ma mb);
    simpl; split; intros H'; try discriminate; try reflexivity; try lia.
Qed.

Lemma is_number_not_nan x : is_number x -> Prim2SF x <> S754_nan.
Proof.
  unfold is_number. rewrite FloatAxioms.eqb_spec. intros H E. rewrite E in H. discriminate.
Qed.

Lemma ltb_rank a b :
  is_number a -> is_number b ->
  ((a <? b)%float = true <-> lex_lt (rank (Prim2SF a)) (rank (Prim2SF b))).
Proof.
  intros Ha Hb. rewrite FloatAxioms.ltb_spec.
  apply SFltb_rank; apply is_number_not_nan; auto.
Qed.

Lemma ltb_irrefl a : (a <? a)%float = false.
Proof.
  rewrite FloatAxioms.ltb_spec. unfold SFltb.
  destruct (Prim2SF a) as [s|s| |s m e]; simpl; auto; destruct s; auto;
    rewrite Z.compare_refl; change (Pos.compare_cont Eq m m) with (Pos.compare m m); rewrite Pos.compare_refl; auto.
Qed.

Lemma ltb_asym a b : (a <? b)%float = true -> (b <? a)%float = false.
Proof.
  intros H. destruct (b <? a)%float eqn:E; auto.
  assert (Ha : is_number a).
  { unfold is_number. rewrite FloatAxioms.eqb_spec. rewrite FloatAxioms.ltb_spec in H. unfold SFltb, SFeqb in *.
    destruct (Prim2SF a) as [s|s| |s m e], (Prim2SF b); simpl in *; try discriminate; auto;
      destruct s; auto; rewrite ?Z.compare_refl; try change (Pos.compare_cont Eq m m) with (Pos.compare m m); rewrite ?Pos.compare_refl; auto. }
  assert (Hb : is_number b).
  { unfold is_number. rewrite FloatAxioms.eqb_spec. rewrite FloatAxioms.ltb_spec in E. unfold SFltb, SFeqb in *.
    destruct (Prim2SF b) as [s|s| |s m e], (Prim2SF a); simpl in *; try discriminate; auto;
      destruct s; auto; rewrite ?Z.compare_refl; try change (Pos.compare_cont Eq m m) with (Pos.compare m m); rewrite ?Pos.compare_refl; auto. }
  apply ltb_rank in H; auto. apply ltb_rank in E; auto.
  unfold lex_lt in *. destruct (rank (Prim2SF a)) as [[? ?] ?], (rank (Prim2SF b)) as [[? ?] ?]. lia.
Qed.

Lemma ltb_neg_trans a b c :
  is_number a -> is_number b -> is_number c ->
  (a <? b)%float = false -> (b <? c)%float = false -> (a <? c)%float = false.
Proof.
  intros Ha Hb Hc H1 H2. destruct (a <? c)%float eqn:E; auto.
  apply ltb_rank in E; auto.
  assert (N1 : ~ lex_lt (rank (Prim2SF a)) (rank (Prim2SF b))).
  { intros L. apply ltb_rank in L; auto. congruence. }
  assert (N2 : ~ lex_lt (rank (Prim2SF b)) (rank (Prim2SF c))).
  { intros L. apply ltb_rank in L; auto. congruence. }
  unfold lex_lt in *.
  destruct (rank (Prim2SF a)) as [[? ?] ?], (rank (Prim2SF b)) as [[? ?] ?],
    (rank (Prim2SF c)) as [[? ?] ?]. lia.
Qed.

End FloatOrder.
Import FloatOrder.

(** ** A greeting carries no math signal *)

Module GreetFacts.

Lemma memb_In x l : memb x l = true <-> In x l.
Proof.
  unfold memb. rewrite existsb_exists. split.
  - intros (y & Hy & E). apply N.eqb_eq in E. subst; auto.
  - intros H. exists x. split; auto. apply N.eqb_refl.
Qed.

Lemma is_space_points x : is_space x = true -> In x SPACES.
Proof.
  unfold is_space. rewrite !orb_true_iff, !andb_true_iff, !N.leb_le, !N.eqb_eq.
  intros H. apply memb_In.
  assert (C : x = 9 \/ x = 10 \/ x = 11 \/ x = 12 \/ x = 13 \/ x = 28 \/ x = 29 \/ x = 30
              \/ x = 31 \/ x = 32 \/ x = 133 \/ x = 160 \/ x = 5760
              \/ (8192 <= x <= 8202) \/ x = 8232 \/ x = 8233 \/ x = 8239 \/ x = 8287
              \/ x = 12288) by lia.
  assert (D : 8192 <= x <= 8202 ->
              x = 8192 \/ x = 8193 \/ x = 8194 \/ x = 8195 \/ x = 8196 \/ x = 8197
              \/ x = 8198 \/ x = 8199 \/ x = 8200 \/ x = 8201 \/ x = 8202) by lia.
  repeat (destruct C as [->|C]; [reflexivity|]).
  destruct C as [C|C].
  - apply D in C. repeat (destruct C as [->|C]; [reflexivity|]). subst; reflexivity.
  - repeat (destruct C as [->|C]; [reflexivity|]). subst; reflexivity.
Qed.

Lemma chr_match_variants c x : chr_match true c x = true -> In x (variants c).
Proof.
  unfold chr_match, variants. intros H. apply N.eqb_eq in H.
  set (y := fold_case c) in *. clearbody y. clear c.
  unfold fold_case in H.
  destruct ((65 <=? x) && (x <=? 90)) eqn:E1.
  { apply andb_true_iff in E1 as [A B]. apply N.leb_le in A, B.
    right. replace ((97 <=? y) && (y <=? 122)) with true.
    - left. lia.
    - symmetry. apply andb_true_iff. split; apply N.leb_le; lia. }
  destruct ((x =? 304) || (x =? 305)) eqn:E2.
  { subst y. simpl. apply orb_true_iff in E2 as [E|E]; apply N.eqb_eq in E; subst; simpl; auto. }
  destruct (x =? 383) eqn:E3.
  { subst y. apply N.eqb_eq in E3; subst; simpl; auto. }
  destruct (x =? 8490) eqn:E4.
  { subst y. apply N.eqb_eq in E4; subst; simpl; auto. }
  left. auto.
Qed.

Lemma insideb_sound L r s :
  insideb L r = true -> matches true r s -> Forall (fun x => In x L) s.
Proof.
  intros Hi Hm. induction Hm as [|c x Hx|x Hx|n its x Hx|a b s1 s2 _ IH1 _ IH2
                                 |a b s _ IH|a b s _ IH| |a s1 s2 _ IH1 _ IH2];
    cbn [insideb] in Hi.
  - constructor.
  - constructor; [|constructor]. apply chr_match_variants in Hx.
    rewrite forallb_forall in Hi. apply memb_In, Hi; auto.
  - discriminate.
  - constructor; [|constructor].
    apply andb_true_iff in Hi as [Hn Hi]. apply negb_true_iff in Hn. subst n.
    unfold set_match in Hx. simpl in Hx. apply existsb_exists in Hx as (i & Hin & Hx).
    rewrite forallb_forall in Hi. specialize (Hi i Hin).
    destruct i as [c|lo hi| |]; cbn [item_points item_match] in Hi, Hx;
      try discriminate; rewrite forallb_forall in Hi; apply memb_In, Hi.
    + apply N.eqb_eq in Hx. subst; left; reflexivity.
    + apply is_space_points; auto.
  - apply andb_true_iff in Hi as [H1 H2]. apply Forall_app; auto.
  - apply andb_true_iff in Hi as [H1 H2]. auto.
  - apply andb_true_iff in Hi as [H1 H2]. auto.
  - constructor.
  - apply Forall_app; auto.
Qed.

Lemma escapesb_sound L r s :
  escapesb L r = true -> matches false r s -> ~ Forall (fun x => In x L) s.
Proof.
  intros He Hm. induction Hm as [|c x Hx|x Hx|n its x Hx|a b s1 s2 _ IH1 _ IH2
                                 |a b s _ IH|a b s _ IH| |a s1 s2 _ IH1 _ IH2];
    cbn [escapesb] in He; try discriminate; intros HF.
  - apply Forall_inv in HF. simpl in Hx. apply N.eqb_eq in Hx. subst x.
    apply memb_In in HF. rewrite HF in He. discriminate.
  - apply Forall_inv in HF. rewrite forallb_forall in He.
    specialize (He x HF). apply N.eqb_eq in He. congruence.
  - apply Forall_inv in HF. rewrite forallb_forall in He.
    specialize (He x HF). rewrite Hx in He. discriminate.
  - apply Forall_app in HF as [F1 F2].
    apply orb_true_iff in He as [He|He]; [apply IH1|apply IH2]; auto.
  - apply andb_true_iff in He as [H1 H2]. apply IH; auto.
  - apply andb_true_iff in He as [H1 H2]. apply IH; auto.
Qed.

Lemma lstrip_spec s : exists ws, s = ws ++ lstrip s /\ Forall (fun x => is_space x = true) ws.
Proof.
  induction s as [|c s (ws & E & F)]; simpl.
  - exists []; auto.
  - destruct (is_space c) eqn:Ec.
    + exists (c :: ws). split; [simpl; congruence | constructor; auto].
    + exists []; auto.
Qed.

Lemma strip_spec s :
  exists l r, s = l ++ strip s ++ r
              /\ Forall (fun x => is_space x = true) l
              /\ Forall (fun x => is_space x = true) r.
Proof.
  unfold strip.
  destruct (lstrip_spec s) as (l & El & Fl).
  destruct (lstrip_spec (rev (lstrip s))) as (r & Er & Fr).
  exists l, (rev r). split; [|split]; auto.
  - rewrite El at 1. f_equal.
    apply (f_equal (@rev N)) in Er.
    rewrite rev_involutive, rev_app_distr in Er. exact Er.
  - apply Forall_rev; auto.
Qed.

Lemma greeting_alphabet q :
  _is_greet q = true -> Forall (fun x => In x GREET_ALPHABET) q.
Proof.
  unfold _is_greet, match_to_end. intros H.
  assert (HI : insideb GREET_ALPHABET GREET_HINT = true) by (vm_compute; reflexivity).
  assert (HS : Forall (fun x => In x GREET_ALPHABET) (strip q)).
  { apply orb_true_iff in H as [H|H].
    - apply accepts_matches in H. apply (insideb_sound _ _ _ HI H).
    - destruct (rev (strip q)) as [|c t] eqn:Er;
        [exfalso; exact (diff_false_true H)|].
      apply andb_true_iff in H as [Hc H]. apply N.eqb_eq in Hc. subst c.
      apply accepts_matches in H. apply (insideb_sound _ _ _ HI) in H.
      rewrite <- (rev_involutive (strip q)), Er. simpl.
      assert (H10 : In 10 GREET_ALPHABET) by (apply memb_In; vm_compute; reflexivity).
      apply Forall_app. split; [exact H|].
      apply List.Forall_cons; [exact H10 | apply List.Forall_nil]. }
  destruct (strip_spec q) as (l & r & E & Fl & Fr).
  assert (HW : forall ws, Forall (fun x => is_space x = true) ws ->
                          Forall (fun x => In x GREET_ALPHABET) ws).
  { intros ws F. eapply Forall_impl; [exact F|]. cbv beta. intros x Hx.
    unfold GREET_ALPHABET. apply in_or_app. left. apply is_space_points; auto. }
  rewrite E. apply Forall_app. split; auto. apply Forall_app. split; auto.
Qed.

Lemma no_match_in_alphabet L r q :
  escapesb L r = true -> Forall (fun x => In x L) q -> search r q = false.
Proof.
  intros He HF. destruct (search r q) eqn:E; auto.
  apply search_spec in E as (pre & m & post & -> & Hm).
  apply Forall_app in HF as [_ HF]. apply Forall_app in HF as [HF _].
  destruct (escapesb_sound L r m He Hm HF).
Qed.

(** A greeting carries no math signal. *)
Lemma greet_excludes_math q : _is_greet q = true -> math_signal q = false.
Proof.
  intros H. apply greeting_alphabet in H. unfold math_signal.
  rewrite (no_match_in_alphabet GREET_ALPHABET MATH_WORDS q), (no_match_in_alphabet GREET_ALPHABET MATH_OPS q);
    auto; vm_compute; reflexivity.
Qed.

End GreetFacts.
Import GreetFacts.

(** ** Substitution, token by token *)

Module TemplateFacts.

Lemma re_sub_cons repl c r :
  re_sub repl (c :: r) =
  match token_at (c :: r) with
  | Some (key, rest) => repl key ++ re_sub repl rest
  | None => c :: re_sub repl r
  end.
Proof.
  rewrite re_sub_equation_2.
  assert (G : forall x : {y | token_at (c :: r) = y},
             re_sub_unfold_clause_2 repl c r x =
             match proj1_sig x with
             | Some (key, rest) => repl key ++ re_sub repl rest
             | None => c :: re_sub repl r
             end).
  { intros [[[k t]|] e]; reflexivity. }
  apply G.
Qed.

Lemma until_close_spec s k t :
  until_close s = (k, t) ->
  s = k ++ t /\ ~ In 125 k /\ (t = [] \/ exists t', t = 125 :: t').
Proof.
  revert k t. induction s as [|c r IH]; intros k t; simpl.
  - intros [= <- <-]. split; [reflexivity|]. split; [intros []|]. left; reflexivity.
  - destruct (c =? 125) eqn:E.
    + intros [= <- <-]. apply N.eqb_eq in E. subst c.
      split; [reflexivity|]. split; [intros []|]. right. eexists; reflexivity.
    + destruct (until_close r) as [k' t'] eqn:Er. intros [= <- <-].
      destruct (IH k' t' eq_refl) as (-> & Hk & Ht). apply N.eqb_neq in E.
      split; [reflexivity|]. split; [|exact Ht]. intros [H|H]; auto.
Qed.

Lemma until_close_app k t :
  ~ In 125 k -> until_close (k ++ 125 :: t) = (k, 125 :: t).
Proof.
  induction k as [|c k IH]; simpl; intros H.
  - reflexivity.
  - destruct (c =? 125) eqn:E; [apply N.eqb_eq in E; tauto|].
    rewrite IH by tauto. reflexivity.
Qed.

Lemma until_close_open s : ~ In 125 s -> until_close s = (s, []).
Proof.
  induction s as [|c s IH]; simpl; intros H; auto.
  destruct (c =? 125) eqn:E; [apply N.eqb_eq in E; tauto|].
  rewrite IH by tauto. reflexivity.
Qed.

Lemma token_at_spec s key rest :
  token_at s = Some (key, rest) <->
  s = 123 :: key ++ 125 :: rest /\ key <> [] /\ ~ In 125 key.
Proof.
  split.
  - destruct s as [|c r]; simpl; [discriminate|].
    destruct (c =? 123) eqn:E; [|discriminate]. apply N.eqb_eq in E. subst c.
    destruct (until_close r) as [k t] eqn:Er.
    apply until_close_spec in Er as (-> & Hk & Ht).
    destruct k as [|a k]; [discriminate|].
    destruct Ht as [->|(t' & ->)]; [discriminate|].
    intros [= <- <-]. split; [reflexivity|]. split; [discriminate|exact Hk].
  - intros (-> & Hne & Hk). simpl. rewrite until_close_app by auto.
    destruct key; [congruence|reflexivity].
Qed.

(** Text without an opening brace is copied. *)
Lemma re_sub_plain repl v s : ~ In 123 v -> re_sub repl (v ++ s) = v ++ re_sub repl s.
Proof.
  induction v as [|c v IH]; simpl; intros H; auto.
  rewrite re_sub_cons. simpl.
  destruct (c =? 123) eqn:E; [apply N.eqb_eq in E; tauto|].
  rewrite IH by tauto. reflexivity.
Qed.

(** Where no closing brace follows, nothing is replaced. *)
Lemma re_sub_open repl s : ~ In 125 s -> re_sub repl s = s.
Proof.
  induction s as [|c s IH]; intros H.
  - reflexivity.
  - rewrite re_sub_cons.
    destruct (token_at (c :: s)) as [[key rest]|] eqn:E.
    + apply token_at_spec in E as (E & _ & _). exfalso. apply H.
      rewrite E. simpl. right. apply in_or_app. right. simpl. auto.
    + rewrite IH; auto. simpl in H. tauto.
Qed.

(** A token. *)
Lemma re_sub_token repl key rest :
  key <> [] -> ~ In 125 key ->
  re_sub repl (123 :: key ++ 125 :: rest) = repl key ++ re_sub repl rest.
Proof.
  intros Hne Hk. rewrite re_sub_cons.
  rewrite (proj2 (token_at_spec (123 :: key ++ 125 :: rest) key rest)); auto.
Qed.

(** Text in which no token starts is copied. *)
Lemma re_sub_no_start repl pre s :
  no_token_start pre = true -> re_sub repl (pre ++ s) = pre ++ re_sub repl s.
Proof.
  induction pre as [|c pre IH]; [reflexivity|].
  cbn [no_token_start]. intros H. cbn [app]. rewrite re_sub_cons.
  destruct (c =? 123) eqn:E.
  - apply N.eqb_eq in E. subst c. destruct pre as [|d r]; [discriminate H|].
    apply andb_true_iff in H as [Hd Hr]. apply N.eqb_eq in Hd. subst d.
    replace (token_at (123 :: (125 :: r) ++ s)) with (@None (pystr * pystr))
      by reflexivity.
    rewrite IH by exact Hr. reflexivity.
  - replace (token_at (c :: pre ++ s)) with (@None (pystr * pystr))
      by (cbn [token_at]; rewrite E; reflexivity).
    rewrite IH by exact H. reflexivity.
Qed.

(** A template either shows a first token or none at all. *)
Lemma first_token s :
  (exists pre key post,
     s = pre ++ 123 :: key ++ 125 :: post
     /\ no_token_start pre = true /\ key <> [] /\ ~ In 125 key)
  \/ (exists pre tail,
        s = pre ++ tail /\ no_token_start pre = true /\ ~ In 125 tail).
Proof.
  remember (length s) as n eqn:En. revert s En.
  induction n as [n IH] using lt_wf_ind. intros s En.
  destruct s as [|c r].
  { right. exists [], []. split; [reflexivity|]. split; [reflexivity|]. intros []. }
  destruct (c =? 123) eqn:E.
  - apply N.eqb_eq in E. subst c.
    destruct (until_close r) as [k t] eqn:Er.
    apply until_close_spec in Er as (Hs & Hk & Ht).
    destruct k as [|a k].
    + cbn [app] in Hs. subst t. destruct Ht as [->|(t' & ->)].
      * right. exists [], [123]. split; [reflexivity|]. split; [reflexivity|].
        intros [H|[]]. discriminate H.
      * destruct (IH (length t') ltac:(simpl in En; lia) t' eq_refl)
          as [(pre & key & post & -> & Hp & Hne & Hkey)
             |(pre & tail & -> & Hp & Htail)].
        -- left. exists (123 :: 125 :: pre), key, post.
           split; [reflexivity|]. split; [exact Hp|]. auto.
        -- right. exists (123 :: 125 :: pre), tail.
           split; [reflexivity|]. split; [exact Hp|]. exact Htail.
    + destruct Ht as [->|(t' & ->)].
      * right. exists [], (123 :: r). split; [reflexivity|]. split; [reflexivity|].
        rewrite app_nil_r in Hs. subst r. intros [H|H]; [discriminate H|]. auto.
      * left. exists [], (a :: k), t'. subst r.
        split; [reflexivity|]. split; [reflexivity|]. split; [discriminate|exact Hk].
  - destruct (IH (length r) ltac:(simpl in En; lia) r eq_refl)
      as [(pre & key & post & -> & Hp & Hne & Hkey)|(pre & tail & -> & Hp & Htail)].
    + left. exists (c :: pre), key, post. split; [reflexivity|].
      split; [cbn [no_token_start]; rewrite E; exact Hp|]. auto.
    + right. exists (c :: pre), tail. split; [reflexivity|].
      split; [cbn [no_token_start]; rewrite E; exact Hp|]. exact Htail.
Qed.

Lemma re_sub_idempotent repl :
  (forall key, repl key = 123 :: key ++ [125] \/ ~ In 123 (repl key)) ->
  forall s, re_sub repl (re_sub repl s) = re_sub repl s.
Proof.
  intros Hrepl s.
  remember (length s) as n eqn:En. revert s En.
  induction n as [n IH] using lt_wf_ind. intros s En.
  destruct s as [|c r]; [reflexivity|].
  rewrite re_sub_cons.
  destruct (token_at (c :: r)) as [[key rest]|] eqn:E.
  - assert (Hlen : (length rest < n)%nat).
    { apply token_at_spec in E as (E & _ & _).
      apply (f_equal (@length N)) in E. simpl in E.
      rewrite length_app in E. simpl in E. simpl in En. lia. }
    apply token_at_spec in E as (_ & Hne & Hk).
    destruct (Hrepl key) as [Hw|Hv].
    + rewrite Hw. simpl. rewrite <- app_assoc. simpl.
      rewrite re_sub_token by auto. rewrite Hw. simpl. rewrite <- app_assoc. simpl.
      do 2 f_equal. f_equal. apply (IH (length rest)); auto.
    + rewrite re_sub_plain by auto. f_equal. apply (IH (length rest)); auto.
  - assert (Hr : re_sub repl (re_sub repl r) = re_sub repl r).
    { apply (IH (length r)); auto. simpl in En. lia. }
    simpl in E. destruct (c =? 123) eqn:Ec.
    + apply N.eqb_eq in Ec. subst c.
      destruct (until_close r) as [k t] eqn:Er.
      apply until_close_spec in Er as (Hs & Hk & Ht).
      destruct k as [|a k].
      * (* the brace is followed by a closing brace, or ends the text *)
        simpl in Hs. subst t. destruct Ht as [->|(t' & ->)].
        -- reflexivity.
        -- rewrite (re_sub_cons repl 125 t') in *. simpl in *.
           rewrite re_sub_cons. simpl.
           rewrite (re_sub_cons repl 125 (re_sub repl t')). simpl.
           rewrite (re_sub_cons repl 125 (re_sub repl t')) in Hr. simpl in Hr.
           injection Hr as Hr. rewrite Hr. reflexivity.
      * (* no closing brace follows *)
        destruct Ht as [->|(t' & ->)]; [|discriminate].
        rewrite app_nil_r in Hs. subst r.
        rewrite (re_sub_open repl (a :: k)) by auto.
        apply re_sub_open. simpl. intros [H|H]; [discriminate|]. auto.
    + rewrite re_sub_cons. simpl. rewrite Ec, Hr. reflexivity.
Qed.

Lemma split_dot_none key : ~ In 46 key -> split_dot key = None.
Proof.
  induction key as [|c key IH]; simpl; intros H; auto.
  destruct (c =? 46) eqn:E; [apply N.eqb_eq in E; tauto|].
  rewrite IH by tauto. reflexivity.
Qed.

Lemma split_dot_first sid var : ~ In 46 sid -> split_dot (sid ++ 46 :: var) = Some (sid, var).
Proof.
  induction sid as [|c sid IH]; simpl; intros H; auto.
  destruct (c =? 46) eqn:E; [apply N.eqb_eq in E; tauto|].
  rewrite IH by tauto. reflexivity.
Qed.

Lemma _repl_cases ctx key :
  brace_free ctx ->
  _repl ctx key = 123 :: key ++ [125] \/ ~ In 123 (_repl ctx key).
Proof.
  intros Hb. unfold _repl.
  change (u "{" ++ key ++ u "}") with (123 :: key ++ [125]).
  destruct (split_dot key) as [[sid2 var]|]; auto.
  destruct (ctx !! sid2) as [e|] eqn:El; auto.
  destruct (Hb _ _ El) as [Ha Ht]. unfold entry_get.
  destruct (eqb var (u "ans")); auto.
  destruct (eqb var (u "text")); auto.
Qed.

End TemplateFacts.
Import TemplateFacts.

(** ** The primary step *)

Module PrimaryFacts.

Lemma primary_cons x l :
  primary_of (x :: l) =
  match primary_of l with
  | Ok p => Ok (if (step_confidence x <? step_confidence p)%float then p else x)
  | Raise _ => Ok x
  end.
Proof.
  unfold primary_of, sorted_desc. simpl.
  destruct (foldr insert_desc [] l) as [|y s]; simpl; auto.
  destruct (step_confidence x <? step_confidence y)%float; auto.
Qed.

(** On comparable confidences the primary step is the earliest of those of
    the highest confidence. *)
Lemma primary_spec l :
  l <> [] ->
  Forall (fun x => is_number (step_confidence x)) l ->
  exists i p,
    primary_of l = Ok p /\ l !! i = Some p
    /\ (forall x, In x l -> (step_confidence p <? step_confidence x)%float = false)
    /\ (forall j x, (j < i)%nat -> l !! j = Some x ->
                    (step_confidence x <? step_confidence p)%float = true).
Proof.
  induction l as [|x l IH]; [congruence|]. intros _ HF.
  apply Forall_cons in HF as [Hx HF]. rewrite primary_cons.
  destruct l as [|y l'].
  - exists 0%nat, x. simpl. split; [reflexivity|]. split; [reflexivity|]. split.
    + intros z [<-|[]]. apply ltb_irrefl.
    + intros j z Hj. lia.
  - destruct (IH ltac:(discriminate) HF) as (i & p & Hp & Hi & Hmax & Hfirst).
    rewrite Hp.
    assert (Hnp : is_number (step_confidence p)).
    { rewrite Forall_forall in HF. apply HF, list_elem_of_lookup. eauto. }
    destruct (step_confidence x <? step_confidence p)%float eqn:E.
    + exists (S i), p. split; [reflexivity|]. split; [exact Hi|]. split.
      * intros z [<-|Hz]; [apply ltb_asym; auto | apply Hmax; auto].
      * intros j z Hj Hl. destruct j as [|j]; simpl in Hl.
        -- injection Hl as <-. exact E.
        -- apply (Hfirst j); auto. lia.
    + exists 0%nat, x. split; [reflexivity|]. split; [reflexivity|]. split.
      * intros z [<-|Hz]; [apply ltb_irrefl|].
        apply (ltb_neg_trans _ (step_confidence p)); auto.
        rewrite Forall_forall in HF. apply HF, list_elem_of_In; auto.
      * intros j z Hj. lia.
Qed.

End PrimaryFacts.
Import PrimaryFacts.

(** ** The trace of a plan *)

Module PlanFacts.

Lemma run_plan_trace w q k payload data p : forall ls0 ls,
  run_plan w q k payload data ls0 p = Ok ls ->
  exists recs, steps_out ls = steps_out ls0 ++ recs
               /\ map rec_tool recs = map step_tool p
               /\ map rec_id recs = map step_sid p.
Proof.
  induction p as [|step rest IH]; intros ls0 ls; simpl.
  - intros [= <-]. exists []. rewrite app_nil_r. auto.
  - unfold run_step at 1.
    destruct (step_payload _ _ _ _ _) as [sp|e]; simpl; [|discriminate].
    destruct (dispatch _ _ _) as [out|e]; simpl; [|discriminate].
    intros H. apply IH in H as (recs & E & Ht & Hi). simpl in E.
    eexists (_ :: recs). split; [|split].
    + rewrite E, <- app_assoc. reflexivity.
    + simpl. rewrite Ht. reflexivity.
    + simpl. rewrite Hi. reflexivity.
Qed.

Lemma find_first {A} (f : A -> bool) (l : list A) i r :
  l !! i = Some r -> f r = true ->
  (forall j r', (j < i)%nat -> l !! j = Some r' -> f r' = false) ->
  List.find f l = Some r.
Proof.
  revert i. induction l as [|x l IH]; intros i; simpl.
  - rewrite lookup_nil. discriminate.
  - destruct i as [|i]; simpl.
    + intros [= ->] Hr _. rewrite Hr. reflexivity.
    + intros Hl Hr Hb. rewrite (Hb 0%nat x) by (simpl; auto; lia).
      apply (IH i); auto. intros j r' Hj Hl'. apply (Hb (S j) r'); simpl; auto. lia.
Qed.

Lemma by_rules_no_plan q th kb_ready kb_score :
  plan (by_rules q th kb_ready kb_score) = None.
Proof.
  unfold by_rules.
  repeat match goal with |- context [if ?b then _ else _] => destruct b end;
    reflexivity.
Qed.

Lemma explicit_returns_at_once env st q exp :
  _detect_explicit q = Some exp -> route env st q = (st, Ok exp).
Proof. intros H. unfold route. rewrite H. reflexivity. Qed.

(** [answer] in mode ["auto"], once the router has decided. *)
Lemma answer_routed w st st' q k data d :
  q <> [] ->
  route (router_env w) st q = (st', Ok d) ->
  answer w st q (u "auto") k data
  = (st',
     match orchestrate w q k (base_payload q k data d) data d (dispatch_target d) with
     | Ok (Some resp) => Ok resp
     | Ok None | Raise _ => single_step w q (base_payload q k data d) d (dispatch_target d)
     end).
Proof.
  intros Hq Hr. unfold answer, decide_request.
  destruct q as [|c q]; [congruence|].
  change (negb (eqb (u "auto") (u "auto"))) with false. cbv iota.
  rewrite Hr. reflexivity.
Qed.

End PlanFacts.
Import PlanFacts.

(** * The claims *)

Import Sample.

(** ** The explicit override *)

(** The decision of an explicit instruction: confidence 0.98, one reason tag
    naming the pattern, no plan; the patterns are tried in the order
    knowledge base, web search, no web. *)
Lemma explicit_decision_shape q exp :
  _detect_explicit q = Some exp ->
  confidence exp = 0.98%float /\ plan exp = None /\
  ((search EXPLICIT_F2 q = true
    /\ target exp = u "f2" /\ reasons exp = [u "explicit:f2"])
   \/ (search EXPLICIT_F2 q = false /\ search EXPLICIT_F1 q = true
       /\ target exp = u "f1" /\ reasons exp = [u "explicit:f1"])
   \/ (search EXPLICIT_F2 q = false /\ search EXPLICIT_F1 q = false
       /\ search EXPLICIT_LLM q = true
       /\ target exp = u "llm" /\ reasons exp = [u "explicit:llm"])).
Proof.
  unfold _detect_explicit.
  destruct (search EXPLICIT_F2 q) eqn:E2;
    [intros H; injection H; clear H; intros <-; simpl; auto 10|].
  destruct (search EXPLICIT_F1 q) eqn:E1;
    [intros H; injection H; clear H; intros <-; simpl; auto 10|].
  destruct (search EXPLICIT_LLM q) eqn:E3;
    [intros H; injection H; clear H; intros <-; simpl; auto 12|].
  discriminate.
Qed.

(** Whatever contains the phrase 不联网 contains 联网, so the web-search
    pattern matches it: the router answers for the knowledge base or for the
    web search, never for the plain model. *)
Lemma no_web_phrase_is_shadowed env st pre post :
  let q := pre ++ u "不联网" ++ post in
  search EXPLICIT_LLM q = true
  /\ search EXPLICIT_F1 q = true
  /\ exists exp, route env st q = (st, Ok exp) /\ target exp <> u "llm".
Proof.
  intros q.
  assert (H3 : search EXPLICIT_LLM q = true).
  { apply (search_words _ "不联网"). simpl; auto. }
  assert (H1 : search EXPLICIT_F1 q = true).
  { subst q. change (u "不联网") with ([ch "不"] ++ u "联网").
    rewrite <- !app_assoc, app_assoc.
    apply (search_words _ "联网"). simpl; auto. }
  split; [exact H3|]. split; [exact H1|].
  destruct (_detect_explicit q) as [exp|] eqn:E.
  - exists exp. split; [apply explicit_returns_at_once; exact E|].
    apply explicit_decision_shape in E as (_ & _ & [(_ & T & _)|[(_ & _ & T & _)|(_ & F & _)]]).
    + rewrite T. vm_compute. discriminate.
    + rewrite T. vm_compute. discriminate.
    + congruence.
  - unfold _detect_explicit in E. rewrite H1 in E.
    destruct (search EXPLICIT_F2 q); discriminate.
Qed.

(** C1. A query made of the no-web phrase 不联网 matches the pattern of the
    plain model, and [route] returns at once the decision of the web search:
    target [f1], confidence 0.98, the tag [explicit:f1]. *)
Theorem no_web_phrase_routed_to_web_search env st :
  search EXPLICIT_LLM (u "不联网") = true
  /\ route env st (u "不联网")
     = (st, Ok (decision (u "f1") 0.98 [u "explicit:f1"] {[ "provider" := u "metaso" ]})).
Proof.
  split; [vm_compute; reflexivity|].
  apply explicit_returns_at_once. vm_compute. reflexivity.
Qed.

(** ** The merger on an empty decomposition *)

(** The suggestion source keeps no segment of a reply whose segments all
    name unknown tools, and still answers with a decomposition. *)
Lemma unknown_tools_leave_no_segment :
  _llm_route_obj no_segment_kept = Some (Multi [] 0.0%float []).
Proof. vm_compute. reflexivity. Qed.

(** C2. When no explicit pattern matches and the suggestion source returns
    a decomposition without segments, [route] raises [KeyError] instead of
    returning a decision. *)
Theorem empty_decomposition_raises env st q c rs :
  _detect_explicit q = None ->
  _llm_route env q = Some (Multi [] c rs) ->
  snd (route env st q) = Raise (KeyError "target").
Proof.
  intros He Hs. unfold route. rewrite He, Hs.
  destruct (_kb_probe env st q None) as [st' [kb_ready kb_score]]. reflexivity.
Qed.

Lemma empty_decomposition_raises_witness :
  snd (route (reply_env (Some no_segment_kept)) cold (u "讲个笑话"))
  = Raise (KeyError "target").
Proof.
  apply (empty_decomposition_raises _ _ _ 0.0%float []); vm_compute; reflexivity.
Defined.

(** The exception reaches the caller of the view. *)
Lemma empty_decomposition_reaches_caller :
  snd (answer (world no_segment_kept (quoting "f1") (quoting "llm") failing failing)
         cold (u "讲个笑话") (u "auto") 5 ∅)
  = Raise (KeyError "target").
Proof. vm_compute. reflexivity. Qed.

(** ** Suggestions of low confidence *)

(** C3. Without an explicit instruction, the decision made from a suggestion
    is settled by one confidence: the single target's, or that of the
    primary segment, the earliest of the segments of the highest confidence
    after the second check (the confidences being numbers). When it is below
    0.6 the suggested target is set aside: the decision is the one of the
    rules with the tag [rule:override-llm-lowconf] appended to its reasons,
    and it carries the whole plan when the suggestion was a decomposition.
    Otherwise the suggestion of that very segment is reconciled with the
    rules. *)
Theorem low_confidence_falls_back env st q sug :
  _detect_explicit q = None ->
  _llm_route env q = Some sug ->
  let th := default 0.35%float (KB_ROUTE_THRESHOLD env) in
  let probe := _kb_probe env st q None in
  let kb_ready := fst (snd probe) in
  let kb_score := snd (snd probe) in
  let rules := by_rules q th kb_ready kb_score in
  let fallback (p : option (list PlanStep)) :=
    {| target := target rules; confidence := confidence rules;
       reasons := reasons rules ++ [u "rule:override-llm-lowconf"];
       slots := slots rules; plan := p |} in
  match sug with
  | Single t c rs =>
      ((c <? 0.6)%float = true ->
       route env st q = (fst probe, Ok (fallback None)))
      /\ ((c <? 0.6)%float = false ->
          route env st q = (fst probe, Ok (reconcile q th kb_ready kb_score t c rs [])))
  | Multi segs c rs =>
      let p := map revalidate segs in
      segs <> [] ->
      Forall (fun x => is_number (seg_confidence x)) segs ->
      exists (i : nat) primary,
        p !! i = Some primary
        /\ (forall x, In x p ->
              (step_confidence primary <? step_confidence x)%float = false)
        /\ (forall (j : nat) x, (j < i)%nat -> p !! j = Some x ->
              (step_confidence x <? step_confidence primary)%float = true)
        /\ ((step_confidence primary <? 0.6)%float = true ->
            route env st q = (fst probe, Ok (fallback (Some p))))
        /\ ((step_confidence primary <? 0.6)%float = false ->
            route env st q
            = (fst probe,
               Ok (reconcile q th kb_ready kb_score (step_tool primary)
                     (step_confidence primary)
                     (u "llm:multi-primary" :: step_reasons primary) p)))
  end.
Proof.
  intros He Hs th probe kb_ready kb_score rules fallback.
  assert (R : route env st q = (fst probe, merge q th kb_ready kb_score (Some sug))).
  { unfold route. rewrite He, Hs. subst kb_ready kb_score probe th.
    destruct (_kb_probe env st q None) as [st' [r sc]]. reflexivity. }
  destruct sug as [t c rs|segs c rs].
  - split; intros Hc; rewrite R; unfold merge; cbn [suggested];
      unfold mbind, Result_bind; cbv beta iota; rewrite Hc; [|reflexivity].
    cbn [attach]. unfold append_reason, fallback. rewrite by_rules_no_plan.
    reflexivity.
  - intros p Hne HF. destruct segs as [|s segs]; [congruence|].
    assert (HF' : Forall (fun x => is_number (step_confidence x)) p).
    { subst p. apply Forall_map. eapply Forall_impl; [exact HF|]. auto. }
    destruct (primary_spec p ltac:(discriminate) HF')
      as (i & primary & Hp & Hi & Hmax & Hfirst).
    exists i, primary. split; [exact Hi|]. split; [exact Hmax|]. split; [exact Hfirst|].
    assert (M : merge q th kb_ready kb_score (Some (Multi (s :: segs) c rs))
                = if (step_confidence primary <? 0.6)%float
                  then Ok (attach p (append_reason (u "rule:override-llm-lowconf") rules))
                  else Ok (reconcile q th kb_ready kb_score (step_tool primary)
                             (step_confidence primary)
                             (u "llm:multi-primary" :: step_reasons primary) p)).
    { unfold merge.
      change (suggested (Multi (s :: segs) c rs))
        with (primary' ← primary_of p;
              Ok (step_tool primary', step_confidence primary',
                  u "llm:multi-primary" :: step_reasons primary', p)).
      rewrite Hp. reflexivity. }
    split; intros Hc; rewrite R, M, Hc; [|reflexivity].
    subst p. cbn [map attach]. reflexivity.
Qed.

Lemma low_confidence_falls_back_witness :
  let q := u "讲个笑话，再查上海天气" in
  exists d,
    route (reply_env (Some hesitant)) cold q = (cold, Ok d)
    /\ target d = u "f1"
    /\ reasons d = [u "weather"; u "rule:override-llm-lowconf"]
    /\ (step_tool <$> default [] (plan d)) = [u "llm"; u "f1"].
Proof.
  intros q.
  assert (He : _detect_explicit q = None) by (vm_compute; reflexivity).
  assert (Hs : _llm_route (reply_env (Some hesitant)) q
               = Some (Multi [ segment "s1" "讲个笑话" "llm" 0.3;
                               segment "s2" "上海天气" "f1" 0.5 ] 0.0 []))
    by (vm_compute; reflexivity).
  pose proof (low_confidence_falls_back _ cold _ _ He Hs) as H. cbv zeta in H.
  destruct H as (i & primary & Hi & _ & _ & Hlow & _).
  - discriminate.
  - apply List.Forall_cons; [reflexivity|]. apply List.Forall_cons; [reflexivity|].
    apply List.Forall_nil.
  - assert (Hc : (step_confidence primary <? 0.6)%float = true).
    { destruct i as [|[|i]]; vm_compute in Hi; [| |discriminate Hi];
        injection Hi as <-; reflexivity. }
    rewrite (Hlow Hc). eexists. split; [f_equal; vm_compute; reflexivity|].
    split; [vm_compute; reflexivity|]. split; vm_compute; reflexivity.
Defined.

(** ** Template substitution *)

(** The claim as it is written fails: a recorded value that itself shows a
    placeholder is resolved by a second pass. *)
Lemma substitution_not_idempotent :
  re_sub (_repl chained_ctx) (u "{s1.ans}") = u "{s2.ans}"
  /\ re_sub (_repl chained_ctx) (re_sub (_repl chained_ctx) (u "{s1.ans}")) = u "42"
  /\ re_sub (_repl chained_ctx) (re_sub (_repl chained_ctx) (u "{s1.ans}"))
     <> re_sub (_repl chained_ctx) (u "{s1.ans}").
Proof.
  assert (E1 : re_sub (_repl chained_ctx) (u "{s1.ans}") = u "{s2.ans}")
    by (vm_compute; reflexivity).
  assert (E2 : re_sub (_repl chained_ctx) (u "{s2.ans}") = u "42")
    by (vm_compute; reflexivity).
  rewrite E1, E2. split; [reflexivity|]. split; [reflexivity|].
  vm_compute. discriminate.
Qed.

(** C4, amended. Substitution is a total function of the template, and it
    replaces every token, from left to right. A template either shows a
    first token [{key}], after text in which every opening brace is closed
    at once, or no token at all, a text of that kind followed by text
    without a closing brace. In the first case the text before the token is
    copied, the token is replaced by what [_repl] returns for [key] and the
    scan goes on after it; in the second the template is returned as it is.
    For a step present in the context, [{id.ans}] and [{id.text}] are
    replaced by the [str()] of the recorded values and any other field
    leaves the token as it is; a token of an unknown step, or without a dot,
    is left as it is; and when no recorded value shows an opening brace,
    substituting a second time changes nothing. *)
Theorem template_substitution (c : gmap pystr CtxEntry) :
  (forall pre key post,
     no_token_start pre = true -> key <> [] -> ~ In 125 key ->
     re_sub (_repl c) (pre ++ u "{" ++ key ++ u "}" ++ post)
     = pre ++ _repl c key ++ re_sub (_repl c) post)
  /\ (forall pre tail,
        no_token_start pre = true -> ~ In 125 tail ->
        re_sub (_repl c) (pre ++ tail) = pre ++ tail)
  /\ (forall s,
        (exists pre key post,
           s = pre ++ u "{" ++ key ++ u "}" ++ post
           /\ no_token_start pre = true /\ key <> [] /\ ~ In 125 key)
        \/ (exists pre tail,
              s = pre ++ tail /\ no_token_start pre = true /\ ~ In 125 tail))
  /\ (forall (sid : pystr) e,
        ~ In 46 sid -> c !! sid = Some e ->
        _repl c (sid ++ u ".ans") = py_str (ans e)
        /\ _repl c (sid ++ u ".text") = py_str (ctx_text e)
        /\ forall var, var <> u "ans" -> var <> u "text" ->
             _repl c (sid ++ u "." ++ var) = u "{" ++ sid ++ u "." ++ var ++ u "}")
  /\ (forall (sid var : pystr),
        ~ In 46 sid -> c !! sid = None ->
        _repl c (sid ++ u "." ++ var) = u "{" ++ sid ++ u "." ++ var ++ u "}")
  /\ (forall key, ~ In 46 key -> _repl c key = u "{" ++ key ++ u "}")
  /\ (brace_free c ->
      forall s, re_sub (_repl c) (re_sub (_repl c) s) = re_sub (_repl c) s).
Proof.
  split; [|split; [|split; [|split; [|split; [|split]]]]].
  - intros pre key post Hpre Hne Hk.
    rewrite re_sub_no_start by auto. f_equal.
    change (u "{" ++ key ++ u "}" ++ post) with (123 :: key ++ 125 :: post).
    apply re_sub_token; auto.
  - intros pre tail Hpre Ht.
    rewrite re_sub_no_start by auto. f_equal. apply re_sub_open. exact Ht.
  - intros s. exact (first_token s).
  - intros sid e Hs He. unfold _repl.
    change (u ".ans") with (46 :: u "ans"). change (u ".text") with (46 :: u "text").
    rewrite !split_dot_first by auto. cbv iota beta. rewrite He.
    split; [reflexivity|]. split; [reflexivity|].
    intros var H1 H2. change (u "." ++ var) with (46 :: var).
    rewrite split_dot_first by auto. cbv iota beta. rewrite He. unfold entry_get, eqb.
    rewrite !bool_decide_eq_false_2 by auto.
    rewrite <- !app_assoc. reflexivity.
  - intros sid var Hs He. unfold _repl. change (u "." ++ var) with (46 :: var).
    rewrite split_dot_first by auto. cbv iota beta. rewrite He.
    rewrite <- !app_assoc. reflexivity.
  - intros key Hk. unfold _repl. rewrite split_dot_none by auto. reflexivity.
  - intros Hb. apply re_sub_idempotent. intros key. apply _repl_cases; auto.
Qed.

Lemma template_substitution_witness :
  re_sub (_repl plain_ctx) (u "{}结果是{s1.ans}，{s9.ans}") = u "{}结果是42，{s9.ans}"
  /\ re_sub (_repl plain_ctx) (re_sub (_repl plain_ctx) (u "{}结果是{s1.ans}，{s9.ans}"))
     = re_sub (_repl plain_ctx) (u "{}结果是{s1.ans}，{s9.ans}").
Proof.
  destruct (template_substitution plain_ctx) as (H1 & _ & _ & H4 & H5 & _ & H7).
  split.
  - change (u "{}结果是{s1.ans}，{s9.ans}")
      with (u "{}结果是" ++ u "{" ++ (u "s1" ++ u ".ans") ++ u "}" ++ u "，{s9.ans}").
    rewrite H1; [| vm_compute; reflexivity | vm_compute; discriminate
                 | vm_compute; intuition discriminate].
    destruct (H4 (u "s1") {| ans := Some (u "42"); ctx_text := Some (u "forty-two") |})
      as (Ha & _); [vm_compute; intuition discriminate | vm_compute; reflexivity |].
    rewrite Ha.
    change (u "，{s9.ans}") with (u "，" ++ u "{" ++ (u "s9" ++ u "." ++ u "ans") ++ u "}" ++ []).
    rewrite H1; [| vm_compute; reflexivity | vm_compute; discriminate
                 | vm_compute; intuition discriminate].
    rewrite H5; [| vm_compute; intuition discriminate | vm_compute; reflexivity].
    vm_compute. reflexivity.
  - apply H7. intros sid e He. unfold plain_ctx in He.
    destruct (decide (u "s1" = sid)) as [<-|Hne].
    + rewrite lookup_insert_eq in He. injection He as <-. vm_compute.
      intuition discriminate.
    + rewrite lookup_insert_ne, lookup_empty in He by auto. discriminate.
Defined.

(** ** The retrieval probe cache *)

(** C5. Let [K] be the knowledge base a probe looks at: the one it is asked
    for, or without one (as in the call [route] makes) the one of the
    environment, or [default]. With the index library available and both
    files of [K] on disk, the probe constructs and loads a new index if and
    only if no index is cached, or the cached identifier differs from [K],
    or one of the two modification times differs from the cached one;
    otherwise it leaves the state as it is. A load that succeeds puts into
    the cache the new index with [K] and the two times; one that fails leaves
    the cache as it was. When loading succeeds and the times are numbers, the
    next probe of the same knowledge base with unchanged files reuses the
    cached index: the state, the index object included, stays the same. And
    the state [route] leaves is the one of the probe without an identifier,
    unless an explicit instruction made it return before. *)
Theorem probe_reloads_iff_stale env st q q' kb m1 m2 :
  let K := probed_kb env kb in
  _KB_AVAILABLE env = true ->
  meta_mtime env K = Some m1 -> index_mtime env K = Some m2 ->
  let st1 := fst (_kb_probe env st q kb) in
  let st2 := fst (_kb_probe env st1 q' kb) in
  (constructed st1 = S (constructed st) <->
     (idx (cache st) = None \/ kb_id (cache st) <> Some K
      \/ (mt_meta (cache st) =? m1)%float = false
      \/ (mt_index (cache st) =? m2)%float = false))
  /\ (constructed st1 = constructed st -> st1 = st)
  /\ (constructed st1 = S (constructed st) ->
      cache st1 = if load_returns env K
                  then {| kb_id := Some K;
                          idx := Some {| obj_id := constructed st; kb_dir := K |};
                          mt_meta := m1; mt_index := m2 |}
                  else cache st)
  /\ (load_returns env K = true -> is_number m1 -> is_number m2 ->
      exists i, idx (cache st1) = Some i /\ st2 = st1)
  /\ fst (route env st q)
     = match _detect_explicit q with
       | Some _ => st
       | None => fst (_kb_probe env st q None)
       end.
Proof.
  intros K Ha H1 H2 st1 st2.
  assert (U : forall s x,
    fst (_kb_probe env s x kb) =
    if need_reload (cache s) K m1 m2 then
      if load_returns env K then
        {| cache := {| kb_id := Some K;
                       idx := Some {| obj_id := constructed s; kb_dir := K |};
                       mt_meta := m1; mt_index := m2 |};
           constructed := S (constructed s) |}
      else {| cache := cache s; constructed := S (constructed s) |}
    else s).
  { intros s x. unfold _kb_probe. fold (probed_kb env kb). fold K.
    rewrite Ha. cbn [negb]. rewrite H1, H2.
    destruct (need_reload (cache s) K m1 m2).
    - destruct (load_returns env K); cbn [idx cache]; auto.
      destruct (query_top1 env _ x) as [[?|]|]; reflexivity.
    - destruct (idx (cache s)); [|reflexivity].
      destruct (query_top1 env _ x) as [[?|]|]; reflexivity. }
  assert (R : forall c',
    need_reload c' K m1 m2 = true <->
    (idx c' = None \/ kb_id c' <> Some K
     \/ (mt_meta c' =? m1)%float = false \/ (mt_index c' =? m2)%float = false)).
  { intros c'. unfold need_reload, py_str_ne.
    rewrite !orb_true_iff, !negb_true_iff, !bool_decide_eq_true, bool_decide_eq_false.
    tauto. }
  assert (E1 := U st q). assert (E2 := U st1 q').
  fold st1 in E1. fold st2 in E2. rewrite <- R.
  split; [|split; [|split; [|split]]].
  - rewrite E1. destruct (need_reload (cache st) K m1 m2).
    + destruct (load_returns env K); simpl; tauto.
    + split; [lia | discriminate].
  - rewrite E1. destruct (need_reload (cache st) K m1 m2); auto.
    destruct (load_returns env K); simpl; lia.
  - rewrite E1. destruct (need_reload (cache st) K m1 m2).
    + destruct (load_returns env K); reflexivity.
    + lia.
  - intros Hl N1 N2. rewrite Hl in E1.
    assert (Hkeep : need_reload (cache st1) K m1 m2 = false).
    { rewrite E1. destruct (need_reload (cache st) K m1 m2) eqn:Rl; auto.
      unfold need_reload, py_str_ne. simpl.
      rewrite N1, N2, bool_decide_eq_true_2 by reflexivity. reflexivity. }
    rewrite Hkeep in E2.
    destruct (idx (cache st1)) as [i|] eqn:Ei; eauto.
    unfold need_reload in Hkeep. rewrite Ei in Hkeep. discriminate.
  - unfold route. destruct (_detect_explicit q); [reflexivity|].
    destruct (_kb_probe env st q None) as [st' [r sc]]. reflexivity.
Qed.

Lemma probe_reloads_iff_stale_witness :
  let env := kb_env true 1700000000.5%float 1700000001.25%float in
  let st1 := fst (route env cold (u "报销流程")) in
  constructed st1 = 1%nat
  /\ cache st1 = {| kb_id := Some (u "default");
                    idx := Some {| obj_id := 0; kb_dir := u "default" |};
                    mt_meta := 1700000000.5; mt_index := 1700000001.25 |}
  /\ fst (_kb_probe env st1 (u "年假规定") None) = st1.
Proof.
  intros env st1.
  destruct (probe_reloads_iff_stale env cold (u "报销流程") (u "年假规定") None
              1700000000.5%float 1700000001.25%float) as (H1 & _ & H3 & H4 & H5);
    [reflexivity | vm_compute; reflexivity | vm_compute; reflexivity |].
  assert (E : st1 = fst (_kb_probe env cold (u "报销流程") None)).
  { unfold st1. rewrite H5. vm_compute. reflexivity. }
  rewrite E.
  assert (Hc : constructed (fst (_kb_probe env cold (u "报销流程") None)) = 1%nat).
  { apply H1. left. reflexivity. }
  split; [exact Hc|]. split.
  - rewrite (H3 Hc). vm_compute. reflexivity.
  - destruct H4 as (i & _ & E'); [reflexivity | reflexivity | reflexivity | exact E'].
Defined.

(** ** A plan that fails *)

(** The claim as it is written fails: the fallback is a dispatch outside any
    handler of exceptions of the view, so when the tool of the decision raises
    in the plan and again in the fallback, the view raises and the client
    receives the internal error of the application. *)
Lemma fallback_may_raise :
  let w := world kb_only (quoting "f1") (quoting "llm") failing failing in
  let q := u "公司报销制度是什么" in
  exists d s e,
    route (router_env w) cold q = (cold, Ok d)
    /\ plan d = Some [s]
    /\ run_plan w q 5 (base_payload q 5 ∅ d) ∅ loop_start [s] = Raise e
    /\ snd (answer w cold q (u "auto") 5 ∅) = Raise e
    /\ snd (serve w cold q (u "auto") 5 ∅) = Status500 e.
Proof.
  intros w q. eexists _, _, _.
  split; [vm_compute; reflexivity|].
  split; [vm_compute; reflexivity|].
  split; [vm_compute; reflexivity|].
  split; vm_compute; reflexivity.
Qed.

(** C6, amended. When the router returns a decision with a plan and a step
    of the plan raises, [answer] falls back to one dispatch to the target of
    the decision with the payload of the request. If that dispatch returns,
    the response is built from its result alone, under the key of the target
    and without a step trace; if it raises, the exception leaves the view and
    the client receives the reply of the application's handler of exceptions,
    an internal error of status 500. *)
Theorem failed_plan_falls_back w st st' q k data d s p e :
  q <> [] ->
  route (router_env w) st q = (st', Ok d) ->
  plan d = Some (s :: p) ->
  run_plan w q k (base_payload q k data d) data loop_start (s :: p) = Raise e ->
  let fallback := dispatch (tools w) (dispatch_target d) (base_payload q k data d) in
  (forall r, fallback = Ok r ->
     answer w st q (u "auto") k data
     = (st', Ok (Answered q d
                   {| key := dispatch_target d; key_items := items r; steps := None |}
                   (true_error r))))
  /\ (forall e', fallback = Raise e' ->
        answer w st q (u "auto") k data = (st', Raise e')
        /\ serve w st q (u "auto") k data = (st', Status500 e')).
Proof.
  intros Hq Hr Hp He fallback.
  assert (Ha : answer w st q (u "auto") k data
               = (st', r ← fallback;
                       Ok (Answered q d
                             {| key := dispatch_target d; key_items := items r;
                                steps := None |}
                             (true_error r)))).
  { rewrite (answer_routed w st st' q k data d Hq Hr).
    unfold orchestrate. rewrite Hp, He. reflexivity. }
  split.
  - intros r Hf. rewrite Ha, Hf. reflexivity.
  - intros e' Hf. unfold serve. rewrite Ha, Hf. split; reflexivity.
Qed.

Lemma failed_plan_falls_back_witness :
  let w := world joke_then_quotes failing (quoting "llm") failing failing in
  let q := u "讲个笑话然后看看行情" in
  exists d,
    answer w cold q (u "auto") 5 ∅
    = (cold, Ok (Answered q d
                   {| key := u "llm";
                      key_items := [ {| title := u "llm"; url := []; snippet := q |} ];
                      steps := None |}
                   None)).
Proof.
  intros w q.
  edestruct (failed_plan_falls_back w cold cold q 5 ∅) as (Hok & _);
    [vm_compute; discriminate | vm_compute; reflexivity | vm_compute; reflexivity
    | vm_compute; reflexivity |].
  eexists. rewrite (Hok {| items := [ {| title := u "llm"; url := []; snippet := q |} ];
                           result := None; text := Some (u "llm" ++ u ":" ++ q);
                           error := None |}) by (vm_compute; reflexivity).
  vm_compute. reflexivity.
Defined.

(** ** The primary segment *)

(** The claim as it is written fails: the target and the confidence of the
    decision are those of the reconciliation, which a signal of the rules may
    turn away from the primary segment. Here the primary segment asks for the
    plain model at 0.95 and the weather word sends the decision to the web
    search at 0.85. *)
Lemma decision_may_leave_primary :
  let q := u "查一下上海天气然后写一句话" in
  exists d p primary,
    route (reply_env (Some weather_then_line)) cold q = (cold, Ok d)
    /\ plan d = Some p
    /\ primary_of p = Ok primary
    /\ step_tool primary = u "llm" /\ step_confidence primary = 0.95%float
    /\ target d = u "f1" /\ confidence d = 0.85%float
    /\ target d <> step_tool primary.
Proof.
  intros q. eexists _, _, _.
  split; [vm_compute; reflexivity|].
  split; [vm_compute; reflexivity|].
  split; [vm_compute; reflexivity|].
  split; [vm_compute; reflexivity|].
  split; [vm_compute; reflexivity|].
  split; [vm_compute; reflexivity|].
  split; [vm_compute; reflexivity|].
  vm_compute. discriminate.
Qed.

(** C7, amended. For a decomposition with at least one segment whose
    confidences are numbers, the primary step is the earliest step of the
    highest confidence. What the merger takes from it is the suggestion it
    then checks against the rules: the tool of the primary step after the
    second check of the segments, its confidence, and its reasons after the
    tag [llm:multi-primary]; the decision may end on another target. The
    orchestrator finds the same primary step, and a plan that runs to its end
    leaves one record for each step, in the order of the segments. *)
Theorem primary_segment_governs (s : Segment) (segs : list Segment) c rs :
  let p := map revalidate (s :: segs) in
  Forall (fun x => is_number (seg_confidence x)) (s :: segs) ->
  exists (i : nat) primary,
    p !! i = Some primary
    /\ (forall x, In x p ->
          (step_confidence primary <? step_confidence x)%float = false)
    /\ (forall (j : nat) x, (j < i)%nat -> p !! j = Some x ->
          (step_confidence x <? step_confidence primary)%float = true)
    /\ suggested (Multi (s :: segs) c rs)
       = Ok (step_tool primary, step_confidence primary,
             u "llm:multi-primary" :: step_reasons primary, p)
    /\ (forall target, primary_tool_of target p = step_tool primary)
    /\ (forall w q k payload data ls,
          run_plan w q k payload data loop_start p = Ok ls ->
          map rec_tool (steps_out ls) = map step_tool p
          /\ map rec_id (steps_out ls) = map step_sid p).
Proof.
  intros p HF.
  assert (HF' : Forall (fun x => is_number (step_confidence x)) p).
  { subst p. apply Forall_map. eapply Forall_impl; [exact HF|]. auto. }
  destruct (primary_spec p ltac:(discriminate) HF')
    as (i & primary & Hp & Hi & Hmax & Hfirst).
  exists i, primary. split; [exact Hi|]. split; [exact Hmax|]. split; [exact Hfirst|].
  split; [|split].
  - change (suggested (Multi (s :: segs) c rs))
      with (primary' ← primary_of p;
            Ok (step_tool primary', step_confidence primary',
                u "llm:multi-primary" :: step_reasons primary', p)).
    rewrite Hp. reflexivity.
  - intros target. unfold primary_tool_of. rewrite Hp. reflexivity.
  - intros w q k payload data ls Hr.
    apply run_plan_trace in Hr as (recs & E & Ht & Hs).
    simpl in E. rewrite E. auto.
Qed.

Lemma primary_segment_governs_witness :
  exists primary,
    map revalidate (tied_segments) !! 1%nat = Some primary
    /\ suggested (Multi tied_segments 0.0 [])
       = Ok (step_tool primary, step_confidence primary,
             u "llm:multi-primary" :: step_reasons primary,
             map revalidate tied_segments).
Proof.
  destruct (primary_segment_governs (segment "s1" "上海天气" "f1" 0.9)
              [segment "s2" "写一句话" "llm" 0.95; segment "s3" "讲个笑话" "llm" 0.95]
              0.0%float [])
    as (i & primary & Hi & Hmax & Hfirst & Hs & _).
  - repeat (apply List.Forall_cons; [reflexivity|]). apply List.Forall_nil.
  - exists primary. split; [|exact Hs].
    destruct i as [|[|[|i]]].
    + exfalso. injection Hi as <-.
      specialize (Hmax (revalidate (segment "s2" "写一句话" "llm" 0.95))
                       ltac:(right; left; reflexivity)).
      vm_compute in Hmax. discriminate Hmax.
    + exact Hi.
    + exfalso. injection Hi as <-.
      specialize (Hfirst 1%nat (revalidate (segment "s2" "写一句话" "llm" 0.95))
                         ltac:(lia) eq_refl).
      vm_compute in Hfirst. discriminate Hfirst.
    + vm_compute in Hi. discriminate Hi.
Defined.

(** ** The math signal *)

(** C8. A query with a math signal is no greeting and is not left to the
    plain model as a writing request, so [by_rules], which looks at the
    greeting, then at the writing request, then at the math signal, answers
    with the computation tool [f3] at confidence 0.85; and when no explicit
    pattern matches and there is no suggestion, this is the decision of
    [route]. *)
Theorem math_signal_selects_f3 env st q th kb_ready kb_score :
  math_signal q = true ->
  _is_greet q = false /\ _prefer_llm q = false
  /\ by_rules q th kb_ready kb_score = decision (u "f3") 0.85 [u "math"] ∅
  /\ (_detect_explicit q = None -> _llm_route env q = None ->
      snd (route env st q) = Ok (decision (u "f3") 0.85 [u "math"] ∅)).
Proof.
  intros Hm.
  assert (Hg : _is_greet q = false).
  { destruct (_is_greet q) eqn:E; auto. apply greet_excludes_math in E. congruence. }
  assert (Hp : _prefer_llm q = false).
  { unfold _prefer_llm. rewrite Hm. simpl. apply andb_false_r. }
  assert (Hb : forall t r sc, by_rules q t r sc = decision (u "f3") 0.85 [u "math"] ∅).
  { intros t r sc. unfold by_rules. rewrite Hg, Hp, Hm. reflexivity. }
  split; [exact Hg|]. split; [exact Hp|]. split; [apply Hb|].
  intros He Hs. unfold route. rewrite He, Hs.
  destruct (_kb_probe env st q None) as [st' [r sc]]. simpl. rewrite Hb. reflexivity.
Qed.

Lemma math_signal_selects_f3_witness :
  by_rules (u "今天帮我计算 3+5*2") 0.35 true 0.9
  = decision (u "f3") 0.85 [u "math"] ∅.
Proof.
  apply (math_signal_selects_f3 (reply_env None) cold (u "今天帮我计算 3+5*2")).
  vm_compute. reflexivity.
Defined.

(** ** The items of the primary tool *)

(** C9. When the router returns a decision with a plan whose confidences are
    numbers and the plan runs to its end, the trace follows the plan step by
    step and the primary tool is the tool of the earliest step of the highest
    confidence. If [jsonify] can serialise every output of the trace, the
    response lists under the key of the primary tool the items of the first
    record of the trace whose tool is the primary one, and of no later one;
    the trace is attached whole. If it cannot, the response of the plan is
    lost: the view answers with the single dispatch to the target of the
    decision, without a step trace. *)
Theorem first_primary_step_surfaces w st st' q k data d s p ls :
  q <> [] ->
  route (router_env w) st q = (st', Ok d) ->
  plan d = Some (s :: p) ->
  Forall (fun x => is_number (step_confidence x)) (s :: p) ->
  run_plan w q k (base_payload q k data d) data loop_start (s :: p) = Ok ls ->
  let primary_tool := primary_tool_of (dispatch_target d) (s :: p) in
  (exists (i : nat) primary,
     (s :: p) !! i = Some primary
     /\ (forall x, In x (s :: p) ->
           (step_confidence primary <? step_confidence x)%float = false)
     /\ (forall (j : nat) x, (j < i)%nat -> (s :: p) !! j = Some x ->
           (step_confidence x <? step_confidence primary)%float = true)
     /\ primary_tool = step_tool primary)
  /\ map rec_tool (steps_out ls) = map step_tool (s :: p)
  /\ (forallb rec_json (steps_out ls) = true ->
      exists res err,
        answer w st q (u "auto") k data = (st', Ok (Answered q d res err))
        /\ key res = primary_tool
        /\ steps res = Some (steps_out ls)
        /\ forall (i : nat) r,
             steps_out ls !! i = Some r -> rec_tool r = primary_tool ->
             (forall (j : nat) r', (j < i)%nat -> steps_out ls !! j = Some r' ->
                                   rec_tool r' <> primary_tool) ->
             key_items res = items (rec_output r))
  /\ (forallb rec_json (steps_out ls) = false ->
      answer w st q (u "auto") k data
      = (st', r ← dispatch (tools w) (dispatch_target d) (base_payload q k data d);
              Ok (Answered q d
                    {| key := dispatch_target d; key_items := items r; steps := None |}
                    (true_error r)))).
Proof.
  intros Hq Hroute Hp HF Hr primary_tool.
  split; [|split; [|split]].
  - destruct (primary_spec (s :: p) ltac:(discriminate) HF)
      as (i & primary & Hprim & Hi & Hmax & Hfirst).
    exists i, primary. split; [exact Hi|]. split; [exact Hmax|]. split; [exact Hfirst|].
    unfold primary_tool, primary_tool_of. rewrite Hprim. reflexivity.
  - apply run_plan_trace in Hr as (recs & E & Ht & _). simpl in E. rewrite E. exact Ht.
  - intros Hj. rewrite (answer_routed w st st' q k data d Hq Hroute).
    unfold orchestrate. rewrite Hp, Hr. unfold mbind at 1, Result_bind at 1.
    cbv beta iota. rewrite Hj. fold primary_tool.
    eexists _, _. split; [reflexivity|]. cbn [key steps key_items].
    split; [reflexivity|]. split; [reflexivity|].
    intros i r Hi Ht Hfirst. unfold primary_items_of.
    rewrite (find_first _ _ i r); auto.
    + unfold eqb. apply bool_decide_eq_true_2. exact Ht.
    + intros j r' Hj' Hl. unfold eqb. apply bool_decide_eq_false_2. eauto.
  - intros Hj. rewrite (answer_routed w st st' q k data d Hq Hroute).
    unfold orchestrate. rewrite Hp, Hr. unfold mbind at 1, Result_bind at 1.
    cbv beta iota. rewrite Hj. reflexivity.
Qed.

Lemma first_primary_step_surfaces_witness :
  (let w := world two_searches (quoting "f1") (quoting "llm") failing failing in
   let q := u "北京和上海的天气" in
   exists d res err,
     answer w cold q (u "auto") 5 ∅ = (cold, Ok (Answered q d res err))
     /\ key res = u "f1"
     /\ key_items res = [ {| title := u "f1"; url := []; snippet := u "北京天气" |} ]
     /\ (rec_input_q <$> default [] (steps res)) = [u "北京天气"; u "上海天气"])
  /\ (let w := set_world search_then_set in
      let q := u "北京天气，再算 set([1, 2, 3])" in
      exists d res err,
        answer w cold q (u "auto") 5 ∅ = (cold, Ok (Answered q d res err))
        /\ key res = u "f1"
        /\ key_items res = [ {| title := u "f1"; url := []; snippet := q |} ]
        /\ steps res = None).
Proof.
  split.
  - intros w q.
    edestruct (first_primary_step_surfaces w cold cold q 5 ∅)
      as (_ & _ & Hok & _);
      [vm_compute; discriminate | vm_compute; reflexivity | vm_compute; reflexivity
      | | vm_compute; reflexivity |].
    { apply List.Forall_cons; [reflexivity|]. apply List.Forall_cons; [reflexivity|].
      apply List.Forall_nil. }
    destruct Hok as (res & err & Ha & Hk & Hs & Hi); [vm_compute; reflexivity|].
    eexists _, res, err. split; [exact Ha|].
    split; [rewrite Hk; vm_compute; reflexivity|]. split.
    + rewrite (Hi 0%nat {| rec_id := u "s1"; rec_tool := u "f1";
                           rec_input_q := u "北京天气";
                           rec_output := {| items := [ {| title := u "f1"; url := [];
                                                          snippet := u "北京天气" |} ];
                                            result := None;
                                            text := Some (u "f1:北京天气");
                                            error := None |};
                           rec_json := true |}).
      * reflexivity.
      * vm_compute. reflexivity.
      * vm_compute. reflexivity.
      * intros j r' Hj. lia.
    + rewrite Hs. vm_compute. reflexivity.
  - intros w q.
    edestruct (first_primary_step_surfaces w cold cold q 5 ∅)
      as (_ & _ & _ & Hno);
      [vm_compute; discriminate | vm_compute; reflexivity | vm_compute; reflexivity
      | | vm_compute; reflexivity |].
    { apply List.Forall_cons; [reflexivity|]. apply List.Forall_cons; [reflexivity|].
      apply List.Forall_nil. }
    eexists _, _, _. split; [rewrite Hno; [|vm_compute; reflexivity]|].
    + vm_compute. reflexivity.
    + split; [vm_compute; reflexivity|]. split; vm_compute; reflexivity.
Defined.

(** ** The registry *)

(** C10. For an identifier that is none of the four registered ones,
    [dispatch] returns, whatever the handlers and the payload, the mapping
    with the error [unknown feature: <id>] and no items; and when the registry
    has an entry for the identifier, the identifier is one of the four and
    the result is the one of the handler of that entry. *)
Theorem dispatch_unknown_feature t target payload :
  (~ In target [u "f1"; u "llm"; u "f2"; u "f3"] ->
   dispatch t target payload
   = Ok {| items := []; result := None; text := None;
           error := Some (u "unknown feature: " ++ target) |})
  /\ (forall item, REGISTRY t !! target = Some item ->
        In target [u "f1"; u "llm"; u "f2"; u "f3"]
        /\ dispatch t target payload = handler item payload).
Proof.
  unfold dispatch, REGISTRY. split.
  - intros H.
    rewrite !lookup_insert_ne, lookup_empty; [reflexivity|..];
      intros E; apply H; rewrite <- E; simpl; auto.
  - intros item Hi. rewrite Hi. split; [|reflexivity].
    destruct (decide (u "f1" = target)) as [<-|N1]; [simpl; auto|].
    rewrite lookup_insert_ne in Hi by auto.
    destruct (decide (u "llm" = target)) as [<-|N2]; [simpl; auto|].
    rewrite lookup_insert_ne in Hi by auto.
    destruct (decide (u "f2" = target)) as [<-|N3]; [simpl; auto|].
    rewrite lookup_insert_ne in Hi by auto.
    destruct (decide (u "f3" = target)) as [<-|N4]; [simpl; auto|].
    rewrite lookup_insert_ne in Hi by auto.
    rewrite lookup_empty in Hi. discriminate.
Qed.

Lemma dispatch_unknown_feature_witness :
  dispatch {| f1_run := failing; llm_run := failing; f2_run := failing; f3_run := failing |}
           (u "hybrid2") (∅ : Payload)
  = Ok {| items := []; result := None; text := None;
          error := Some (u "unknown feature: hybrid2") |}.
Proof.
  apply (proj1 (dispatch_unknown_feature _ (u "hybrid2") ∅)).
  vm_compute. intuition discriminate.
Defined.

(** * Further properties *)

Import Sample2.

(** ** The decisions of the router *)

Module RouteFacts.

Lemma attach_fields p d :
  target (attach p d) = target d /\ confidence (attach p d) = confidence d
  /\ reasons (attach p d) = reasons d /\ slots (attach p d) = slots d
  /\ plan (attach p d) = match p with [] => plan d | _ :: _ => Some p end.
Proof. destruct p; simpl; auto. Qed.

Lemma mem_In x l : mem x l = true <-> In x l.
Proof.
  unfold mem. rewrite existsb_exists. split.
  - intros (y & Hy & E). unfold eqb in E. apply bool_decide_eq_true in E. subst; auto.
  - intros H. exists x. split; auto. unfold eqb. apply bool_decide_eq_true. reflexivity.
Qed.

Lemma eqb_eq (a b : pystr) : eqb a b = true <-> a = b.
Proof. unfold eqb. apply bool_decide_eq_true. Qed.

Lemma eqb_neq (a b : pystr) : eqb a b = false <-> a <> b.
Proof. unfold eqb. apply bool_decide_eq_false. Qed.

Lemma shaped_decision q t c rs :
  In t TOOLS -> (c <? 0.6)%float = false ->
  shaped q (decision t c rs (slots_for q t)).
Proof. intros Ht Hc. repeat split; auto. Qed.

Lemma shaped_attach q p d : shaped q d -> shaped q (attach p d).
Proof.
  unfold shaped. destruct (attach_fields p d) as (-> & -> & _ & -> & _). auto.
Qed.

Lemma py_max_floor c b :
  (b <? 0.6)%float = false -> (c <? 0.6)%float = false ->
  (py_max c b <? 0.6)%float = false.
Proof. intros Hb Hc. unfold py_max. destruct (c <? b)%float; auto. Qed.

Lemma known_tools :
  In (u "f1") TOOLS /\ In (u "f2") TOOLS /\ In (u "f3") TOOLS /\ In (u "llm") TOOLS.
Proof. vm_compute. auto 8. Qed.

Lemma by_rules_shaped q th r sc :
  shaped q (by_rules q th r sc) /\ plan (by_rules q th r sc) = None.
Proof.
  destruct known_tools as (K1 & K2 & K3 & K4).
  unfold by_rules.
  repeat match goal with
         | |- context [if ?b then decision _ _ _ _ else _] => destruct b
         end;
    (split; [|reflexivity]);
    first [ apply (shaped_decision q (u "f1")) | apply (shaped_decision q (u "f2"))
          | apply (shaped_decision q (u "f3")) | apply (shaped_decision q (u "llm")) ];
    auto.
Qed.

Lemma reconcile_shaped q th r sc tgt conf rs p :
  (conf <? 0.6)%float = false ->
  exists d0, reconcile q th r sc tgt conf rs p = attach p d0
             /\ shaped q d0 /\ plan d0 = None.
Proof.
  intros Hc.
  assert (F9 : (py_max conf 0.9 <? 0.6)%float = false) by (apply py_max_floor; auto).
  assert (F8 : (py_max conf 0.8 <? 0.6)%float = false) by (apply py_max_floor; auto).
  assert (F85 : (py_max conf 0.85 <? 0.6)%float = false) by (apply py_max_floor; auto).
  assert (F7 : (py_max conf 0.7 <? 0.6)%float = false) by (apply py_max_floor; auto).
  destruct known_tools as (K1 & K2 & K3 & K4).
  unfold reconcile.
  repeat match goal with
         | |- context [if ?b then attach _ _ else _] => destruct b
         end;
    eexists; (split; [reflexivity|]); (split; [|reflexivity]);
    first [ apply (shaped_decision q (u "f1")) | apply (shaped_decision q (u "f2"))
          | apply (shaped_decision q (u "f3")) | apply (shaped_decision q (u "llm")) ];
    auto.
Qed.

(** The tools are written in lower case. *)
Lemma lower_known t : In t TOOLS -> lower t = t.
Proof.
  intros H. vm_compute in H.
  repeat (destruct H as [<-|H]; [vm_compute; reflexivity|]). destruct H.
Qed.

Lemma keep_segments_known i l :
  Forall (fun s => In (seg_tool s) TOOLS /\ exists c r, seg_id s = c :: r)
         (keep_segments i l).
Proof.
  revert i. induction l as [|raw l IH]; intros i; cbn [keep_segments];
    [constructor|].
  destruct (mem (lower (default [] (raw_tool raw))) TOOLS) eqn:E; cbn [negb]; auto.
  constructor; auto. cbn [seg_tool seg_id]. split; [apply mem_In; auto|].
  assert (Hs : exists c r, u "s" ++ dec i = c :: r).
  { destruct (u "s") as [|c r] eqn:Eu; [vm_compute in Eu; discriminate|].
    exists c, (r ++ dec i). reflexivity. }
  destruct (raw_id raw) as [[|c r]|]; eauto.
Qed.

Lemma revalidate_known s :
  In (seg_tool s) TOOLS -> (exists c r, seg_id s = c :: r) ->
  In (step_tool (revalidate s)) TOOLS /\ exists c r, step_id (revalidate s) = Some (c :: r).
Proof.
  intros Ht (c & r & Hi). unfold revalidate. simpl. rewrite Hi. split; [|eauto].
  rewrite (lower_known _ Ht).
  destruct (_ && _); [apply known_tools | exact Ht].
Qed.

(** What [route] reads off a suggestion of [_llm_route]: a known target,
    and a plan of known steps. *)
Lemma suggested_known obj sug tgt conf rs p :
  _llm_route_obj obj = Some sug -> suggested sug = Ok (tgt, conf, rs, p) ->
  In tgt TOOLS /\ known_plan p.
Proof.
  unfold _llm_route_obj. intros H S.
  destruct (if eqb _ _ then obj_segments obj else None) as [segs|].
  - injection H as <-.
    pose proof (keep_segments_known 1 segs) as K.
    destruct (keep_segments 1 segs) as [|s segs'] eqn:E; [discriminate S|].
    assert (KP : known_plan (map revalidate (s :: segs'))).
    { unfold known_plan. apply Forall_map. eapply Forall_impl; [exact K|].
      cbv beta. intros x [A B]. apply revalidate_known; auto. }
    cbn [suggested] in S.
    destruct (primary_of (map revalidate (s :: segs'))) as [pr|e] eqn:Ep;
      [|discriminate S].
    unfold mbind, Result_bind in S. injection S as <- <- <- <-. split; auto.
    unfold primary_of in Ep.
    destruct (sorted_desc (map revalidate (s :: segs'))) as [|x l] eqn:Es;
      [discriminate Ep|]. injection Ep as ->.
    assert (HIn : forall l0 y, In y (sorted_desc l0) -> In y l0).
    { induction l0 as [|z l0 IH]; simpl; auto. intros y Hy.
      assert (HI : forall y z l', In y (insert_desc z l') -> y = z \/ In y l').
      { clear. intros y z l'. induction l' as [|w l' IH]; simpl.
        - intros [->|[]]; auto.
        - destruct (_ <? _)%float; simpl; intros [->|H]; auto.
          apply IH in H as [->|H]; auto. }
      apply HI in Hy as [->|Hy]; auto. }
    assert (Hx : In pr (map revalidate (s :: segs'))).
    { apply HIn. rewrite Es. left; reflexivity. }
    unfold known_plan in KP. rewrite List.Forall_forall in KP.
    apply (KP pr Hx).
  - destruct (mem _ TOOLS) eqn:E; [|discriminate H]. simpl in H.
    injection H as <-. simpl in S. injection S as <- <- <- <-.
    split; [apply mem_In; auto|constructor].
Qed.

(** The two ways [route] answers. *)
Lemma route_cases env st q d :
  snd (route env st q) = Ok d ->
  _detect_explicit q = Some d
  \/ (_detect_explicit q = None
      /\ exists r sc, snd (_kb_probe env st q None) = (r, sc)
         /\ merge q (default 0.35%float (KB_ROUTE_THRESHOLD env)) r sc
                  (_llm_route env q) = Ok d).
Proof.
  unfold route. destruct (_detect_explicit q) as [e|].
  - simpl. intros [= ->]. auto.
  - destruct (_kb_probe env st q None) as [st' [r sc]]. simpl. intros H.
    right. split; auto. exists r, sc. auto.
Qed.

Lemma explicit_shaped q d :
  _detect_explicit q = Some d -> shaped q d /\ plan d = None.
Proof.
  destruct known_tools as (K1 & K2 & K3 & K4).
  unfold _detect_explicit.
  repeat match goal with
         | |- context [if ?b then _ else _] => destruct b
         end; intros [= <-]; (split; [|reflexivity]);
    first [ apply (shaped_decision q (u "f1")) | apply (shaped_decision q (u "f2"))
          | apply (shaped_decision q (u "llm")) ]; auto.
Qed.

(** Every decision of [route] is shaped, and its plan, if any, is not empty
    and known. *)
Lemma route_shaped env st q d :
  snd (route env st q) = Ok d ->
  shaped q d /\ match plan d with
                | None => True
                | Some p => p <> [] /\ known_plan p
                end.
Proof.
  intros H. apply route_cases in H as [H|(_ & r & sc & _ & H)].
  - apply explicit_shaped in H as [S ->]. auto.
  - unfold merge in H. destruct (_llm_route env q) as [sug|] eqn:El.
    + destruct (suggested sug) as [[[[tgt conf] rs] p]|e] eqn:Es; [|discriminate H].
      assert (KP : known_plan p).
      { unfold _llm_route in El. destruct (negb _); [discriminate El|].
        destruct (llm_reply env q) as [obj|]; [|discriminate El]. simpl in El.
        eapply suggested_known; eauto. }
      unfold mbind, Result_bind in H. cbv beta iota in H.
      assert (PP : forall d0, plan d0 = None ->
                   match plan (attach p d0) with
                   | None => True
                   | Some p' => p' <> [] /\ known_plan p'
                   end).
      { intros d0 E0. destruct p as [|s p]; simpl; [rewrite E0; auto|].
        split; [discriminate|auto]. }
      destruct (conf <? 0.6)%float eqn:Ec; injection H as <-.
      * destruct (by_rules_shaped q (default 0.35%float (KB_ROUTE_THRESHOLD env)) r sc)
          as [S P].
        split; [apply shaped_attach; exact S | apply PP; exact P].
      * destruct (reconcile_shaped q (default 0.35%float (KB_ROUTE_THRESHOLD env))
                    r sc tgt conf rs p Ec) as (d0 & -> & S & P).
        split; [apply shaped_attach; exact S | apply PP; exact P].
    + injection H as <-.
      destruct (by_rules_shaped q (default 0.35%float (KB_ROUTE_THRESHOLD env)) r sc)
        as [S ->]. auto.
Qed.

End RouteFacts.
Import RouteFacts.

(** ** Signals and suggestions *)

Module SignalFacts.

(** No explicit pattern, no web word and no knowledge-base word can be
    written with the characters of a greeting. *)
Lemma greet_excludes_signals q :
  _is_greet q = true ->
  _detect_explicit q = None /\ web_signal q = false /\ kb_hint q = false.
Proof.
  intros H. apply greeting_alphabet in H.
  assert (N : forall r, escapesb GREET_ALPHABET r = true -> search r q = false).
  { intros r Hr. apply (no_match_in_alphabet GREET_ALPHABET); auto. }
  unfold _detect_explicit, web_signal, kb_hint.
  rewrite (N EXPLICIT_F2), (N EXPLICIT_F1), (N EXPLICIT_LLM), (N TIME_WORDS),
    (N WEATHER_HINT), (N NEWS_PRICE), (N KB_HINT); auto; vm_compute; reflexivity.
Qed.

(** The target [reconcile] chooses, as a table of the signals. *)
Lemma reconcile_target q th r sc tgt conf rs p :
  target (reconcile q th r sc tgt conf rs p) =
  let strong := r && (th <=? sc)%float in
  let w := web_signal q in
  let m := math_signal q in
  let k := kb_hint q in
  if eqb tgt (u "f1") then
    if w then u "f1" else if m then u "f3" else if strong || k then u "f2" else u "f1"
  else if eqb tgt (u "f2") then
    if strong then u "f2" else if w then u "f1" else if m then u "f3" else u "f2"
  else if eqb tgt (u "f3") then
    if m then u "f3" else if w then u "f1" else if strong || k then u "f2" else u "f3"
  else if _is_greet q || (_is_short_query q && negb w && negb m && negb k) then u "llm"
  else if w then u "f1" else if m then u "f3" else if strong || k then u "f2"
  else u "llm".
Proof.
  unfold reconcile. cbv zeta.
  repeat match goal with
         | |- context [if ?b then attach _ _ else _] => destruct b
         end;
    match goal with
    | |- target (attach ?p ?d) = _ =>
        destruct (attach_fields p d) as (-> & _); reflexivity
    end.
Qed.

(** The target of [by_rules], as a table of the signals. *)
Lemma by_rules_target q th r sc :
  target (by_rules q th r sc) =
  if _is_greet q then u "llm" else if _prefer_llm q then u "llm"
  else if math_signal q then u "f3" else if web_signal q then u "f1"
  else if r && (th <=? sc)%float then u "f2" else if kb_hint q then u "f2"
  else u "llm".
Proof.
  unfold by_rules.
  repeat match goal with
         | |- context [if ?b then decision _ _ _ _ else _] => destruct b
         end; reflexivity.
Qed.

(** The target of the decision, by the confident target of the suggestion. *)
Lemma route_target env st q d :
  _detect_explicit q = None -> snd (route env st q) = Ok d ->
  exists r sc, snd (_kb_probe env st q None) = (r, sc) /\
  let th := default 0.35%float (KB_ROUTE_THRESHOLD env) in
  target d = match confident_target env q with
             | None => target (by_rules q th r sc)
             | Some tgt => target (reconcile q th r sc tgt 0.6 [] [])
             end.
Proof.
  intros He H. apply route_cases in H as [H|(_ & r & sc & Hp & H)]; [congruence|].
  exists r, sc. split; auto. cbv zeta.
  unfold merge in H. unfold confident_target.
  destruct (_llm_route env q) as [sug|]; [|injection H as <-; reflexivity].
  destruct (suggested sug) as [[[[tgt conf] rs] p]|e]; [|discriminate H].
  unfold mbind, Result_bind in H. cbv beta iota in H.
  destruct (conf <? 0.6)%float; injection H as <-.
  - destruct (attach_fields p (append_reason (u "rule:override-llm-lowconf")
       (by_rules q (default 0.35%float (KB_ROUTE_THRESHOLD env)) r sc))) as (-> & _).
    reflexivity.
  - rewrite !reconcile_target. reflexivity.
Qed.

End SignalFacts.
Import SignalFacts.

(** X1. Whatever the language model replies, a decision of [route] names
    one of the four tools, and a plan, when the decision carries one, is not
    empty and each of its steps has an identifier and names one of the four
    tools. *)
Theorem route_names_known_tools env st q d :
  snd (route env st q) = Ok d ->
  In (target d) TOOLS
  /\ forall p, plan d = Some p -> p <> [] /\ known_plan p.
Proof.
  intros H. apply route_shaped in H as [(T & _) P]. split; auto.
  intros p E. rewrite E in P. exact P.
Qed.

Lemma route_names_known_tools_witness :
  exists d,
    snd (route (reply_env (Some weather_then_line)) cold
           (u "查一下上海天气然后写一句话")) = Ok d
    /\ In (target d) TOOLS
    /\ forall p, plan d = Some p -> p <> [] /\ known_plan p.
Proof.
  eexists. split; [vm_compute; reflexivity|].
  apply (route_names_known_tools (reply_env (Some weather_then_line)) cold
           (u "查一下上海天气然后写一句话")).
  vm_compute; reflexivity.
Defined.

(** X2. No decision of [route] has a confidence that compares below 0.6:
    a suggestion below 0.6 is replaced by the decision of the rules, whose
    confidences are constants from 0.7 to 0.98, and reconciliation only
    raises the suggested confidence or replaces it by such a constant. *)
Theorem route_confidence_floor env st q d :
  snd (route env st q) = Ok d -> (confidence d <? 0.6)%float = false.
Proof.
  intros H. apply route_shaped in H as [(_ & C & _) _]. exact C.
Qed.

Lemma route_confidence_floor_witness :
  exists d,
    snd (route (reply_env (Some (single_reply "llm" 0.61))) cold
           (u "帮我想个名字给新开的咖啡店")) = Ok d
    /\ (confidence d <? 0.6)%float = false.
Proof.
  eexists. split; [vm_compute; reflexivity|].
  apply (route_confidence_floor (reply_env (Some (single_reply "llm" 0.61))) cold
           (u "帮我想个名字给新开的咖啡店")).
  vm_compute; reflexivity.
Defined.

(** X3. Only a decision for web search carries slots: the slots of a
    decision of [route] are those extracted from the query when its target
    is f1, and the empty dictionary for every other target. *)
Theorem route_slots_only_for_web_search env st q d :
  snd (route env st q) = Ok d ->
  slots d = if eqb (target d) (u "f1") then _extract_slots q else ∅.
Proof.
  intros H. apply route_shaped in H as [(_ & _ & S) _]. exact S.
Qed.

Lemma route_slots_only_for_web_search_witness :
  exists d,
    snd (route (reply_env None) cold (u "明天北京天气怎么样")) = Ok d
    /\ slots d = if eqb (target d) (u "f1")
                 then _extract_slots (u "明天北京天气怎么样") else ∅.
Proof.
  eexists. split; [vm_compute; reflexivity|].
  apply (route_slots_only_for_web_search (reply_env None) cold (u "明天北京天气怎么样")).
  vm_compute; reflexivity.
Defined.

(** X4. A greeting is answered by the model itself: when the query is a
    greeting and the language model suggests nothing usable, or suggests
    llm, the decision targets llm and gives the reason greet, whatever the
    knowledge base scores. The confidences of a decomposition are taken to
    be numbers. *)
Theorem greeting_is_answered_by_llm env st q d :
  _is_greet q = true ->
  numeric_reply env q ->
  confident_target env q = None \/ confident_target env q = Some (u "llm") ->
  snd (route env st q) = Ok d ->
  target d = u "llm" /\ In (u "greet") (reasons d).
Proof.
  intros G _ C H.
  destruct (greet_excludes_signals q G) as (E & W & K).
  pose proof (greet_excludes_math q G) as M.
  apply route_cases in H as [H|(_ & r & sc & _ & H)]; [congruence|].
  unfold merge in H. unfold confident_target in C.
  destruct (_llm_route env q) as [sug|].
  - destruct (suggested sug) as [[[[tgt conf] rs] p]|e]; [|discriminate H].
    unfold mbind, Result_bind in H. cbv beta iota in H.
    destruct (conf <? 0.6)%float; injection H as <-.
    + destruct (attach_fields p (append_reason (u "rule:override-llm-lowconf")
         (by_rules q (default 0.35%float (KB_ROUTE_THRESHOLD env)) r sc)))
        as (-> & _ & -> & _).
      unfold by_rules. rewrite G. simpl. auto.
    + destruct C as [C|C]; [discriminate C|]. injection C as ->.
      unfold reconcile. rewrite G.
      replace (eqb (u "llm") (u "f1")) with false by (vm_compute; reflexivity).
      replace (eqb (u "llm") (u "f2")) with false by (vm_compute; reflexivity).
      replace (eqb (u "llm") (u "f3")) with false by (vm_compute; reflexivity).
      cbn [orb].
      match goal with
      | |- target (attach ?p ?d) = _ /\ _ =>
          destruct (attach_fields p d) as (-> & _ & -> & _)
      end.
      split; [reflexivity|]. cbn [reasons decision]. apply in_or_app. right. left.
      reflexivity.
  - injection H as <-. unfold by_rules. rewrite G. simpl. auto.
Qed.

Lemma greeting_is_answered_by_llm_witness :
  exists d,
    snd (route (reply_env (Some joke_then_quotes)) cold (u "你好！")) = Ok d
    /\ target d = u "llm" /\ In (u "greet") (reasons d).
Proof.
  eexists. split; [vm_compute; reflexivity|].
  apply (greeting_is_answered_by_llm (reply_env (Some joke_then_quotes)) cold
           (u "你好！")).
  - vm_compute; reflexivity.
  - vm_compute. apply List.Forall_cons; [reflexivity|].
    apply List.Forall_cons; [reflexivity|]. apply List.Forall_nil.
  - right. vm_compute; reflexivity.
  - vm_compute; reflexivity.
Defined.

(** X5. A query with a web signal and no math signal (and no explicit
    pattern) goes to web search, with one exception: a suggestion of f2 of
    confidence at least 0.6 is kept when the knowledge base is ready and
    scores at or above the threshold. The confidences of a decomposition are
    taken to be numbers. *)
Theorem web_signal_selects_f1 env st q d :
  _detect_explicit q = None -> web_signal q = true -> math_signal q = false ->
  numeric_reply env q ->
  snd (route env st q) = Ok d ->
  target d = if bool_decide (confident_target env q = Some (u "f2")) && strong_kb env st q
             then u "f2" else u "f1".
Proof.
  intros E W M _ H.
  destruct (route_target env st q d E H) as (r & sc & Hp & ->). cbv zeta.
  unfold strong_kb. rewrite Hp.
  assert (G : _is_greet q = false).
  { destruct (_is_greet q) eqn:G; auto.
    destruct (greet_excludes_signals q G) as (_ & W' & _). congruence. }
  destruct (confident_target env q) as [tgt|].
  - rewrite reconcile_target. cbv zeta. rewrite W, M, G.
    destruct (eqb tgt (u "f1")) eqn:E1.
    { apply eqb_eq in E1. subst tgt. reflexivity. }
    destruct (eqb tgt (u "f2")) eqn:E2.
    { apply eqb_eq in E2. subst tgt. rewrite bool_decide_eq_true_2 by reflexivity.
      destruct (r && _); reflexivity. }
    apply eqb_neq in E2.
    rewrite bool_decide_eq_false_2 by congruence.
    destruct (eqb tgt (u "f3")); [reflexivity|].
    rewrite !andb_false_r. reflexivity.
  - rewrite by_rules_target. unfold _prefer_llm. rewrite W, M, G.
    rewrite andb_false_r. reflexivity.
Qed.

Lemma web_signal_selects_f1_witness :
  exists d,
    snd (route (reply_env (Some joke_then_quotes)) cold (u "今天有什么新闻")) = Ok d
    /\ target d = u "f1".
Proof.
  eexists. split; [vm_compute; reflexivity|].
  apply (web_signal_selects_f1 (reply_env (Some joke_then_quotes)) cold
           (u "今天有什么新闻")); try (vm_compute; reflexivity).
  vm_compute. apply List.Forall_cons; [reflexivity|].
  apply List.Forall_cons; [reflexivity|]. apply List.Forall_nil.
Defined.

(** X6. A query with a math signal and no web signal (and no explicit
    pattern) goes to the Python tool whatever the language model suggests,
    with the same exception: a suggestion of f2 of confidence at least 0.6
    is kept when the knowledge base is ready and scores at or above the
    threshold. The confidences of a decomposition are taken to be
    numbers. *)
Theorem math_signal_overrides_suggestion env st q d :
  _detect_explicit q = None -> math_signal q = true -> web_signal q = false ->
  numeric_reply env q ->
  snd (route env st q) = Ok d ->
  target d = if bool_decide (confident_target env q = Some (u "f2")) && strong_kb env st q
             then u "f2" else u "f3".
Proof.
  intros E M W _ H.
  destruct (route_target env st q d E H) as (r & sc & Hp & ->). cbv zeta.
  unfold strong_kb. rewrite Hp.
  assert (G : _is_greet q = false).
  { destruct (_is_greet q) eqn:G; auto.
    pose proof (greet_excludes_math q G). congruence. }
  destruct (confident_target env q) as [tgt|].
  - rewrite reconcile_target. cbv zeta. rewrite W, M, G.
    destruct (eqb tgt (u "f1")) eqn:E1.
    { apply eqb_eq in E1. subst tgt. reflexivity. }
    destruct (eqb tgt (u "f2")) eqn:E2.
    { apply eqb_eq in E2. subst tgt. rewrite bool_decide_eq_true_2 by reflexivity.
      destruct (r && _); reflexivity. }
    apply eqb_neq in E2.
    rewrite bool_decide_eq_false_2 by congruence.
    destruct (eqb tgt (u "f3")); [reflexivity|].
    rewrite !andb_false_r. reflexivity.
  - rewrite by_rules_target. unfold _prefer_llm. rewrite W, M, G.
    rewrite andb_false_r. reflexivity.
Qed.

Lemma math_signal_overrides_suggestion_witness :
  exists d,
    snd (route (reply_env (Some joke_then_quotes)) cold
           (u "求导数 x^2 在 x=3 处的值")) = Ok d
    /\ target d = u "f3".
Proof.
  eexists. split; [vm_compute; reflexivity|].
  apply (math_signal_overrides_suggestion (reply_env (Some joke_then_quotes))
           cold (u "求导数 x^2 在 x=3 处的值")); try (vm_compute; reflexivity).
  vm_compute. apply List.Forall_cons; [reflexivity|].
  apply List.Forall_cons; [reflexivity|]. apply List.Forall_nil.
Defined.

(** X7. When a query carries both a web signal and a math signal (and no
    explicit pattern), the rules alone choose the Python tool, but a
    suggestion of confidence at least 0.6 turns the decision to web search
    unless it names f3 itself, or names f2 with a knowledge base that is
    ready and scores at or above the threshold. The confidences of a
    decomposition are taken to be numbers. *)
Theorem web_and_math_signals env st q d :
  _detect_explicit q = None -> web_signal q = true -> math_signal q = true ->
  numeric_reply env q ->
  snd (route env st q) = Ok d ->
  target d = match confident_target env q with
             | None => u "f3"
             | Some t =>
                 if eqb t (u "f3") then u "f3"
                 else if eqb t (u "f2") && strong_kb env st q then u "f2"
                 else u "f1"
             end.
Proof.
  intros E W M _ H.
  destruct (route_target env st q d E H) as (r & sc & Hp & ->). cbv zeta.
  unfold strong_kb. rewrite Hp.
  assert (G : _is_greet q = false).
  { destruct (_is_greet q) eqn:G; auto.
    pose proof (greet_excludes_math q G). congruence. }
  destruct (confident_target env q) as [tgt|].
  - rewrite reconcile_target. cbv zeta. rewrite W, M, G.
    destruct (eqb tgt (u "f1")) eqn:E1.
    { apply eqb_eq in E1. subst tgt. reflexivity. }
    destruct (eqb tgt (u "f2")) eqn:E2.
    { apply eqb_eq in E2. subst tgt. destruct (r && _); reflexivity. }
    destruct (eqb tgt (u "f3")); [reflexivity|].
    rewrite !andb_false_r. reflexivity.
  - rewrite by_rules_target. unfold _prefer_llm. rewrite W, M, G.
    rewrite andb_false_r. reflexivity.
Qed.

Lemma web_and_math_signals_witness :
  (exists d,
    snd (route (reply_env None) cold (u "计算今天的汇率 100*7.2")) = Ok d
    /\ target d = u "f3")
  /\ (exists d,
    snd (route (reply_env (Some joke_then_quotes)) cold
           (u "计算今天的汇率 100*7.2")) = Ok d
    /\ target d = u "f1").
Proof.
  split.
  - eexists. split; [vm_compute; reflexivity|].
    apply (web_and_math_signals (reply_env None) cold (u "计算今天的汇率 100*7.2"));
      vm_compute; reflexivity.
  - eexists. split; [vm_compute; reflexivity|].
    apply (web_and_math_signals (reply_env (Some joke_then_quotes)) cold
             (u "计算今天的汇率 100*7.2")); try (vm_compute; reflexivity).
    vm_compute. apply List.Forall_cons; [reflexivity|].
    apply List.Forall_cons; [reflexivity|]. apply List.Forall_nil.
Defined.

(** X30. The [KeyError] of the missing key target has one cause only: when
    [route] raises it, no explicit pattern matched and the suggestion is a
    decomposition none of whose segments was kept. *)
Theorem route_raises_only_on_empty_decomposition env st q :
  snd (route env st q) = Raise (KeyError "target") ->
  _detect_explicit q = None
  /\ exists c r, _llm_route env q = Some (Multi [] c r).
Proof.
  unfold route. destruct (_detect_explicit q) as [d|]; [discriminate|].
  destruct (_kb_probe env st q None) as [st' [r sc]]. cbn [snd]. unfold merge.
  destruct (_llm_route env q) as [[t c rs|segs c rs]|].
  - cbn [suggested]. unfold mbind, Result_bind. cbv beta iota.
    destruct (c <? 0.6)%float; discriminate.
  - destruct segs as [|s segs].
    + intros _. split; [reflexivity|]. eauto.
    + cbn [suggested]. change (map revalidate (s :: segs))
        with (revalidate s :: map revalidate segs).
      rewrite primary_cons.
      destruct (primary_of (map revalidate segs)) as [p|e0];
        unfold mbind, Result_bind; cbv beta iota;
        destruct (_ <? 0.6)%float; discriminate.
  - discriminate.
Qed.

Lemma route_raises_only_on_empty_decomposition_witness :
  exists c r,
    _llm_route (reply_env (Some no_segment_kept)) (u "讲个笑话") = Some (Multi [] c r).
Proof.
  apply (route_raises_only_on_empty_decomposition
           (reply_env (Some no_segment_kept)) cold (u "讲个笑话")).
  vm_compute. reflexivity.
Defined.

(** ** The probe *)

(** X8. A probe that does not find the knowledge base ready scores 0.0,
    and it leaves the cache as it was unless it has just loaded the index
    and the query on it failed: the files were there, the cache was stale,
    the load returned, and the cache now holds the new index with the
    knowledge base and the two modification times. When the index library is
    missing or one of the two index files does not exist, nothing is
    constructed either. *)
Theorem probe_not_ready env st q kb :
  fst (snd (_kb_probe env st q kb)) = false ->
  let K := probed_kb env kb in
  let st' := fst (_kb_probe env st q kb) in
  snd (snd (_kb_probe env st q kb)) = 0.0%float
  /\ (cache st' = cache st
      \/ exists m1 m2,
           meta_mtime env K = Some m1 /\ index_mtime env K = Some m2
           /\ need_reload (cache st) K m1 m2 = true
           /\ load_returns env K = true
           /\ st' = {| cache := {| kb_id := Some K;
                                   idx := Some {| obj_id := constructed st;
                                                  kb_dir := K |};
                                   mt_meta := m1; mt_index := m2 |};
                       constructed := S (constructed st) |}
           /\ query_top1 env {| obj_id := constructed st; kb_dir := K |} q = None)
  /\ (_KB_AVAILABLE env = false \/ meta_mtime env K = None
      \/ index_mtime env K = None ->
      st' = st).
Proof.
  intros H K st'. revert H. unfold st'. clear st'.
  unfold _kb_probe. fold (probed_kb env kb). fold K.
  destruct (_KB_AVAILABLE env); cbn [negb]; [|auto].
  destruct (meta_mtime env K) as [m1|]; [|auto].
  destruct (index_mtime env K) as [m2|]; [|auto].
  destruct (need_reload (cache st) K m1 m2) eqn:Rl.
  - destruct (load_returns env K) eqn:L; cbn [idx cache fst snd].
    + destruct (query_top1 env _ q) as [[s|]|] eqn:Q; cbn [fst snd]; intros H;
        try discriminate H.
      split; [reflexivity|]. split.
      * right. exists m1, m2. auto 10.
      * intros [C|[C|C]]; discriminate C.
    + intros _. split; [reflexivity|]. split; [left; reflexivity|].
      intros [C|[C|C]]; discriminate C.
  - destruct (idx (cache st)) as [i|]; cbn [fst snd].
    + destruct (query_top1 env i q) as [[s|]|]; cbn [fst snd]; intros H;
        try discriminate H.
      split; [reflexivity|]. split; [left; reflexivity|]. intros _. reflexivity.
    + intros _. split; [reflexivity|]. split; [left; reflexivity|]. intros _. reflexivity.
Qed.

Lemma probe_not_ready_witness :
  (snd (snd (_kb_probe (kb_env false 10.0 20.0) cold (u "报销制度") None)) = 0.0%float
   /\ cache (fst (_kb_probe (kb_env false 10.0 20.0) cold (u "报销制度") None))
      = cache cold)
  /\ (snd (snd (_kb_probe silent_env cold (u "报销制度") None)) = 0.0%float
      /\ cache (fst (_kb_probe silent_env cold (u "报销制度") None))
         = {| kb_id := Some (u "default");
              idx := Some {| obj_id := 0; kb_dir := u "default" |};
              mt_meta := 10.0; mt_index := 20.0 |}).
Proof.
  split.
  - destruct (probe_not_ready (kb_env false 10.0 20.0) cold (u "报销制度") None)
      as (A & [B|(m1 & m2 & _ & _ & _ & B & _)] & _).
    + vm_compute; reflexivity.
    + split; [exact A | exact B].
    + vm_compute in B. discriminate B.
  - destruct (probe_not_ready silent_env cold (u "报销制度") None)
      as (A & [B|(m1 & m2 & M1 & M2 & _ & _ & B & _)] & _).
    + vm_compute; reflexivity.
    + vm_compute in B. discriminate B.
    + split; [exact A|]. rewrite B.
      vm_compute in M1. vm_compute in M2. injection M1 as <-. injection M2 as <-.
      vm_compute. reflexivity.
Defined.

(** X9. A probe that finds the knowledge base ready has queried an index
    that the cache holds for the knowledge base asked for, recorded with
    the modification times the two index files have now. *)
Theorem probe_ready_is_current env st q kb :
  fst (snd (_kb_probe env st q kb)) = true ->
  let c := cache (fst (_kb_probe env st q kb)) in
  kb_id c = Some (probed_kb env kb)
  /\ (exists i, idx c = Some i /\ query_top1 env i q <> None)
  /\ exists m_meta m_index,
       meta_mtime env (probed_kb env kb) = Some m_meta
       /\ index_mtime env (probed_kb env kb) = Some m_index
       /\ (mt_meta c = m_meta \/ (mt_meta c =? m_meta)%float = true)
       /\ (mt_index c = m_index \/ (mt_index c =? m_index)%float = true).
Proof.
  unfold _kb_probe. fold (probed_kb env kb).
  destruct (_KB_AVAILABLE env); cbn [negb]; [|discriminate].
  destruct (meta_mtime env (probed_kb env kb)) as [m1|]; [|discriminate].
  destruct (index_mtime env (probed_kb env kb)) as [m2|]; [|discriminate].
  destruct (need_reload (cache st) (probed_kb env kb) m1 m2) eqn:N.
  - destruct (load_returns env (probed_kb env kb)); cbn [idx cache fst snd];
      [|discriminate].
    destruct (query_top1 env _ q) as [[s|]|] eqn:Q; cbn [fst snd]; intros H;
      try discriminate H; cbn [cache kb_id idx mt_meta mt_index];
      (split; [reflexivity|]);
      (split; [eexists; split; [reflexivity|rewrite Q; discriminate]|]);
      exists m1, m2; auto.
  - unfold need_reload in N.
    apply orb_false_iff in N as [N N4]. apply orb_false_iff in N as [N N3].
    apply orb_false_iff in N as [N1 N2].
    apply negb_false_iff in N3, N4.
    unfold py_str_ne in N2. apply negb_false_iff, bool_decide_eq_true in N2.
    destruct (idx (cache st)) as [i|] eqn:I; cbn [fst snd]; [|discriminate].
    destruct (query_top1 env i q) as [[s|]|] eqn:Q; cbn [fst snd]; intros H;
      try discriminate H;
      (split; [exact N2|]);
      (split; [exists i; split; [exact I|rewrite Q; discriminate]|]);
      exists m1, m2; auto.
Qed.

Lemma probe_ready_is_current_witness :
  kb_id (cache (fst (_kb_probe (kb_env true 10.0 20.0) cold (u "报销制度") None)))
  = Some (u "default").
Proof.
  destruct (probe_ready_is_current (kb_env true 10.0 20.0) cold (u "报销制度") None)
    as (A & _).
  - vm_compute; reflexivity.
  - exact A.
Defined.

(** X10. The cache stays consistent: from a state in which the cached index
    is the one of the cached knowledge base and was constructed earlier, a
    probe, and so a call of [route], leads to such a state again, and the
    number of indexes constructed never decreases. *)
Theorem probe_keeps_cache_consistent env st q kb :
  cache_consistent st ->
  cache_consistent (fst (_kb_probe env st q kb))
  /\ cache_consistent (fst (route env st q))
  /\ (constructed st <= constructed (fst (_kb_probe env st q kb)))%nat.
Proof.
  intros C.
  assert (P : forall kb0, cache_consistent (fst (_kb_probe env st q kb0))
                          /\ (constructed st <= constructed (fst (_kb_probe env st q kb0)))%nat).
  { intros kb0. unfold _kb_probe. fold (probed_kb env kb0).
    destruct (negb (_KB_AVAILABLE env)); [auto|].
    destruct (meta_mtime env (probed_kb env kb0)) as [m1|]; [|auto].
    destruct (index_mtime env (probed_kb env kb0)) as [m2|]; [|auto].
    destruct (need_reload (cache st) (probed_kb env kb0) m1 m2).
    - destruct (load_returns env (probed_kb env kb0)); cbn [idx cache fst snd].
      + destruct (query_top1 env _ q) as [[s|]|]; cbn [fst];
          (split; [unfold cache_consistent; cbn; split; [reflexivity|lia] | cbn; lia]).
      + split; [|cbn; lia]. unfold cache_consistent in *. cbn [cache constructed].
        destruct (idx (cache st)) as [i|]; auto. destruct C as [A B]. split; auto.
    - destruct (idx (cache st)) as [i|] eqn:I; cbn [fst].
      + destruct (query_top1 env i q) as [[s|]|]; cbn [fst]; auto.
      + auto. }
  split; [apply P|]. split; [|apply P].
  unfold route. destruct (_detect_explicit q); [exact C|].
  destruct (P None) as [A _].
  destruct (_kb_probe env st q None) as [st' [r sc]]. exact A.
Qed.

Lemma probe_keeps_cache_consistent_witness :
  cache_consistent (fst (_kb_probe (kb_env true 10.0 20.0) cold (u "报销制度") None))
  /\ cache_consistent (fst (route (kb_env true 10.0 20.0) cold (u "报销制度")))
  /\ (constructed cold
      <= constructed (fst (_kb_probe (kb_env true 10.0 20.0) cold (u "报销制度") None)))%nat.
Proof.
  apply (probe_keeps_cache_consistent (kb_env true 10.0 20.0) cold (u "报销制度") None).
  exact I.
Defined.

(** ** The segments of a suggestion *)

(** X11. [_llm_route] keeps the segments whose tool, in lower case, is one
    of the four, in the order of the reply and with that tool; a segment
    without identifier is named after its position in the reply, the
    segments dropped before it counted. *)
Theorem kept_segments_are_the_known_ones i segs_in :
  map seg_tool (keep_segments i segs_in)
  = filter (fun t => mem t TOOLS = true) (map raw_tool_name segs_in)
  /\ forall n raw,
       segs_in !! n = Some raw -> mem (raw_tool_name raw) TOOLS = true ->
       exists s, In s (keep_segments i segs_in)
                 /\ seg_tool s = raw_tool_name raw
                 /\ seg_q s = default [] (raw_q raw)
                 /\ seg_id s = match raw_id raw with
                               | Some (c :: r) => c :: r
                               | _ => u "s" ++ dec (i + N.of_nat n)
                               end.
Proof.
  revert i. induction segs_in as [|raw0 l IH]; intros i.
  - split; [reflexivity|]. intros n raw H. destruct n; discriminate H.
  - destruct (IH (i + 1)) as [IH1 IH2]. cbn [keep_segments map].
    fold (raw_tool_name raw0). rewrite filter_cons.
    destruct (mem (raw_tool_name raw0) TOOLS) eqn:E; cbn [negb].
    + rewrite decide_True by reflexivity. split.
      * cbn [map seg_tool]. f_equal. exact IH1.
      * intros [|n] raw H K.
        -- injection H as <-. eexists. split; [left; reflexivity|].
           cbn [seg_tool seg_q seg_id]. rewrite N.add_0_r. auto.
        -- destruct (IH2 n raw H K) as (s & Hs & A & B & D).
           exists s. split; [right; exact Hs|]. split; [exact A|]. split; [exact B|].
           rewrite D. replace (i + 1 + N.of_nat n) with (i + N.of_nat (S n)) by lia.
           reflexivity.
    + rewrite decide_False by discriminate. split; [exact IH1|].
      intros [|n] raw H K.
      * injection H as <-. congruence.
      * destruct (IH2 n raw H K) as (s & Hs & A & B & D).
        exists s. split; [exact Hs|]. split; [exact A|]. split; [exact B|].
        rewrite D. replace (i + 1 + N.of_nat n) with (i + N.of_nat (S n)) by lia.
        reflexivity.
Qed.

(** ** The slots *)

Module SlotFacts.

Lemma word_at_spec ws s w :
  word_at ws s = Some w -> In w ws /\ exists post, s = w ++ post.
Proof.
  unfold word_at. intros H. apply find_some in H as [Hin Hb].
  apply bool_decide_eq_true in Hb. split; auto.
  exists (drop (length w) s). rewrite <- Hb at 1. symmetry. apply take_drop.
Qed.

Lemma word_at_none ws s w post :
  word_at ws s = None -> In w ws -> s <> w ++ post.
Proof.
  unfold word_at. intros H Hin E.
  apply (find_none _ _ H) in Hin. apply bool_decide_eq_false in Hin.
  apply Hin. subst s. apply take_app_length.
Qed.

(** [search_word] finds the leftmost occurrence of a word of the list. *)
Lemma search_word_spec ws s w :
  search_word ws s = Some w ->
  In w ws /\ exists pre post, s = pre ++ w ++ post
    /\ forall pre' w' post', s = pre' ++ w' ++ post' -> In w' ws ->
       (length pre <= length pre')%nat.
Proof.
  induction s as [|c s IH]; cbn [search_word].
  - destruct (word_at ws []) as [w0|] eqn:E; [|discriminate].
    intros [= ->]. apply word_at_spec in E as [Hin [post E]]. split; auto.
    exists [], post. split; auto. intros; simpl; lia.
  - destruct (word_at ws (c :: s)) as [w0|] eqn:E.
    + intros [= ->]. apply word_at_spec in E as [Hin [post E]]. split; auto.
      exists [], post. split; auto. intros; simpl; lia.
    + intros H. destruct (IH H) as (Hin & pre & post & -> & L). split; auto.
      exists (c :: pre), post. split; auto.
      intros pre' w' post' E' Hin'. destruct pre' as [|c' pre'].
      * exfalso. exact (word_at_none _ _ _ _ E Hin' E').
      * simpl in E'. injection E' as <- E'. simpl.
        specialize (L pre' w' post' E' Hin'). lia.
Qed.

Lemma search_word_none ws s pre w post :
  search_word ws s = None -> In w ws -> s <> pre ++ w ++ post.
Proof.
  revert pre. induction s as [|c s IH]; intros pre; cbn [search_word].
  - destruct (word_at ws []) as [w0|] eqn:E; [discriminate|]. intros _ Hin E'.
    destruct pre; [|discriminate E'].
    exact (word_at_none _ _ _ _ E Hin E').
  - destruct (word_at ws (c :: s)) as [w0|] eqn:E; [discriminate|]. intros H Hin E'.
    destruct pre as [|c' pre].
    + exact (word_at_none _ _ _ _ E Hin E').
    + simpl in E'. injection E' as <- E'. exact (IH pre H Hin E').
Qed.

Lemma search_words_iff ws s :
  search (words ws) s = true <->
  exists pre w post, s = pre ++ w ++ post /\ In w (map u ws).
Proof.
  rewrite search_spec. split.
  - intros (pre & m & post & -> & Hm). apply matches_words in Hm as (w & Hin & ->).
    exists pre, (u w), post. split; auto. apply in_map; auto.
  - intros (pre & w & post & -> & Hin). apply in_map_iff in Hin as (w0 & <- & Hin).
    exists pre, (u w0), post. split; auto. apply matches_words. eauto.
Qed.

Lemma slots_when q : _extract_slots q !! "when" = slot_when q.
Proof.
  unfold _extract_slots. rewrite lookup_insert_ne by discriminate.
  destruct (slot_location q) as [l|]; cbn [set_opt];
    [rewrite lookup_insert_ne by discriminate|];
    (destruct (slot_when q) as [w|]; cbn [set_opt];
     [apply lookup_insert_eq | apply lookup_empty]).
Qed.

Lemma slots_location q : _extract_slots q !! "location" = slot_location q.
Proof.
  unfold _extract_slots. rewrite lookup_insert_ne by discriminate.
  destruct (slot_location q) as [l|]; cbn [set_opt].
  - apply lookup_insert_eq.
  - destruct (slot_when q) as [w|]; cbn [set_opt];
      [rewrite lookup_insert_ne by discriminate|]; apply lookup_empty.
Qed.

Lemma times_han n s :
  matches false (times n HAN) s -> length s = n /\ Forall is_han s.
Proof.
  revert s. induction n as [|n IH]; intros s; cbn [times]; intros H.
  - apply matches_eps_inv in H. subst. split; [reflexivity|constructor].
  - apply matches_cat_inv in H as (s1 & s2 & -> & H1 & H2).
    apply matches_set_inv in H1 as (x & -> & Hx).
    apply IH in H2 as [L F]. split; [simpl; congruence|].
    constructor; auto.
    unfold set_match in Hx. cbn in Hx. rewrite orb_false_r in Hx.
    apply andb_true_iff in Hx as [A B]. apply N.leb_le in A, B.
    split; assumption.
Qed.

Lemma han_group_at_spec tail s n :
  han_group_at tail s = Some n ->
  (2 <= n <= 8)%nat /\ length (take n s) = n /\ Forall is_han (take n s)
  /\ prefix_match false tail (drop n s) = true.
Proof.
  unfold han_group_at. intros H. apply find_some in H as [Hin Hb].
  apply andb_true_iff in Hb as [Hb Hp]. apply andb_true_iff in Hb as [Hl Ha].
  apply bool_decide_eq_true in Hl. apply accepts_matches in Ha.
  apply times_han in Ha as [_ F].
  split; [|auto].
  simpl in Hin. repeat (destruct Hin as [<-|Hin]; [lia|]). destruct Hin.
Qed.

Lemma han_group_search_spec tail s s' n :
  han_group_search tail s = Some (s', n) ->
  (exists pre, s = pre ++ s') /\ han_group_at tail s' = Some n.
Proof.
  induction s as [|c s IH]; cbn [han_group_search].
  - destruct (han_group_at tail []) as [n0|] eqn:E; [|discriminate].
    intros [= <- <-]. split; auto. exists []; reflexivity.
  - destruct (han_group_at tail (c :: s)) as [n0|] eqn:E.
    + intros [= <- <-]. split; auto. exists []; reflexivity.
    + intros H. destruct (IH H) as [[pre ->] A]. split; auto.
      exists (c :: pre); reflexivity.
Qed.

End SlotFacts.
Import SlotFacts.

(** X12. The slot [when] goes with the time signal: it is set exactly when
    the query contains one of the six time words, and it is then the one
    that occurs leftmost in the query. *)
Theorem when_slot_is_the_first_time_word q :
  match _extract_slots q !! "when" with
  | Some w =>
      search TIME_WORDS q = true /\ In w TIME_WORD_LIST
      /\ exists pre post, q = pre ++ w ++ post
         /\ forall pre' w' post', q = pre' ++ w' ++ post' -> In w' TIME_WORD_LIST ->
            (length pre <= length pre')%nat
  | None => search TIME_WORDS q = false
  end.
Proof.
  rewrite slots_when. unfold slot_when. fold TIME_WORD_LIST.
  destruct (search_word TIME_WORD_LIST q) as [w|] eqn:E.
  - apply search_word_spec in E as (Hin & pre & post & Eq & L).
    split; [|split; [exact Hin|exists pre, post; auto]].
    apply search_words_iff. exists pre, w, post. auto.
  - destruct (search TIME_WORDS q) eqn:S; [|reflexivity].
    apply search_words_iff in S as (pre & w & post & Eq & Hin).
    destruct (search_word_none _ _ pre w post E Hin Eq).
Qed.

(** X13. A location slot is a run of two to nine Chinese characters of the
    query that a weather word follows (after an optional administrative
    suffix and an optional 的), or whose last character is one of the
    administrative suffixes 市, 省, 区, 县. *)
Theorem location_slot_shape q loc :
  _extract_slots q !! "location" = Some loc ->
  Forall is_han loc /\ (2 <= length loc <= 9)%nat
  /\ exists pre post, q = pre ++ loc ++ post
     /\ (prefix_match false WEATHER_TAIL post = true
         \/ exists c, last loc = Some c /\ In c (u "市省区县")).
Proof.
  rewrite slots_location. unfold slot_location.
  destruct (han_group_search WEATHER_TAIL q) as [[s n]|] eqn:E1.
  - intros [= <-].
    apply han_group_search_spec in E1 as [[pre ->] A].
    apply han_group_at_spec in A as (B & L & F & P).
    split; [exact F|]. split; [lia|].
    exists pre, (drop n s). rewrite take_drop. auto.
  - destruct (han_group_search ADMIN_SUFFIX q) as [[s n]|] eqn:E2; [|discriminate].
    intros [= <-].
    apply han_group_search_spec in E2 as [[pre ->] A].
    apply han_group_at_spec in A as (B & L & F & P).
    apply prefix_match_spec in P as (s1 & s2 & Ed & Hm).
    apply matches_words in Hm as (w & Hin & ->).
    assert (Hc : exists c, u w = [c] /\ In c (u "市省区县") /\ is_han c).
    { simpl in Hin.
      repeat (destruct Hin as [<-|Hin];
              [eexists; split; [vm_compute; reflexivity|];
               split; [vm_compute; auto 6 | split; vm_compute; discriminate]|]).
      destruct Hin. }
    destruct Hc as (c & Ec & Hc & Hh). rewrite Ec in Ed.
    assert (Et : take (S n) s = take n s ++ [c]).
    { rewrite <- (take_drop n s) at 1. rewrite Ed, firstn_app, L.
      replace (S n - n)%nat with 1%nat by lia.
      rewrite firstn_all2 by (rewrite L; lia). reflexivity. }
    rewrite Et. split; [apply Forall_app; split; [exact F|apply List.Forall_cons; [exact Hh|apply List.Forall_nil]]|].
    split; [rewrite length_app; simpl; lia|].
    exists pre, s2. split.
    + rewrite <- (take_drop n s) at 1. rewrite Ed. rewrite <- !app_assoc. reflexivity.
    + right. exists c. split; [apply last_snoc | exact Hc].
Qed.

Lemma location_slot_shape_witness :
  Forall is_han (u "北京") /\ (2 <= length (u "北京") <= 9)%nat.
Proof.
  destruct (location_slot_shape (u "北京天气怎么样") (u "北京")) as (A & B & _).
  - vm_compute; reflexivity.
  - split; [exact A | exact B].
Defined.

(** ** The plan loop *)

Module LoopFacts.

(** In an empty context every token stands for itself. *)
Lemma _repl_empty key : _repl ∅ key = 123 :: key ++ [125].
Proof.
  unfold _repl. change (u "{" ++ key ++ u "}") with (123 :: key ++ [125]).
  destruct (split_dot key) as [[sid var]|]; [|reflexivity].
  rewrite lookup_empty. reflexivity.
Qed.

Lemma re_sub_empty_ctx s : re_sub (_repl ∅) s = s.
Proof.
  remember (length s) as n eqn:L. revert s L.
  induction n as [n IH] using lt_wf_ind. intros s L.
  destruct s as [|c r]; [reflexivity|].
  rewrite re_sub_cons. destruct (token_at (c :: r)) as [[key rest]|] eqn:T.
  - apply token_at_spec in T as (E & _ & _). rewrite E in *.
    rewrite _repl_empty. rewrite (IH (length rest)); auto.
    + simpl. rewrite <- app_assoc. reflexivity.
    + subst n. simpl. rewrite length_app. simpl. lia.
  - f_equal. apply (IH (length r)); auto. subst n. simpl. lia.
Qed.

Lemma run_step_ok w q k payload data ls step ls' :
  run_step w q k payload data ls step = Ok ls' ->
  exists out json,
    ctx ls' = <[step_sid step := {| ans := result out; ctx_text := text out |}]> (ctx ls)
    /\ steps_out ls' = steps_out ls ++
         [{| rec_id := step_sid step; rec_tool := step_tool step;
             rec_input_q := step_query w q (ctx ls) step; rec_output := out;
             rec_json := json |}].
Proof.
  unfold run_step.
  destruct (step_payload _ _ _ _ _) as [sp|e]; [|discriminate].
  unfold mbind at 1, Result_bind at 1. cbv beta iota.
  destruct (dispatch _ _ _) as [out|e]; [|discriminate].
  unfold mbind, Result_bind. intros [= <-]. exists out, (json_ok w (step_tool step) sp).
  auto.
Qed.

Lemma run_step_ctx w q k payload data ls step ls' :
  ctx_of_trace ls -> run_step w q k payload data ls step = Ok ls' -> ctx_of_trace ls'.
Proof.
  intros I H. apply run_step_ok in H as (out & json & Ec & Es). intros sid.
  rewrite Ec, Es. unfold last_record. rewrite rev_app_distr. cbn [rev app List.find rec_id].
  destruct (eqb (step_sid step) sid) eqn:E.
  - apply bool_decide_eq_true in E. subst sid. rewrite lookup_insert_eq. reflexivity.
  - apply bool_decide_eq_false in E. rewrite lookup_insert_ne by exact E. apply I.
Qed.

Lemma run_plan_ctx w q k payload data p : forall ls0 ls,
  ctx_of_trace ls0 -> run_plan w q k payload data ls0 p = Ok ls -> ctx_of_trace ls.
Proof.
  induction p as [|s p IH]; intros ls0 ls I; cbn [run_plan].
  - intros [= <-]. exact I.
  - destruct (run_step w q k payload data ls0 s) as [ls'|e] eqn:E; [|discriminate].
    unfold mbind, Result_bind. intros H.
    apply (IH ls' ls); auto. eapply run_step_ctx; eauto.
Qed.

End LoopFacts.
Import LoopFacts.

(** X14. The first step of a plan finds the context empty, so a template it
    carries is sent to its tool as it is written, placeholders included. *)
Theorem first_step_template_is_verbatim w q k payload data s p ls :
  step_needs_context s = true -> step_q_template s <> [] ->
  run_plan w q k payload data loop_start (s :: p) = Ok ls ->
  exists r, steps_out ls !! 0%nat = Some r /\ rec_input_q r = step_q_template s.
Proof.
  intros Hn Ht. cbn [run_plan].
  destruct (run_step w q k payload data loop_start s) as [ls'|e] eqn:E; [|discriminate].
  unfold mbind, Result_bind. intros H.
  apply run_step_ok in E as (out & json & _ & Es).
  apply run_plan_trace in H as (recs & Er & _). rewrite Er, Es.
  eexists. split; [reflexivity|]. cbn [rec_input_q].
  unfold step_query. rewrite Hn.
  destruct (step_q_template s) as [|c t]; [congruence|].
  apply re_sub_empty_ctx.
Qed.

Lemma first_step_template_is_verbatim_witness :
  exists ls r,
    run_plan quoting_world (u "先查天气再写一句话") 5 ∅ ∅ loop_start [templated] = Ok ls
    /\ steps_out ls !! 0%nat = Some r
    /\ rec_input_q r = step_q_template templated.
Proof.
  destruct (run_plan quoting_world (u "先查天气再写一句话") 5 ∅ ∅ loop_start [templated])
    as [ls|e] eqn:E; [|vm_compute in E; discriminate E].
  destruct (first_step_template_is_verbatim quoting_world (u "先查天气再写一句话") 5 ∅ ∅
              templated [] ls) as (r & A & B).
  - reflexivity.
  - vm_compute; discriminate.
  - exact E.
  - exists ls, r. split; [reflexivity|]. split; [exact A|exact B].
Defined.

(** X15. After a plan has run, the context holds for each step identifier
    the result and text of the last step that carried it: a step that
    repeats an identifier replaces the entry of the earlier one. *)
Theorem context_holds_the_last_output w q k payload data p ls :
  run_plan w q k payload data loop_start p = Ok ls ->
  forall sid,
    ctx ls !! sid = entry_of <$> last_record sid (steps_out ls).
Proof.
  intros H. apply (run_plan_ctx w q k payload data p loop_start ls); auto.
  intros sid. apply lookup_empty.
Qed.

Lemma context_holds_the_last_output_witness :
  exists ls,
    run_plan quoting_world (u "q") 5 ∅ ∅ loop_start
      [step "s1" "上海天气" "f1" false ""; step "s1" "写一句话" "llm" false ""] = Ok ls
    /\ ctx ls !! u "s1"
       = Some {| ans := None; ctx_text := Some (u "llm:写一句话") |}.
Proof.
  eexists. split; [vm_compute; reflexivity|].
  rewrite (context_holds_the_last_output quoting_world (u "q") 5 ∅ ∅
             [step "s1" "上海天气" "f1" false ""; step "s1" "写一句话" "llm" false ""]);
    vm_compute; reflexivity.
Defined.

(** X16. A request whose [top_k] is not an integer for [int()] makes every
    plan with a step for f2 raise: the loop stops at that step at the
    latest, before the step's tool is called. *)
Theorem bad_top_k_aborts_the_plan w q k payload data p ls0 s v e :
  data !! "top_k" = Some v -> py_int v = Raise e ->
  In s p -> step_tool s = u "f2" ->
  exists e', run_plan w q k payload data ls0 p = Raise e'.
Proof.
  intros Hv He Hin Ht. revert ls0.
  induction p as [|s0 p IH]; intros ls0; [destruct Hin|].
  cbn [run_plan].
  destruct (run_step w q k payload data ls0 s0) as [ls'|e0] eqn:E.
  - unfold mbind, Result_bind. destruct Hin as [->|Hin]; [|apply IH; exact Hin].
    exfalso. unfold run_step in E. rewrite Ht in E.
    assert (P : step_payload (u "f2") (step_query w q (ctx ls0) s) k payload data = Raise e).
    { unfold step_payload.
      replace (eqb (u "f2") (u "f1")) with false by (vm_compute; reflexivity).
      replace (eqb (u "f2") (u "f2")) with true by (vm_compute; reflexivity).
      rewrite Hv, He. reflexivity. }
    rewrite P in E. discriminate E.
  - exists e0. reflexivity.
Qed.

Lemma bad_top_k_aborts_the_plan_witness :
  exists e',
    run_plan quoting_world (u "q") 5 ∅ {[ "top_k" := VStr (u "many") ]} loop_start
      [step "s1" "上海天气" "f1" false ""; step "s2" "报销制度" "f2" false ""]
    = Raise e'.
Proof.
  apply (bad_top_k_aborts_the_plan quoting_world (u "q") 5 ∅
           {[ "top_k" := VStr (u "many") ]}
           [step "s1" "上海天气" "f1" false ""; step "s2" "报销制度" "f2" false ""]
           loop_start (step "s2" "报销制度" "f2" false "") (VStr (u "many"))
           (ValueError "invalid literal for int()")).
  - reflexivity.
  - vm_compute; reflexivity.
  - right; left; reflexivity.
  - reflexivity.
Defined.

(** X17. A request that forces a mode naming no tool is answered without
    the router being asked and without any tool being called: the response
    carries the decision for that mode at confidence 1.0, no items, and the
    error of the registry, and the probe state is untouched. *)
Theorem forced_unknown_mode w st q mode k data :
  q <> [] -> mode <> u "auto" -> mode <> u "hybrid" -> ~ In mode TOOLS ->
  answer w st q mode k data
  = (st, Ok (Answered q (decision mode 1.0 [] ∅)
               {| key := mode; key_items := []; steps := None |}
               (Some (u "unknown feature: " ++ mode)))).
Proof.
  intros Hq Ha Hh Ht. unfold answer. destruct q as [|c q]; [congruence|].
  unfold decide_request, eqb. rewrite bool_decide_eq_false_2 by exact Ha.
  cbn [negb]. f_equal. unfold mbind, Result_bind.
  unfold dispatch_target, eqb. cbn [target decision].
  rewrite bool_decide_eq_false_2 by exact Hh.
  unfold orchestrate. cbn [plan decision].
  unfold single_step, dispatch, REGISTRY.
  assert (N : forall t, In t TOOLS -> t <> mode) by (intros t Hin ->; auto).
  rewrite !lookup_insert_ne, lookup_empty
    by (apply N; vm_compute; auto 6).
  unfold mbind, Result_bind. reflexivity.
Qed.

Lemma forced_unknown_mode_witness :
  answer quoting_world cold (u "你好") (u "browser") 5 ∅
  = (cold, Ok (Answered (u "你好") (decision (u "browser") 1.0 [] ∅)
                 {| key := u "browser"; key_items := []; steps := None |}
                 (Some (u "unknown feature: browser")))).
Proof.
  apply (forced_unknown_mode quoting_world cold (u "你好") (u "browser") 5 ∅);
    vm_compute; try discriminate; intuition discriminate.
Defined.

(** ** The text splitter *)

Module LoaderFacts.

Import Loader.

Lemma visible_app a b : visible (a ++ b) = visible a ++ visible b.
Proof. apply List.filter_app. Qed.

Lemma visible_spaces s : Forall (fun x => is_space x = true) s -> visible s = [].
Proof.
  induction 1 as [|x s Hx _ IH]; [reflexivity|].
  unfold visible in *. simpl. rewrite Hx. exact IH.
Qed.

Lemma visible_nil s : visible s = [] -> Forall (fun x => is_space x = true) s.
Proof.
  induction s as [|x s IH]; [constructor|].
  unfold visible in *. simpl. destruct (is_space x) eqn:E; simpl; [|discriminate].
  intros H. constructor; auto.
Qed.

Lemma visible_strip s : visible (strip s) = visible s.
Proof.
  destruct (strip_spec s) as (l & r & E & Fl & Fr).
  rewrite E at 2. rewrite !visible_app, (visible_spaces l Fl), (visible_spaces r Fr).
  rewrite app_nil_r. reflexivity.
Qed.

Lemma visible_collapse b s : visible (collapse b s) = visible s.
Proof.
  revert b. induction s as [|c s IH]; intros b; [reflexivity|].
  cbn [collapse]. unfold visible in *. cbn [List.filter].
  destruct (is_space c) eqn:E; cbn [negb].
  - destruct b; [apply IH|]. cbn [List.filter].
    replace (is_space 32) with true by reflexivity. apply IH.
  - cbn [List.filter]. rewrite E. cbn [negb]. f_equal. apply IH.
Qed.

Lemma lstrip_spaces s : Forall (fun x => is_space x = true) s -> lstrip s = [].
Proof. induction 1 as [|x s Hx _ IH]; simpl; [reflexivity|]. rewrite Hx. exact IH. Qed.

Lemma strip_spaces s : Forall (fun x => is_space x = true) s -> strip s = [].
Proof. intros H. unfold strip. rewrite (lstrip_spaces s H). reflexivity. Qed.

Lemma collapse_spaces b s :
  Forall (fun x => is_space x = true) s ->
  Forall (fun x => is_space x = true) (collapse b s).
Proof.
  intros H. revert b. induction H as [|x s Hx _ IH]; intros b; cbn [collapse];
    [constructor|].
  rewrite Hx. destruct b; [apply IH|]. constructor; [reflexivity|apply IH].
Qed.

Lemma concat_split s : concat (split_after_end s) = s.
Proof.
  induction s as [|c s IH]; [reflexivity|]. cbn [split_after_end].
  destruct (is_end c).
  - cbn [concat app]. f_equal. exact IH.
  - destruct (split_after_end s) as [|seg segs]; simpl in *; [subst; reflexivity|].
    f_equal. exact IH.
Qed.

Lemma pack_visible m segs : forall out buf out' buf',
  pack m out buf segs = (out', buf') ->
  visible (concat out' ++ buf') = visible (concat out ++ buf ++ concat segs).
Proof.
  induction segs as [|s segs IH]; intros out buf out' buf'; cbn [pack].
  - intros [= <- <-]. rewrite app_nil_r. reflexivity.
  - destruct (_ <=? _)%Z.
    + intros H. rewrite (IH _ _ _ _ H). cbn [concat]. rewrite <- !app_assoc. reflexivity.
    + intros H. rewrite (IH _ _ _ _ H). cbn [concat].
      destruct buf as [|b buf]; [reflexivity|].
      rewrite concat_app. cbn [concat]. rewrite app_nil_r.
      rewrite !visible_app, visible_strip. rewrite <- !app_assoc. reflexivity.
Qed.

Lemma flush_visible out buf :
  visible (concat (match buf with [] => out | _ :: _ => out ++ [strip buf] end))
  = visible (concat out ++ buf).
Proof.
  destruct buf as [|b buf]; [rewrite app_nil_r; reflexivity|].
  rewrite concat_app. cbn [concat]. rewrite app_nil_r.
  rewrite !visible_app, visible_strip. reflexivity.
Qed.

(** A sentence end is not whitespace. *)
Lemma end_not_space c : is_end c = true -> is_space c = false.
Proof.
  unfold is_end. intros H. apply existsb_exists in H as (x & Hin & E).
  apply N.eqb_eq in E. subst x. vm_compute in Hin.
  repeat (destruct Hin as [<-|Hin]; [reflexivity|]). destruct Hin.
Qed.

Lemma split_head c s : exists seg segs, split_after_end (c :: s) = (seg :: segs) /\ seg <> [].
Proof.
  cbn [split_after_end]. destruct (is_end c); [eexists _, _; split; [reflexivity|discriminate]|].
  destruct (split_after_end s); eexists _, _; split; try reflexivity; discriminate.
Qed.

Lemma split_one_sentence s : Forall one_sentence (split_after_end s).
Proof.
  induction s as [|c s IH]; cbn [split_after_end].
  - constructor; [constructor|constructor].
  - destruct (is_end c) eqn:E.
    + constructor; [constructor|exact IH].
    + destruct (split_after_end s) as [|seg segs]; [repeat constructor|].
      apply Forall_cons in IH as [H1 H2]. constructor; [|exact H2].
      unfold one_sentence in *. destruct seg as [|x seg]; [constructor|].
      change (removelast (c :: x :: seg)) with (c :: removelast (x :: seg)).
      constructor; auto.
Qed.

Lemma split_closed s : closed s -> Forall closed (split_after_end s).
Proof.
  induction s as [|c s IH]; intros C; cbn [split_after_end].
  - constructor; [left; reflexivity|constructor].
  - assert (Cs : closed s).
    { destruct s as [|x s]; [left; reflexivity|]. right.
      destruct C as [C|(y & L & Hy)]; [discriminate C|]. exists y. split; auto. }
    specialize (IH Cs).
    destruct (is_end c) eqn:E.
    + constructor; [|exact IH]. right. exists c. split; [reflexivity|].
      apply end_not_space; exact E.
    + destruct s as [|x s].
      * cbn. constructor; [|constructor]. right.
        destruct C as [C|(y & L & Hy)]; [discriminate C|]. exists y. auto.
      * destruct (split_head x s) as (seg & segs & Es & Hne). rewrite Es in *.
        apply Forall_cons in IH as [H1 H2]. constructor; [|exact H2].
        destruct H1 as [H1|(y & L & Hy)]; [congruence|]. right. exists y. split; auto.
        destruct seg as [|z seg]; [congruence|]. exact L.
Qed.

Lemma lstrip_closed s :
  (exists c, last s = Some c /\ is_space c = false) ->
  exists ws a t, s = ws ++ a :: t /\ lstrip s = a :: t /\ is_space a = false.
Proof.
  induction s as [|x s IH]; intros (c & L & Hc); [discriminate L|].
  cbn [lstrip]. destruct (is_space x) eqn:E.
  - destruct s as [|y s]; [cbn in L; injection L as ->; congruence|].
    destruct IH as (ws & a & t & Es & El & Ha); [exists c; split; auto|].
    exists (x :: ws), a, t. split; [simpl; congruence|]. split; auto.
  - exists [], x, s. auto.
Qed.

Lemma strip_closed s :
  (exists c, last s = Some c /\ is_space c = false) -> strip s = lstrip s.
Proof.
  intros H. destruct (lstrip_closed s H) as (ws & a & t & Es & El & Ha).
  destruct H as (c & L & Hc).
  assert (L' : last (lstrip s) = Some c).
  { rewrite El. rewrite Es in L. rewrite last_app in L.
    destruct (last (a :: t)) eqn:E; [exact L|].
    apply last_None in E. discriminate E. }
  unfold strip.
  destruct (lstrip s) as [|x l] using rev_ind; [discriminate|].
  clear IHl. rewrite last_snoc in L'. injection L' as ->.
  rewrite rev_app_distr. cbn [rev app lstrip]. rewrite Hc.
  change (c :: rev l) with (rev [c] ++ rev l). rewrite <- rev_app_distr.
  apply rev_involutive.
Qed.

Lemma flush_ok m x buf : buf_ok m (x :: buf) -> chunk_ok m (strip (x :: buf)).
Proof.
  intros [[C|C] B]; [discriminate C|].
  rewrite (strip_closed _ C).
  destruct (lstrip_closed _ C) as (ws & a & t & Es & El & Ha).
  destruct C as (c & L & Hc). rewrite El. split.
  - exists a, c. split; [reflexivity|]. split; [|auto].
    rewrite Es in L. rewrite last_app in L.
    destruct (last (a :: t)) eqn:E; [exact L|]. apply last_None in E. discriminate E.
  - destruct B as [B|B]; [left|right].
    + rewrite Es in B. rewrite length_app in B. lia.
    + unfold one_sentence in *. rewrite Es in B.
      rewrite removelast_app in B by discriminate.
      apply Forall_app in B as [_ B]. exact B.
Qed.

Lemma pack_ok m segs : forall out buf out' buf',
  Forall closed segs -> Forall one_sentence segs ->
  Forall (chunk_ok m) out -> buf_ok m buf ->
  pack m out buf segs = (out', buf') ->
  Forall (chunk_ok m) out' /\ buf_ok m buf'.
Proof.
  induction segs as [|s segs IH]; intros out buf out' buf' C O Ho Hb; cbn [pack].
  - intros [= <- <-]. auto.
  - apply Forall_cons in C as [C1 C2]. apply Forall_cons in O as [O1 O2].
    destruct (_ <=? _)%Z eqn:E.
    + apply IH; auto. apply Z.leb_le in E. split; [|left; rewrite length_app; lia].
      destruct C1 as [->|(c & L & Hc)]; [rewrite app_nil_r; apply Hb|].
      right. exists c. split; auto. rewrite last_app, L. reflexivity.
    + apply IH; auto; [|split; auto].
      destruct buf as [|x buf]; auto.
      apply Forall_app. split; auto. constructor; [|constructor].
      apply flush_ok; auto.
Qed.

Lemma strip_is_closed s : closed (strip s).
Proof.
  unfold strip.
  assert (H : forall x, lstrip x = [] \/ exists a t, lstrip x = a :: t /\ is_space a = false).
  { induction x as [|a x IH]; [left; reflexivity|]. cbn [lstrip].
    destruct (is_space a) eqn:E; [exact IH|]. right. eauto. }
  destruct (H (rev (lstrip s))) as [->|(a & t & -> & Ha)]; [left; reflexivity|].
  right. exists a. split; [|exact Ha]. cbn [rev]. apply last_snoc.
Qed.

Lemma split_text_visible text max_len :
  visible (concat (split_text text max_len)) = visible text.
Proof.
  unfold split_text.
  rewrite <- (visible_collapse false text), <- (visible_strip (collapse false text)).
  destruct (strip (collapse false text)) as [|c t]; [reflexivity|].
  destruct (pack max_len [] [] (split_after_end (c :: t))) as [out buf] eqn:E.
  rewrite flush_visible, (pack_visible _ _ _ _ _ _ E).
  cbn [concat app]. rewrite concat_split. reflexivity.
Qed.

End LoaderFacts.
Import LoaderFacts.

(** X18. [split_text] loses no text and adds none: the chunks, read in
    order, show the characters of the text that are not whitespace, all of
    them and in their order, whatever the limit. *)
Theorem split_text_keeps_the_text text max_len :
  visible (concat (Loader.split_text text max_len)) = visible text.
Proof. apply split_text_visible. Qed.

(** X19. [split_text] returns no chunk exactly for a text that is empty or
    all whitespace. *)
Theorem split_text_empty_iff_blank text max_len :
  Loader.split_text text max_len = [] <-> Forall (fun c => is_space c = true) text.
Proof.
  split.
  - intros H. apply visible_nil. rewrite <- (split_text_visible text max_len).
    rewrite H. reflexivity.
  - intros H. unfold Loader.split_text.
    rewrite (strip_spaces _ (collapse_spaces false text H)). reflexivity.
Qed.

(** X20. Every chunk of [split_text] begins and ends with a character that
    is not whitespace, and it is no longer than the limit unless it is a
    single sentence: text with no sentence end before its last character,
    which the splitter never cuts. *)
Theorem split_text_chunks text max_len c :
  In c (Loader.split_text text max_len) ->
  (exists a b, head c = Some a /\ last c = Some b
               /\ is_space a = false /\ is_space b = false)
  /\ ((Z.of_nat (length c) <= max_len)%Z
      \/ Forall (fun x => Loader.is_end x = false) (removelast c)).
Proof.
  unfold Loader.split_text. pose proof (strip_is_closed (Loader.collapse false text)) as C.
  destruct (strip (Loader.collapse false text)) as [|x t]; [intros []|].
  destruct (Loader.pack max_len [] [] (Loader.split_after_end (x :: t)))
    as [out buf] eqn:E.
  apply pack_ok in E as [Ho Hb].
  - intros Hin. destruct buf as [|y buf].
    + rewrite List.Forall_forall in Ho. apply (Ho c Hin).
    + apply in_app_or in Hin as [Hin|[<-|[]]].
      * rewrite List.Forall_forall in Ho. apply (Ho c Hin).
      * apply (flush_ok max_len y buf Hb).
  - apply split_closed; exact C.
  - apply split_one_sentence.
  - constructor.
  - split; [left; reflexivity|right; constructor].
Qed.

Lemma split_text_chunks_witness :
  (Z.of_nat (length (u "今天天气很好。")) <= 10)%Z
  \/ Forall (fun x => Loader.is_end x = false) (removelast (u "今天天气很好。")).
Proof.
  destruct (split_text_chunks (u "  今天天气很好。 明天  会下雨吗？带伞。") 10
              (u "今天天气很好。")) as (_ & B).
  - vm_compute. left; reflexivity.
  - exact B.
Defined.

(** ** The tools for search and for the model *)

Module ServiceFacts.

Import Services F1Service.

Lemma py_or_get d key dflt :
  (truthy (py_get d key) = false /\ py_or (py_get d key) dflt = dflt)
  \/ exists v, d !! key = Some v /\ truthy v = true /\ py_or (py_get d key) dflt = v.
Proof.
  unfold py_or, py_get. destruct (d !! key) as [v|]; simpl.
  - destruct (truthy v) eqn:T; [right; exists v; auto | left; auto].
  - left; auto.
Qed.

Lemma true_keys_cons it its :
  true_keys (it :: its)
  = if bool_decide (dedup_key it = []) then true_keys its
    else dedup_key it :: true_keys its.
Proof.
  unfold true_keys. cbn [map List.filter]. destruct (bool_decide _); reflexivity.
Qed.

Lemma dedup_from_sublist seen its : sublist (dedup_from seen its) its.
Proof.
  revert seen. induction its as [|it its IH]; intros seen; cbn [dedup_from].
  - constructor.
  - destruct (_ && _); [apply sublist_cons | apply sublist_skip]; apply IH.
Qed.

Lemma dedup_from_keys seen its :
  NoDup (true_keys (dedup_from seen its))
  /\ forall k, In k (true_keys (dedup_from seen its)) -> k ∉ seen.
Proof.
  revert seen. induction its as [|it its IH]; intros seen; cbn [dedup_from].
  - split; [constructor|intros k []].
  - destruct (negb (bool_decide (dedup_key it = [])) && bool_decide (dedup_key it ∈ seen))
      eqn:E; [apply IH|].
    destruct (IH ({[dedup_key it]} ∪ seen)) as [N F].
    rewrite true_keys_cons. destruct (bool_decide (dedup_key it = [])) eqn:K.
    + split; [exact N|]. intros k Hk Hs. apply (F k Hk), elem_of_union. right; exact Hs.
    + cbn [negb andb] in E. apply bool_decide_eq_false in E.
      split.
      * apply NoDup_cons. split; [|exact N].
        intros Hin. apply list_elem_of_In in Hin. apply (F _ Hin), elem_of_union.
        left. apply elem_of_singleton. reflexivity.
      * intros k [<-|Hk]; [exact E|].
        intros Hs. apply (F k Hk), elem_of_union. right; exact Hs.
Qed.

Lemma dedup_from_first seen pre it post :
  dedup_key it = [] \/ (~ In (dedup_key it) (map dedup_key pre) /\ dedup_key it ∉ seen) ->
  In it (dedup_from seen (pre ++ it :: post)).
Proof.
  revert seen. induction pre as [|x pre IH]; intros seen H; cbn [app dedup_from].
  - assert (E : negb (bool_decide (dedup_key it = [])) && bool_decide (dedup_key it ∈ seen)
                = false).
    { destruct H as [H|[_ H]].
      - rewrite bool_decide_eq_true_2 by exact H. reflexivity.
      - rewrite (bool_decide_eq_false_2 _ H). apply andb_false_r. }
    rewrite E. left; reflexivity.
  - destruct (_ && _).
    + apply IH. destruct H as [H|[H1 H2]]; [left; exact H|right]. split; auto.
      intros Hin. apply H1. right. exact Hin.
    + right. apply IH. destruct H as [H|[H1 H2]]; [left; exact H|right]. split.
      * intros Hin. apply H1. right. exact Hin.
      * intros Hin. apply elem_of_union in Hin as [Hin|Hin]; [|exact (H2 Hin)].
        apply elem_of_singleton in Hin. apply H1. left. symmetry. exact Hin.
Qed.

(** What the registry of the two services returns for f1 and for llm. *)
Lemma f1_run_fields rt payload out :
  F1Service.run rt payload = Ok out -> result out = None /\ text out = None.
Proof.
  unfold F1Service.run. destruct (negb _); [intros [= <-]; auto|].
  destruct (as_dict _) as [slots|e]; [|discriminate].
  unfold mbind at 1, Result_bind at 1. cbv beta iota.
  destruct (str_method _ _ _) as [provider|e]; [|discriminate].
  unfold mbind, Result_bind.
  destruct (web_search rt _ _ _ _); intros [= <-]; auto.
Qed.

Lemma llm_run_fields rt payload out :
  LLMService.run rt payload = Ok out -> result out = None.
Proof.
  unfold LLMService.run. destruct (str_method _ _ _) as [[|c q]|e]; try discriminate;
    unfold mbind, Result_bind.
  - intros [= <-]; auto.
  - destruct (simple_answer rt _ _); intros [= <-]; auto.
Qed.

Lemma dispatch_services rt t tool sp out :
  dispatch (with_services rt t) tool sp = Ok out ->
  (tool = u "f1" -> result out = None /\ text out = None)
  /\ (tool = u "llm" -> result out = None).
Proof.
  intros H. split; intros ->.
  - unfold dispatch, REGISTRY in H. rewrite lookup_insert_eq in H.
    cbn [handler with_services Registry.f1_run] in H. apply (f1_run_fields rt sp out H).
  - unfold dispatch, REGISTRY in H.
    rewrite lookup_insert_ne in H by (vm_compute; discriminate).
    rewrite lookup_insert_eq in H.
    cbn [handler with_services Registry.llm_run] in H. apply (llm_run_fields rt sp out H).
Qed.

Lemma run_step_dispatch w q k payload data ls step ls' :
  run_step w q k payload data ls step = Ok ls' ->
  exists sp out,
    dispatch (tools w) (step_tool step) sp = Ok out
    /\ steps_out ls' = steps_out ls ++
         [{| rec_id := step_sid step; rec_tool := step_tool step;
             rec_input_q := step_query w q (ctx ls) step; rec_output := out;
             rec_json := json_ok w (step_tool step) sp |}].
Proof.
  unfold run_step.
  destruct (step_payload _ _ _ _ _) as [sp|e]; [|discriminate].
  unfold mbind at 1, Result_bind at 1. cbv beta iota.
  destruct (dispatch _ _ _) as [out|e] eqn:D; [|discriminate].
  unfold mbind, Result_bind. intros [= <-]. exists sp, out. auto.
Qed.

(** Every record of a trace holds what its tool returned. *)
Lemma run_plan_dispatch w q k payload data p : forall ls0 ls,
  Forall (fun r => exists sp, dispatch (tools w) (rec_tool r) sp = Ok (rec_output r))
         (steps_out ls0) ->
  run_plan w q k payload data ls0 p = Ok ls ->
  Forall (fun r => exists sp, dispatch (tools w) (rec_tool r) sp = Ok (rec_output r))
         (steps_out ls).
Proof.
  induction p as [|s p IH]; intros ls0 ls F; cbn [run_plan].
  - intros [= <-]. exact F.
  - destruct (run_step w q k payload data ls0 s) as [ls'|e] eqn:E; [|discriminate].
    unfold mbind, Result_bind. intros H. apply (IH ls' ls); auto.
    apply run_step_dispatch in E as (sp & out & D & ->).
    apply Forall_app. split; auto. constructor; [|constructor].
    exists sp. exact D.
Qed.

End ServiceFacts.
Import ServiceFacts.

(** X21. [_dedup] keeps the items in their order and drops only repeats:
    the result is a subsequence of the items in which no key that is not
    empty occurs twice, and an item is kept whenever its key (its url, or
    its title when it has no url) is empty or occurs in no item before it. *)
Theorem dedup_keeps_first_occurrences its :
  sublist (F1Service._dedup its) its
  /\ NoDup (true_keys (F1Service._dedup its))
  /\ forall pre it post,
       its = pre ++ it :: post ->
       F1Service.dedup_key it = []
       \/ ~ In (F1Service.dedup_key it) (map F1Service.dedup_key pre) ->
       In it (F1Service._dedup its).
Proof.
  unfold F1Service._dedup. split; [apply dedup_from_sublist|].
  split; [apply dedup_from_keys|].
  intros pre it post -> H. apply dedup_from_first.
  destruct H as [H|H]; [left; exact H|right]. split; [exact H|].
  apply not_elem_of_empty.
Qed.

(** X22. Removing the repeats twice is removing them once. *)
Theorem dedup_is_idempotent its :
  F1Service._dedup (F1Service._dedup its) = F1Service._dedup its.
Proof.
  unfold F1Service._dedup. generalize (∅ : gset pystr).
  induction its as [|it its IH]; intros seen; cbn [F1Service.dedup_from];
    [reflexivity|].
  destruct (negb (bool_decide (F1Service.dedup_key it = []))
            && bool_decide (F1Service.dedup_key it ∈ seen)) eqn:E; [apply IH|].
  cbn [F1Service.dedup_from]. rewrite E. f_equal. apply IH.
Qed.

(** X23. The model tool returns in one of two shapes: one item titled
    LLM Answer whose snippet is the text returned, and no error; or no
    item, no text and an error. It never sets a result, and it raises only
    when the payload carries under q a value that is true and not a
    string. *)
Theorem llm_run_contract rt payload :
  match LLMService.run rt payload with
  | Ok out =>
      result out = None
      /\ ((exists t, text out = Some t /\ error out = None
                     /\ items out = [ {| title := u "LLM Answer"; url := [];
                                         snippet := t |} ])
          \/ (text out = None /\ items out = [] /\ error out <> None))
  | Raise e =>
      exists v, payload !! "q" = Some v /\ truthy v = true
                /\ (forall s, v <> VStr s) /\ e = Services.AttributeError v "strip"
  end.
Proof.
  unfold LLMService.run.
  destruct (py_or_get payload "q" (VStr [])) as [[_ ->]|(v & Q & T & ->)].
  - cbn [Services.str_method]. unfold mbind, Result_bind.
    replace (strip []) with (@nil N) by reflexivity.
    split; [reflexivity|]. right. split; [reflexivity|]. split; [reflexivity|].
    discriminate.
  - destruct v as [|b|z|f|s|l|d]; cbn [Services.str_method];
      unfold mbind, Result_bind;
      try (eexists; split; [exact Q|]; split; [exact T|]; split;
           [intros s; discriminate|reflexivity]).
    destruct (strip s) as [|c q].
    + split; [reflexivity|]. right. split; [reflexivity|]. split; [reflexivity|].
      discriminate.
    + destruct (Services.simple_answer rt _ _) as [t|m|m].
      * split; [reflexivity|]. left. exists t. auto.
      * split; [reflexivity|]. right. split; [reflexivity|]. split; [reflexivity|].
        discriminate.
      * split; [reflexivity|]. right. split; [reflexivity|]. split; [reflexivity|].
        discriminate.
Qed.

(** X24. The search tool sets neither result nor text; its items carry no
    repeated key, and there are none when it reports an error. It raises
    only after a query was given, on slots that are not a dictionary or on
    a provider that is not a string; without a query it reports missing q
    and does not look at the slots or search. *)
Theorem f1_run_contract rt payload :
  match F1Service.run rt payload with
  | Ok out =>
      result out = None /\ text out = None
      /\ NoDup (true_keys (items out))
      /\ (error out = None \/ items out = [])
      /\ (truthy (Services.py_get payload "q") = false ->
          out = {| items := []; result := None; text := None;
                   error := Some (u "missing q") |})
  | Raise e =>
      truthy (Services.py_get payload "q") = true
      /\ exists v, truthy v = true
         /\ ((v = Services.py_get payload "slots" /\ (forall d, v <> VDict d)
              /\ e = Services.AttributeError v "get")
             \/ ((forall s, v <> VStr s) /\ e = Services.AttributeError v "lower"
                 /\ exists d, payload !! "slots" = Some (VDict d)
                              /\ d !! "provider" = Some v))
  end.
Proof.
  unfold F1Service.run.
  assert (Q : truthy (Services.py_or (default (VStr []) (payload !! "q")) (VStr []))
              = truthy (Services.py_get payload "q")).
  { unfold Services.py_or, Services.py_get.
    destruct (payload !! "q") as [v|]; simpl; [|reflexivity].
    destruct (truthy v) eqn:T; [exact T|reflexivity]. }
  rewrite Q. destruct (truthy (Services.py_get payload "q")) eqn:T; cbn [negb].
  2: { split; [reflexivity|]. split; [reflexivity|]. split; [constructor|].
       split; [right; reflexivity|]. reflexivity. }
  assert (W : forall provider kwargs,
    match
      match Services.web_search rt
              (Services.py_or (default (VStr []) (payload !! "q")) (VStr []))
              5 provider kwargs with
      | Services.Found found =>
          Ok {| items := F1Service._dedup found; result := None; text := None;
                error := None |}
      | Services.MetasoError msg =>
          Ok {| items := []; result := None; text := None;
                error := F1Service.error_key msg |}
      | Services.SearchFailed msg =>
          Ok {| items := []; result := None; text := None;
                error := F1Service.error_key (u "f1 error: " ++ msg) |}
      end
    with
    | Ok out =>
        result out = None /\ text out = None /\ NoDup (true_keys (items out))
        /\ (error out = None \/ items out = [])
        /\ (true = false ->
            out = {| items := []; result := None; text := None;
                     error := Some (u "missing q") |})
    | Raise e =>
        true = true
        /\ exists v, truthy v = true
           /\ ((v = Services.py_get payload "slots" /\ (forall d, v <> VDict d)
                /\ e = Services.AttributeError v "get")
               \/ ((forall s, v <> VStr s) /\ e = Services.AttributeError v "lower"
                   /\ exists d, payload !! "slots" = Some (VDict d)
                                /\ d !! "provider" = Some v))
    end).
  { intros provider kwargs.
    destruct (Services.web_search rt _ _ _ _) as [found|m|m].
    - split; [reflexivity|]. split; [reflexivity|].
      split; [apply dedup_from_keys|]. split; [left; reflexivity|]. discriminate.
    - split; [reflexivity|]. split; [reflexivity|]. split; [constructor|].
      split; [right; reflexivity|]. discriminate.
    - split; [reflexivity|]. split; [reflexivity|]. split; [constructor|].
      split; [right; reflexivity|]. discriminate. }
  destruct (py_or_get payload "slots" (VDict ∅)) as [[_ ->]|(sv & PS & TS & ES)].
  - cbn [Services.as_dict]. unfold mbind at 1, Result_bind at 1. cbv beta iota.
    destruct (py_or_get ∅ "provider" (VStr (u "metaso"))) as [[_ ->]|(pv & PP & _)];
      [|rewrite lookup_empty in PP; discriminate PP].
    cbn [Services.str_method]. unfold mbind at 1, Result_bind at 1. cbv beta iota.
    apply W.
  - rewrite ES.
    assert (EG : Services.py_get payload "slots" = sv).
    { unfold Services.py_get. rewrite PS. reflexivity. }
    destruct sv as [|b|z|f|s|l|d]; cbn [Services.as_dict];
      unfold mbind at 1, Result_bind at 1; cbv beta iota;
      try (split; [reflexivity|]; eexists; split; [exact TS|]; left;
           split; [symmetry; exact EG|]; split; [intros d; discriminate|reflexivity]).
    destruct (py_or_get d "provider" (VStr (u "metaso"))) as [[_ ->]|(pv & PP & TP & ->)].
    + cbn [Services.str_method]. unfold mbind at 1, Result_bind at 1. cbv beta iota.
      apply W.
    + destruct pv as [|b|z|f|s|l|d']; cbn [Services.str_method];
        unfold mbind at 1, Result_bind at 1; cbv beta iota;
        try (split; [reflexivity|]; eexists; split; [exact TP|]; right;
             split; [intros s; discriminate|]; split; [reflexivity|];
             exists d; split; [exact PS|exact PP]).
      apply W.
Qed.

(** X25. In a plan run with these two tools, a step for web search hands
    nothing on: once it has run, the placeholders [{id.ans}] and
    [{id.text}] of its identifier stand for the text None; and so does
    [{id.ans}] after a step for the model, which records its answer under
    text only. *)
Theorem search_steps_hand_nothing_on rt t w q k payload data p ls (sid : pystr) r :
  tools w = with_services rt t ->
  run_plan w q k payload data loop_start p = Ok ls ->
  last_record sid (steps_out ls) = Some r -> ~ In 46 sid ->
  (rec_tool r = u "f1" ->
   _repl (ctx ls) (sid ++ u ".ans") = u "None"
   /\ _repl (ctx ls) (sid ++ u ".text") = u "None")
  /\ (rec_tool r = u "llm" -> _repl (ctx ls) (sid ++ u ".ans") = u "None").
Proof.
  intros Ht H L Hs.
  assert (C : ctx ls !! sid = Some (entry_of r)).
  { rewrite (run_plan_ctx w q k payload data p loop_start ls); auto.
    - rewrite L. reflexivity.
    - intros sid0. apply lookup_empty. }
  assert (D : exists sp, dispatch (tools w) (rec_tool r) sp = Ok (rec_output r)).
  { pose proof (run_plan_dispatch w q k payload data p loop_start ls) as F.
    specialize (F (List.Forall_nil _) H). rewrite List.Forall_forall in F. apply F.
    unfold last_record in L. apply find_some in L as [L _].
    apply in_rev. exact L. }
  destruct D as (sp & D). rewrite Ht in D.
  destruct (dispatch_services rt t _ sp _ D) as [D1 D2].
  assert (A : _repl (ctx ls) (sid ++ u ".ans") = py_str (ans (entry_of r))).
  { unfold _repl. change (u ".ans") with (46 :: u "ans").
    rewrite split_dot_first by exact Hs. cbv beta iota. rewrite C. reflexivity. }
  assert (B : _repl (ctx ls) (sid ++ u ".text") = py_str (ctx_text (entry_of r))).
  { unfold _repl. change (u ".text") with (46 :: u "text").
    rewrite split_dot_first by exact Hs. cbv beta iota. rewrite C. reflexivity. }
  rewrite A, B. unfold entry_of. cbn [ans ctx_text].
  split.
  - intros E. destruct (D1 E) as [-> ->]. split; reflexivity.
  - intros E. rewrite (D2 E). reflexivity.
Qed.

Lemma search_steps_hand_nothing_on_witness :
  exists ls,
    run_plan plain_world (u "查上海天气然后写一句话") 5 ∅ ∅ loop_start
      [step "s1" "上海天气" "f1" false "";
       step "s2" "写一句话" "llm" true "根据{s1.text}写一句话"] = Ok ls
    /\ _repl (ctx ls) (u "s1" ++ u ".text") = u "None"
    /\ map rec_input_q (steps_out ls) = [u "上海天气"; u "根据None写一句话"].
Proof.
  destruct (run_plan plain_world (u "查上海天气然后写一句话") 5 ∅ ∅ loop_start
      [step "s1" "上海天气" "f1" false "";
       step "s2" "写一句话" "llm" true "根据{s1.text}写一句话"]) as [ls|e] eqn:E;
    [|vm_compute in E; discriminate E].
  exists ls. split; [reflexivity|].
  assert (V : Ok ls = Ok ls) by reflexivity.
  rewrite <- E in V at 1. vm_compute in V. injection V as V.
  destruct (last_record (u "s1") (steps_out ls)) as [r|] eqn:L;
    [|rewrite <- V in L; vm_compute in L; discriminate L].
  destruct (search_steps_hand_nothing_on plain_runtime
              {| f1_run := failing; llm_run := failing; f2_run := failing;
                 f3_run := failing |}
              plain_world (u "查上海天气然后写一句话") 5 ∅ ∅ _ ls (u "s1") r
              eq_refl E L) as [A _].
  - vm_compute. intuition discriminate.
  - destruct A as [_ A].
    + rewrite <- V in L. vm_compute in L. injection L as <-. reflexivity.
    + split; [exact A|]. rewrite <- V. vm_compute. reflexivity.
Defined.

(** ** The views *)

Module ViewFacts.

Import Services Views.

Lemma body_dict data :
  data <> ∅ -> as_dict (py_or (VDict data) (VDict ∅)) = Ok data.
Proof.
  intros H. unfold py_or. cbn [truthy]. rewrite bool_decide_eq_false_2 by exact H.
  reflexivity.
Qed.

Lemma has_key (data : Payload) key v : data !! key = Some v -> data <> ∅.
Proof. intros H ->. rewrite lookup_empty in H. discriminate H. Qed.

Lemma read_q_str (data : Payload) (s : pystr) :
  data !! "q" = Some (VStr s) -> s <> [] -> read_q data = Ok (strip s).
Proof.
  intros Hq Hs. unfold read_q.
  assert (G : py_get data "q" = VStr s) by (unfold py_get; rewrite Hq; reflexivity).
  assert (T : truthy (VStr s) = true).
  { cbn [truthy]. rewrite bool_decide_eq_false_2 by exact Hs. reflexivity. }
  rewrite G. unfold py_or at 1. rewrite T. reflexivity.
Qed.

(** [int()] on strings: whitespace around the digits and single underscores
    between them are accepted; the separators U+001C to U+001F are no
    whitespace for it. *)
Lemma py_int_strings :
  py_int (VStr (u " 12 ")) = Ok 12%Z
  /\ py_int (VStr (u "1_000")) = Ok 1000%Z
  /\ py_int (VStr (u "-٣٤")) = Ok (-34)%Z
  /\ py_int (VStr (u "12" ++ [31])) = Raise (ValueError "invalid literal for int()")
  /\ py_int (VStr (28 :: u "12")) = Raise (ValueError "invalid literal for int()")
  /\ py_int (VStr (u "1__0")) = Raise (ValueError "invalid literal for int()")
  /\ py_int (VStr (u "12_")) = Raise (ValueError "invalid literal for int()").
Proof. repeat split; vm_compute; reflexivity. Qed.

Lemma scan_ones n : forall acc count,
  exists v, scan_digits acc count true (repeat 49 n) = Some (v, (count + n)%nat, []).
Proof.
  assert (D : digit_value 49 = Some 1) by reflexivity.
  induction n as [|n IH]; intros acc count.
  - exists acc. rewrite Nat.add_0_r. reflexivity.
  - cbn [repeat scan_digits]. replace (49 =? 95) with false by reflexivity.
    rewrite D. destruct (IH (acc * 10 + 1) (S count)) as [v E].
    exists v. rewrite E, Nat.add_succ_r. reflexivity.
Qed.

Lemma py_int_ones n :
  exists v,
    py_int (VStr (repeat 49 (S n)))
    = if (MAX_STR_DIGITS <? S n)%nat
      then Raise (ValueError "Exceeds the limit (4300 digits) for integer string conversion")
      else Ok (Z.of_N v).
Proof.
  assert (D : digit_value 49 = Some 1) by reflexivity.
  destruct (scan_ones n 1 1) as [v E]. exists v.
  cbn [py_int repeat skip_int_space].
  replace (is_int_space 49) with false by reflexivity.
  replace (49 =? 45) with false by reflexivity.
  replace (49 =? 43) with false by reflexivity.
  cbn [scan_digits]. replace (49 =? 95) with false by reflexivity.
  rewrite D. replace (0 * 10 + 1) with 1 by reflexivity. rewrite E.
  replace (1 + n)%nat with (S n) by reflexivity.
  destruct (MAX_STR_DIGITS <? S n)%nat; reflexivity.
Qed.

(** A string of more than 4300 digits exceeds the limit of the conversion;
    up to 4300 digits are converted. *)
Lemma py_int_digit_limit n :
  (0 < n)%nat ->
  if (MAX_STR_DIGITS <? n)%nat
  then py_int (VStr (repeat 49 n))
       = Raise (ValueError "Exceeds the limit (4300 digits) for integer string conversion")
  else exists z, py_int (VStr (repeat 49 n)) = Ok z.
Proof.
  destruct n as [|n]; [lia|]. intros _.
  destruct (py_int_ones n) as [v E]. rewrite E.
  destruct (MAX_STR_DIGITS <? S n)%nat; eauto.
Qed.

End ViewFacts.
Import ViewFacts.

(** X26. [/v1/answer] converts k before it looks whether a query was
    given: a request whose k is no integer is answered with status 500 and
    the exception of [int()], also when its query is missing, where
    [/v1/f1/run], which checks the query first, answers 400. *)
Theorem invalid_k_precedes_missing_q rt w st data v e q mode :
  data !! "k" = Some v -> py_int v = Raise e ->
  Views.read_q data = Ok q -> Views.read_mode rt data = Ok mode ->
  Views.answer_view rt w st (VDict data) = (st, Status500 e)
  /\ (q = [] -> Views.f1_view rt (VDict data) = Views.Tool400).
Proof.
  intros Hk He Hq Hm.
  unfold Views.answer_view, Views.f1_view.
  rewrite (body_dict data (has_key _ _ _ Hk)).
  unfold mbind, Result_bind. rewrite Hq, Hm.
  unfold Views.read_k. rewrite Hk, He. split; [reflexivity|].
  intros ->. reflexivity.
Qed.

Lemma invalid_k_precedes_missing_q_witness :
  Views.answer_view plain_runtime plain_world cold
    (VDict {[ "k" := VStr (u "five") ]})
  = (cold, Status500 (ValueError "invalid literal for int()"))
  /\ Views.f1_view plain_runtime (VDict {[ "k" := VStr (u "five") ]}) = Views.Tool400.
Proof.
  destruct (invalid_k_precedes_missing_q plain_runtime plain_world cold
              {[ "k" := VStr (u "five") ]} (VStr (u "five"))
              (ValueError "invalid literal for int()") [] (u "auto")) as [A B].
  - reflexivity.
  - vm_compute; reflexivity.
  - vm_compute; reflexivity.
  - vm_compute; reflexivity.
  - split; [exact A | exact (B eq_refl)].
Defined.

(** X27. A query of whitespace only hides the key question: the request
    is answered 400 by both views, whatever it carries under question. *)
Theorem blank_q_hides_question rt w st (data : Payload) (s : pystr) mode k :
  data !! "q" = Some (VStr s) -> s <> [] -> strip s = [] ->
  Views.read_mode rt data = Ok mode -> Views.read_k data = Ok k ->
  Views.answer_view rt w st (VDict data) = (st, Status400)
  /\ Views.f1_view rt (VDict data) = Views.Tool400.
Proof.
  intros Hq Hs Hb Hm Hk.
  assert (R : Views.read_q data = Ok []).
  { rewrite (read_q_str data s Hq Hs), Hb. reflexivity. }
  unfold Views.answer_view, Views.f1_view.
  rewrite (body_dict data (has_key _ _ _ Hq)).
  unfold mbind, Result_bind. rewrite R, Hm, Hk. split; reflexivity.
Qed.

Lemma blank_q_hides_question_witness :
  Views.answer_view plain_runtime plain_world cold
    (VDict {[ "q" := VStr (u "  "); "question" := VStr (u "上海天气") ]})
  = (cold, Status400).
Proof.
  apply (blank_q_hides_question plain_runtime plain_world cold
           {[ "q" := VStr (u "  "); "question" := VStr (u "上海天气") ]}
           (u "  ") (u "auto") 5); vm_compute; try reflexivity; discriminate.
Defined.

(** X28. With a forced mode the router is not asked, and the tool receives
    the request as it was sent: the keys of the request replace those the
    view computes, so the payload carries the query with the whitespace
    around it, while the response names the stripped query. *)
Theorem tool_receives_the_request_as_sent rt w st (data : Payload) (raw : pystr) mode k :
  data !! "q" = Some (VStr raw) -> strip raw <> [] ->
  Views.read_mode rt data = Ok mode -> mode <> u "auto" -> Views.read_k data = Ok k ->
  let d := decision mode 1.0 [] ∅ in
  let p := base_payload (strip raw) k data d in
  Views.answer_view rt w st (VDict data)
  = (st, match dispatch (tools w) (dispatch_target d) p with
         | Ok r => Status200 (Answered (strip raw) d
                                {| key := dispatch_target d; key_items := items r;
                                   steps := None |} (true_error r))
         | Raise e => Status500 e
         end)
  /\ p !! "q" = Some (VStr raw)
  /\ forall key v, data !! key = Some v -> p !! key = Some v.
Proof.
  intros Hq Hs Hm Ha Hk d p.
  assert (T : forall key v, data !! key = Some v -> p !! key = Some v).
  { intros key v H. unfold p, base_payload. apply lookup_union_Some_l. exact H. }
  split; [|split; [apply T; exact Hq|exact T]].
  assert (R : Views.read_q data = Ok (strip raw)).
  { apply read_q_str; [exact Hq|]. intros ->. apply Hs. reflexivity. }
  unfold Views.answer_view.
  rewrite (body_dict data (has_key _ _ _ Hq)).
  unfold mbind, Result_bind. rewrite R, Hm, Hk.
  unfold serve, answer. destruct (strip raw) as [|c q] eqn:E; [congruence|].
  unfold decide_request, eqb. rewrite bool_decide_eq_false_2 by exact Ha.
  cbn [negb]. f_equal. unfold mbind, Result_bind.
  unfold orchestrate. cbn [plan decision]. unfold single_step.
  fold d. fold p. unfold mbind, Result_bind.
  destruct (dispatch (tools w) (dispatch_target d) p); reflexivity.
Qed.

Lemma tool_receives_the_request_as_sent_witness :
  base_payload (strip (u " 上海天气 ")) 5
    {[ "q" := VStr (u " 上海天气 "); "mode" := VStr (u "F1") ]}
    (decision (u "f1") 1.0 [] ∅) !! "q"
  = Some (VStr (u " 上海天气 ")).
Proof.
  destruct (tool_receives_the_request_as_sent plain_runtime plain_world cold
              {[ "q" := VStr (u " 上海天气 "); "mode" := VStr (u "F1") ]}
              (u " 上海天气 ") (u "f1") 5) as (_ & A & _).
  - reflexivity.
  - vm_compute; discriminate.
  - vm_compute; reflexivity.
  - vm_compute; discriminate.
  - reflexivity.
  - exact A.
Defined.

(** ** The sanitizer of the Python tool *)

Module SanitizeFacts.

Import F3Service.

Lemma splitlines_no_break b s :
  Forall (Forall (fun c => is_linebreak c = false)) (splitlines_from b s).
Proof.
  revert b. induction s as [|c s IH]; intros b; cbn [splitlines_from]; [constructor|].
  destruct (b && (c =? 10)); [apply IH|].
  destruct (is_linebreak c) eqn:E.
  - constructor; [constructor|apply IH].
  - specialize (IH false). destruct (splitlines_from false s) as [|line lines].
    + repeat constructor. exact E.
    + apply Forall_cons in IH as [H1 H2]. constructor; [|exact H2].
      constructor; [exact E|exact H1].
Qed.

Lemma splitlines_line l rest :
  Forall (fun c => is_linebreak c = false) l ->
  splitlines_from false (l ++ 10 :: rest) = l :: splitlines_from false rest.
Proof.
  induction 1 as [|a l Ha _ IH]; cbn [app splitlines_from andb].
  - reflexivity.
  - rewrite Ha, IH. reflexivity.
Qed.

Lemma splitlines_last l :
  Forall (fun c => is_linebreak c = false) l ->
  splitlines_from false l = match l with [] => [] | _ :: _ => [l] end.
Proof.
  induction 1 as [|a l Ha _ IH]; cbn [splitlines_from andb]; [reflexivity|].
  rewrite Ha, IH. destruct l; reflexivity.
Qed.

Lemma splitlines_join L x :
  Forall (Forall (fun c => is_linebreak c = false)) L ->
  In x (splitlines (join_lines L)) -> In x L.
Proof.
  unfold splitlines. induction 1 as [|l L Hl HL IH]; [intros []|].
  destruct L as [|l2 L].
  - cbn [join_lines]. rewrite (splitlines_last l Hl).
    destruct l; [intros []|]. intros [<-|[]]. left; reflexivity.
  - change (join_lines (l :: l2 :: L)) with (l ++ 10 :: join_lines (l2 :: L)).
    rewrite (splitlines_line l _ Hl). intros [<-|H]; [left; reflexivity|].
    right. apply IH. exact H.
Qed.

End SanitizeFacts.
Import SanitizeFacts.

(** X29. No import survives [_sanitize_code]: every line of the sanitized
    code is a line of the code given, and none of them, stripped, begins
    with [import ] or with [from ]. *)
Theorem sanitize_leaves_no_import code line :
  In line (F3Service.splitlines (F3Service._sanitize_code code)) ->
  In line (F3Service.splitlines code) /\ F3Service.is_import line = false.
Proof.
  unfold F3Service._sanitize_code. intros H.
  apply splitlines_join in H.
  - apply filter_In in H as [H1 H2]. split; [exact H1|].
    apply negb_true_iff in H2. exact H2.
  - pose proof (splitlines_no_break false code) as F.
    rewrite List.Forall_forall in *. intros l Hl. apply F.
    apply filter_In in Hl as [Hl _]. exact Hl.
Qed.

Lemma sanitize_leaves_no_import_witness :
  F3Service._sanitize_code
    (code_of ["import os"; "ans = 1"; "  from math import pi"; "print(ans)"])
  = code_of ["ans = 1"; "print(ans)"]
  /\ F3Service.is_import (u "print(ans)") = false.
Proof.
  split; [vm_compute; reflexivity|].
  apply (sanitize_leaves_no_import
           (code_of ["import os"; "ans = 1"; "  from math import pi"; "print(ans)"])
           (u "print(ans)")).
  vm_compute. right; left; reflexivity.
Defined.
